(** * Rail-AI: rake-formation planner and planning-job lifecycle

    A shallow embedding of [backend/app/services/planner.py] and of the job
    and commit handlers of [backend/app/routers/planning.py].

    Conventions of the embedding.
    - Python numbers (tonnages, coordinates, rates, costs) are exact
      rationals [Q]; [int(x)] is truncation toward zero.
    - Python dicts used as records (an order, a stockyard, a rake, a plan)
      are Rocq records, each in a module of its own so that the keys keep
      their names; a key read with [.get] and a default, or a nullable
      column, is an [option] field.
    - The inventory ledger, a dict of dicts, is a [gmap] of [gmap]s; Python
      sets are [gset]s.
    - Exceptions are the [Raise] results of the monad [Py.result].
    - The two libraries the planner calls, [math] and OR-Tools' CP-SAT
      solver, are interfaces (type classes); every statement about the
      planner holds for all their implementations, or for all solvers that
      return assignments satisfying the constraints they were given. *)

From Stdlib Require Import QArith Qround Lqa.
From stdpp Require Import gmap strings list fin_maps sets pretty.

Set Warnings "-clear-no-such-hyp".

(** ** Python preliminaries *)

Module Py.

Inductive exn : Type :=
| ZeroDivisionError
| KeyError (key : string)
| ValueError (msg : string)
| RuntimeError (msg : string).

Inductive result (A : Type) : Type :=
| Ok (a : A)
| Raise (e : exn).
Arguments Ok {A} a.
Arguments Raise {A} e.

Definition bind {A B : Type} (c : result A) (k : A → result B) : result B :=
  match c with
  | Ok a => k a
  | Raise e => Raise e
  end.

(** [try: body  except Exception: handler] *)
Definition try_except {A : Type} (body : result A) (handler : exn → result A)
  : result A :=
  match body with
  | Ok a => Ok a
  | Raise e => handler e
  end.

(** Truth value of an optional number: [None] and [0] are falsy. *)
Definition truthy (x : option Q) : bool :=
  match x with
  | Some q => negb (Qeq_bool q 0)
  | None => false
  end.

(** Truth value of an optional string: [None] and [''] are falsy. *)
Definition truthy_str (x : option string) : bool :=
  match x with
  | Some s => negb (bool_decide (s = ""))
  | None => false
  end.

Definition Qlt_bool (x y : Q) : bool := negb (Qle_bool y x).

(** [int(q)]: truncation toward zero. *)
Definition int (q : Q) : Z := Z.quot (Qnum q) (Z.pos (Qden q)).

(** [a / b] *)
Definition div (a b : Q) : result Q :=
  if Qeq_bool b 0 then Raise ZeroDivisionError else Ok (a / b)%Q.

(** [sum(l)]: a left fold from [0]. *)
Definition sum (l : list Q) : Q := fold_left Qplus l 0%Q.

(** [sorted(l, key=...)] and [list.sort]: a stable sort.  [lt a b] is
    [key(a) < key(b)]; an element is put before the first one that is not
    smaller than it, so equal keys keep their input order.  With
    [reverse=True] the comparison is flipped and stability is kept. *)
Fixpoint insert_by {A : Type} (lt : A → A → bool) (x : A) (l : list A) : list A :=
  match l with
  | [] => [x]
  | y :: l' => if lt y x then y :: insert_by lt x l' else x :: y :: l'
  end.

Fixpoint sorted {A : Type} (lt : A → A → bool) (l : list A) : list A :=
  match l with
  | [] => []
  | x :: l' => insert_by lt x (sorted lt l')
  end.

(** [str(e)] *)
Definition str (e : exn) : string :=
  match e with
  | ZeroDivisionError => "division by zero"
  | KeyError key => key
  | ValueError msg => msg
  | RuntimeError msg => msg
  end.


End Py.

Import Py.

(** The monad operations, so that stdpp's [x ← c; k] reads as a Python
    statement sequence in which [c] may raise. *)
#[global] Instance result_ret : MRet Py.result := λ A a, Py.Ok a.
#[global] Instance result_bind : MBind Py.result := λ A B k c, Py.bind c k.

(** ** The [math] module

    The float functions the distance formula calls; their results are
    floats, hence rationals. *)

Module math.
Class lib : Type := {
  radians : Q → Q;
  sin : Q → Q;
  cos : Q → Q;
  asin : Q → Q;
  sqrt : Q → Q
}.
End math.

(** ** The dicts the planner works on *)

Module Order.
(** [priority] and [due_date] are read with [.get] and a default; [None]
    is the absent key.  [due_date] is a timestamp.  [status] is a column
    of the table row only: the planner's dict has no such key. *)
Record t : Type := mk {
  id : string;
  order_number : string;
  product_code : string;
  quantity_tonnes : Q;
  source_stockyard_id : option string;
  destination : string;
  destination_latitude : option Q;
  destination_longitude : option Q;
  priority : option Z;
  due_date : option Z;
  sla_hours : Q;
  status : string
}.
End Order.

Module Stockyard.
Record t : Type := mk {
  id : string;
  code : string;
  name : string;
  location : string;
  latitude : option Q;
  longitude : option Q;
  capacity_tonnes : Q;
  current_inventory : gmap string Q
}.
End Stockyard.

Module Rake.
Record t : Type := mk {
  id : string;
  rake_number : string;
  wagon_type_code : string;
  num_wagons : Z;
  total_capacity_tonnes : Q;
  status : string;
  current_location : option string
}.
End Rake.

Module Config.
(** The planner configuration; every key is optional. *)
Record t : Type := mk {
  mode : option string;
  allow_multi_destination : option bool;
  min_rake_size : option Q;
  cost_weights_freight : option Q;
  cost_weights_demurrage : option Q;
  cost_weights_idle : option Q;
  freight_rate : option Q;
  demurrage_rate : option Q;
  idle_cost : option Q
}.

Definition empty : t := mk None None None None None None None None None.
End Config.

(** An entry of a rake plan's ['orders'] list. *)
Module RakeOrder.
Record t : Type := mk {
  order_id : string;
  order_number : string;
  product_code : string;
  quantity : Q;
  destination : string;
  freight_cost : Q
}.
End RakeOrder.

(** A rake plan: the dict [_pack_rake] and [_extract_solution] build. *)
Module RakePlan.
Record t : Type := mk {
  rake_number : string;
  origin_stockyard_code : option string;
  origin_stockyard_name : option string;
  destinations : list string;
  orders : list RakeOrder.t;
  order_ids : list string;
  total_weight : Q;
  capacity : Q;
  utilization_pct : Q;
  freight_cost : Q;
  demurrage_cost : Q;
  idle_cost : Q;
  wagon_type : string;
  num_wagons : Z
}.
End RakePlan.

(** The dict a planner returns. *)
Module PlanResult.
Record t : Type := mk {
  rakes : list RakePlan.t;
  total_cost : Q;
  freight_cost : Q;
  demurrage_cost : Q;
  idle_cost : Q;
  utilization_pct : Q;
  orders_fulfilled : nat;
  total_orders : nat;
  algorithm : string
}.

(** [result['algorithm'] = tag] *)
Definition set_algorithm (r : t) (tag : string) : t :=
  mk (rakes r) (total_cost r) (freight_cost r) (demurrage_cost r)
     (idle_cost r) (utilization_pct r) (orders_fulfilled r)
     (total_orders r) tag.
End PlanResult.

(** The inventory ledger: stockyard code, then product code, to tonnes. *)
Abbreviation ledger := (gmap string (gmap string Q)).

(** Remaining stock of a product at a stockyard, when both keys exist. *)
Definition stock (inventory : ledger) (code product : string) : option Q :=
  match inventory !! code with
  | Some products => products !! product
  | None => None
  end.

(** ** [class GreedyPlanner] *)

Module GreedyPlanner.
Local Open Scope Q_scope.

Record t : Type := mk {
  config : Config.t;
  mode : string;
  allow_multi_dest : bool;
  min_rake_size : Q;
  freight_weight : Q;
  demurrage_weight : Q;
  idle_weight : Q;
  freight_rate : Q;
  demurrage_rate : Q;
  idle_rate : Q
}.

(** [__init__] *)
Definition init (config : Config.t) : t :=
  mk config
     (default "greedy" (Config.mode config))
     (default false (Config.allow_multi_destination config))
     (default 1000 (Config.min_rake_size config))
     (default 1.0 (Config.cost_weights_freight config))
     (default 0.5 (Config.cost_weights_demurrage config))
     (default 0.3 (Config.cost_weights_idle config))
     (default 2.5 (Config.freight_rate config))
     (default 500 (Config.demurrage_rate config))
     (default 100 (Config.idle_cost config)).

Section WithMath.
Context `{M : math.lib}.

(** The haversine formula of [_calculate_distance], lines 238-247. *)
Definition haversine (lat_o lon_o lat_d lon_d : Q) : Q :=
  let lat1 := math.radians lat_o in
  let lon1 := math.radians lon_o in
  let lat2 := math.radians lat_d in
  let lon2 := math.radians lon_d in
  let dlat := lat2 - lat1 in
  let dlon := lon2 - lon1 in
  let a := math.sin (dlat / 2) ^ 2
           + math.cos lat1 * math.cos lat2 * math.sin (dlon / 2) ^ 2 in
  let c := 2 * math.asin (math.sqrt a) in
  c * 6371.

(** [_calculate_distance]; both arguments are read with
    [.get('latitude')] and [.get('longitude')] only. *)
Definition _calculate_distance
    (origin_latitude origin_longitude : option Q)
    (destination_latitude destination_longitude : option Q) : Q :=
  if truthy origin_latitude && truthy origin_longitude
     && truthy destination_latitude && truthy destination_longitude
  then
    match origin_latitude, origin_longitude,
          destination_latitude, destination_longitude with
    | Some lat_o, Some lon_o, Some lat_d, Some lon_d =>
        haversine lat_o lon_o lat_d lon_d
    | _, _, _, _ => 500
    end
  else 500.

(** The sort key of line 219: distance from a stockyard to the order's
    destination. *)
Definition distance_to (order : Order.t) (sy : Stockyard.t) : Q :=
  _calculate_distance
    (Stockyard.latitude sy) (Stockyard.longitude sy)
    (Order.destination_latitude order) (Order.destination_longitude order).

(** The sort key of line 228: [inventory[sy['code']].get(product, 0)]. *)
Definition stock_of (inventory : ledger) (product : string)
    (sy : Stockyard.t) : Q :=
  default 0 (stock inventory (Stockyard.code sy) product).

(** The candidate test of lines 209-212. *)
Definition has_stock (inventory : ledger) (product : string)
    (required_qty : Q) (sy : Stockyard.t) : bool :=
  match stock inventory (Stockyard.code sy) product with
  | Some available => Qle_bool required_qty available
  | None => false
  end.

(** [_select_source_stockyard] *)
Definition _select_source_stockyard (order : Order.t)
    (stockyards : list Stockyard.t) (inventory : ledger)
  : option Stockyard.t :=
  if truthy_str (Order.source_stockyard_id order) then
    List.find
      (λ s, bool_decide (Some (Stockyard.id s) = Order.source_stockyard_id order))
      stockyards
  else
    let product_code := Order.product_code order in
    let required_qty := Order.quantity_tonnes order in
    let candidates :=
      List.filter (has_stock inventory product_code required_qty) stockyards in
    match candidates with
    | [] => None
    | _ =>
      if truthy (Order.destination_latitude order)
         && truthy (Order.destination_longitude order)
      then
        head (sorted
                (λ a b, Qlt_bool (distance_to order a) (distance_to order b))
                candidates)
      else
        head (sorted
                (λ a b, Qlt_bool (stock_of inventory product_code b)
                                 (stock_of inventory product_code a))
                candidates)
    end.

(** The local variables of [_pack_rake], with the ledger it mutates. *)
Record pack_state : Type := mk_pack {
  current_weight : Q;
  rake_orders : list RakeOrder.t;
  destinations : gset string;
  origin_stockyard : option Stockyard.t;
  freight_cost : Q;
  inventory : ledger
}.

Definition pack_init (inventory : ledger) : pack_state :=
  mk_pack 0 [] ∅ None 0 inventory.

(** Lines 139-164: the reservation, once a source has been accepted. *)
Definition reserve (self : t) (st : pack_state) (source_sy : Stockyard.t)
    (order : Order.t) : result pack_state :=
  let order_weight := Order.quantity_tonnes order in
  let destination := Order.destination order in
  let product_code := Order.product_code order in
  match inventory st !! Stockyard.code source_sy with
  | None => Raise (KeyError (Stockyard.code source_sy))
  | Some products =>
    match products !! product_code with
    | None => Ok st
    | Some available =>
      if Qle_bool order_weight available then
        let distance :=
          _calculate_distance
            (Stockyard.latitude source_sy) (Stockyard.longitude source_sy)
            (Order.destination_latitude order)
            (Order.destination_longitude order) in
        let order_freight := distance * order_weight * freight_rate self in
        Ok (mk_pack
              (current_weight st + order_weight)
              (rake_orders st ++
                 [RakeOrder.mk (Order.id order) (Order.order_number order)
                    product_code order_weight destination order_freight])
              ({[destination]} ∪ destinations st)
              (origin_stockyard st)
              (freight_cost st + order_freight)
              (<[Stockyard.code source_sy :=
                   <[product_code := available - order_weight]> products]>
                 (inventory st)))
      else Ok st
    end
  end.

Definition set_origin (st : pack_state) (sy : Stockyard.t) : pack_state :=
  mk_pack (current_weight st) (rake_orders st) (destinations st)
          (Some sy) (freight_cost st) (inventory st).

(** The body of the [for order in orders] loop of [_pack_rake]. *)
Definition pack_order (self : t) (rake_capacity : Q) (assigned : gset string)
    (stockyards : list Stockyard.t) (st : pack_state) (order : Order.t)
  : result pack_state :=
  if bool_decide (Order.id order ∈ assigned) then Ok st else
  let order_weight := Order.quantity_tonnes order in
  if Qlt_bool rake_capacity (current_weight st + order_weight) then Ok st else
  let destination := Order.destination order in
  if negb (allow_multi_dest self)
     && negb (bool_decide (destinations st = ∅))
     && bool_decide (destination ∉ destinations st)
  then Ok st else
  match _select_source_stockyard order stockyards (inventory st) with
  | None => Ok st
  | Some source_sy =>
    match origin_stockyard st with
    | None => reserve self (set_origin st source_sy) source_sy order
    | Some origin =>
      if bool_decide (Stockyard.code source_sy ≠ Stockyard.code origin)
      then Ok st
      else reserve self st source_sy order
    end
  end.

Fixpoint pack_orders (self : t) (rake_capacity : Q) (assigned : gset string)
    (stockyards : list Stockyard.t) (orders : list Order.t) (st : pack_state)
  : result pack_state :=
  match orders with
  | [] => Ok st
  | order :: rest =>
      st' ← pack_order self rake_capacity assigned stockyards st order;
      pack_orders self rake_capacity assigned stockyards rest st'
  end.

(** [_pack_rake]: the pack, or [None], and the ledger as the call left
    it. *)
Definition _pack_rake (self : t) (rake : Rake.t) (orders : list Order.t)
    (assigned : gset string) (stockyards : list Stockyard.t)
    (inventory0 : ledger) : result (option RakePlan.t * ledger) :=
  let rake_capacity := Rake.total_capacity_tonnes rake in
  st ← pack_orders self rake_capacity assigned stockyards orders
         (pack_init inventory0);
  match rake_orders st with
  | [] => Ok (None, inventory st)
  | _ =>
    ratio ← Py.div (current_weight st) rake_capacity;
    let utilization := ratio * 100 in
    let demurrage_cost :=
      if Qlt_bool utilization 75 then demurrage_rate self * 24 else 0 in
    let idle_cost :=
      idle_rate self * (inject_Z (Z.of_nat (length (rake_orders st))) * 2) in
    Ok (Some (RakePlan.mk
                (Rake.rake_number rake)
                (Stockyard.code <$> origin_stockyard st)
                (Stockyard.name <$> origin_stockyard st)
                (elements (destinations st))
                (rake_orders st)
                (RakeOrder.order_id <$> rake_orders st)
                (current_weight st)
                rake_capacity
                utilization
                (freight_cost st)
                demurrage_cost
                idle_cost
                (Rake.wagon_type_code rake)
                (Rake.num_wagons rake)),
        inventory st)
  end.

(** [_calculate_utilization] *)
Definition _calculate_utilization (plan_rakes : list RakePlan.t) : Q :=
  match plan_rakes with
  | [] => 0
  | _ => Py.sum (RakePlan.utilization_pct <$> plan_rakes)
         / inject_Z (Z.of_nat (length plan_rakes))
  end.

(** The sort key of [plan]: [(priority or 3, due_date or datetime.max)],
    compared as a tuple. *)
Definition due_lt (a b : option Z) : bool :=
  match a, b with
  | Some x, Some y => (x <? y)%Z
  | Some _, None => true
  | None, _ => false
  end.

Definition order_key_lt (a b : Order.t) : bool :=
  let pa := default 3%Z (Order.priority a) in
  let pb := default 3%Z (Order.priority b) in
  (pa <? pb)%Z
  || ((pa =? pb)%Z && due_lt (Order.due_date a) (Order.due_date b)).

(** The local variables of [plan] that the loop over rakes updates. *)
Record plan_state : Type := mk_plan {
  plan_rakes : list RakePlan.t;
  assigned_orders : gset string;
  total_freight : Q;
  total_demurrage : Q;
  total_idle : Q;
  stockyard_inventory : ledger
}.

(** Lines 67-75: the size gate, and what is recorded for a kept pack.
    The ledger is the one [_pack_rake] left, kept or not. *)
Definition record_pack (self : t) (st : plan_state)
    (rake_plan : option RakePlan.t) (inventory' : ledger) : plan_state :=
  match rake_plan with
  | Some rp =>
    if Qle_bool (min_rake_size self) (RakePlan.total_weight rp) then
      mk_plan (plan_rakes st ++ [rp])
              (fold_left (λ acc order_id, {[order_id]} ∪ acc)
                         (RakePlan.order_ids rp) (assigned_orders st))
              (total_freight st + RakePlan.freight_cost rp)
              (total_demurrage st + RakePlan.demurrage_cost rp)
              (total_idle st + RakePlan.idle_cost rp)
              inventory'
    else
      mk_plan (plan_rakes st) (assigned_orders st) (total_freight st)
              (total_demurrage st) (total_idle st) inventory'
  | None =>
      mk_plan (plan_rakes st) (assigned_orders st) (total_freight st)
              (total_demurrage st) (total_idle st) inventory'
  end.

(** The [for rake in available_rakes] loop of [plan], with its [break]. *)
Fixpoint plan_loop (self : t) (sorted_orders : list Order.t)
    (stockyards : list Stockyard.t) (available_rakes : list Rake.t)
    (st : plan_state) : result plan_state :=
  match available_rakes with
  | [] => Ok st
  | rake :: rest =>
    if (length sorted_orders <=? size (assigned_orders st))%nat then Ok st
    else
      ' (rake_plan, inventory') ←
        _pack_rake self rake sorted_orders (assigned_orders st) stockyards
                   (stockyard_inventory st);
      plan_loop self sorted_orders stockyards rest
                (record_pack self st rake_plan inventory')
  end.

(** Line 48: the ledger built from the snapshot; a later stockyard with
    the same code replaces an earlier one. *)
Definition initial_inventory (stockyards : list Stockyard.t) : ledger :=
  fold_left (λ inv sy, <[Stockyard.code sy := Stockyard.current_inventory sy]> inv)
            stockyards ∅.

Definition available (rakes : list Rake.t) : list Rake.t :=
  List.filter (λ r, bool_decide (Rake.status r = "available")) rakes.

(** The state [plan] reaches at the end of its loop. *)
Definition plan_run (self : t) (orders : list Order.t)
    (stockyards : list Stockyard.t) (rakes : list Rake.t)
  : result plan_state :=
  plan_loop self (sorted order_key_lt orders) stockyards (available rakes)
            (mk_plan [] ∅ 0 0 0 (initial_inventory stockyards)).

(** [plan] *)
Definition plan (self : t) (orders : list Order.t)
    (stockyards : list Stockyard.t) (rakes : list Rake.t)
  : result PlanResult.t :=
  st ← plan_run self orders stockyards rakes;
  let total_cost :=
    freight_weight self * total_freight st
    + demurrage_weight self * total_demurrage st
    + idle_weight self * total_idle st in
  Ok (PlanResult.mk
        (plan_rakes st)
        total_cost
        (total_freight st)
        (total_demurrage st)
        (total_idle st)
        (_calculate_utilization (plan_rakes st))
        (size (assigned_orders st))
        (length orders)
        "greedy").

End WithMath.
End GreedyPlanner.

(** ** OR-Tools' [cp_model], as far as the planner uses it *)

Module cp_model.

Inductive status : Type :=
| UNKNOWN
| MODEL_INVALID
| FEASIBLE
| INFEASIBLE
| OPTIMAL.

#[global] Instance status_eq_dec : EqDecision status.
Proof. solve_decision. Defined.

(** The value the solver gives the boolean variable [x[i, j]]: order [i]
    goes to rake [j]. *)
Abbreviation assignment := (nat → nat → bool).

(** The data of the model [ORToolsPlanner.plan] builds: one integer weight
    and one integer objective coefficient per order, one integer capacity
    per rake. *)
Record CpModel : Type := mk {
  weights : list Z;
  capacities : list Z;
  costs : list Z
}.

Definition Zsum (l : list Z) : Z := foldr Z.add 0%Z l.

(** [sum(x[i, j] for j in range(n_rakes))] *)
Definition times_assigned (v : assignment) (n_rakes : nat) (i : nat) : Z :=
  Zsum ((λ j, if v i j then 1%Z else 0%Z) <$> seq 0 n_rakes).

(** [sum(x[i, j] * coeff[i] for i in range(n_orders))] *)
Definition weighted (v : assignment) (coeffs : list Z) (j : nat) : Z :=
  Zsum (imap (λ i c, if v i j then c else 0%Z) coeffs).

(** The constraints added with [model.Add]: every order in at most one
    rake, every rake within its capacity. *)
Definition satisfies (m : CpModel) (v : assignment) : bool :=
  forallb (λ i, (times_assigned v (length (capacities m)) i <=? 1)%Z)
          (seq 0 (length (weights m)))
  && forallb (λ jc, (weighted v (weights m) jc.1 <=? jc.2)%Z)
             (imap pair (capacities m)).

(** The expression given to [model.Minimize]. *)
Definition objective (m : CpModel) (v : assignment) : Z :=
  Zsum ((λ j, weighted v (costs m) j) <$> seq 0 (length (capacities m))).

(** [CpSolver]: [Solve] returns a status and, through [Value], an
    assignment; the call may raise. *)
Class CpSolver : Type := {
  Solve : CpModel → result (status * assignment)
}.

(** What the library promises: with status [OPTIMAL] or [FEASIBLE] the
    assignment satisfies the constraints of the model. *)
Definition sound (S : CpSolver) : Prop :=
  ∀ m st v, Solve m = Ok (st, v) →
            st = OPTIMAL ∨ st = FEASIBLE → satisfies m v = true.

(** An assignment no other satisfying assignment improves on. *)
Definition is_optimal (m : CpModel) (v : assignment) : Prop :=
  satisfies m v = true ∧
  ∀ v', satisfies m v' = true → (objective m v <= objective m v')%Z.

End cp_model.

(** ** [class ORToolsPlanner] *)

Module ORToolsPlanner.
Local Open Scope Q_scope.

Record t : Type := mk {
  config : Config.t;
  allow_multi_dest : bool;
  min_rake_size : Q;
  freight_weight : Z;
  demurrage_weight : Z;
  idle_weight : Z;
  freight_rate : Q;
  demurrage_rate : Q;
  idle_rate : Q
}.

(** [__init__] *)
Definition init (config : Config.t) : t :=
  mk config
     (default false (Config.allow_multi_destination config))
     (default 1000 (Config.min_rake_size config))
     (Py.int (default 1.0 (Config.cost_weights_freight config) * 1000))
     (Py.int (default 0.5 (Config.cost_weights_demurrage config) * 1000))
     (Py.int (default 0.3 (Config.cost_weights_idle config) * 1000))
     (default 2.5 (Config.freight_rate config))
     (default 500 (Config.demurrage_rate config))
     (default 100 (Config.idle_cost config)).

(** Lines 302-325: the model. *)
Definition build_model (orders : list Order.t) (available_rakes : list Rake.t)
  : cp_model.CpModel :=
  cp_model.mk
    ((λ o, Py.int (Order.quantity_tonnes o)) <$> orders)
    ((λ r, Py.int (Rake.total_capacity_tonnes r)) <$> available_rakes)
    ((λ o, Py.int (Order.quantity_tonnes o * 500)) <$> orders).

(** Lines 357-361: the loop over the orders, for rake [j]; [i] is the
    index of the head of [orders]. *)
Fixpoint collect (value : cp_model.assignment) (j i : nat)
    (orders : list Order.t) (rake_orders : list Order.t) (total_weight : Q)
    (assigned_orders : gset string) : list Order.t * Q * gset string :=
  match orders with
  | [] => (rake_orders, total_weight, assigned_orders)
  | order :: rest =>
    if value i j then
      collect value j (S i) rest (rake_orders ++ [order])
              (total_weight + Order.quantity_tonnes order)
              ({[Order.id order]} ∪ assigned_orders)
    else
      collect value j (S i) rest rake_orders total_weight assigned_orders
  end.

Definition order_record (o : Order.t) : RakeOrder.t :=
  RakeOrder.mk (Order.id o) (Order.order_number o) (Order.product_code o)
               (Order.quantity_tonnes o) (Order.destination o) 0.

(** Lines 353-394: the loop over the rakes; [j] is the index of the head
    of [rakes]. *)
Fixpoint extract_loop (self : t) (value : cp_model.assignment)
    (orders : list Order.t) (j : nat) (rakes : list Rake.t)
    (plan_rakes : list RakePlan.t) (assigned_orders : gset string)
  : result (list RakePlan.t * gset string) :=
  match rakes with
  | [] => Ok (plan_rakes, assigned_orders)
  | rake :: rest =>
    let '(rake_orders, total_weight, assigned_orders') :=
      collect value j 0 orders [] 0 assigned_orders in
    match rake_orders with
    | _ :: _ =>
      if Qle_bool (min_rake_size self) total_weight then
        let destinations :=
          elements (list_to_set (Order.destination <$> rake_orders) : gset string) in
        let freight_cost := total_weight * 500 * freight_rate self in
        ratio ← Py.div total_weight (Rake.total_capacity_tonnes rake);
        let utilization := ratio * 100 in
        extract_loop self value orders (S j) rest
          (plan_rakes ++
             [RakePlan.mk
                (Rake.rake_number rake) None None destinations
                (order_record <$> rake_orders)
                (Order.id <$> rake_orders)
                total_weight
                (Rake.total_capacity_tonnes rake)
                utilization
                freight_cost 0 0
                (Rake.wagon_type_code rake)
                (Rake.num_wagons rake)])
          assigned_orders'
      else extract_loop self value orders (S j) rest plan_rakes assigned_orders'
    | [] => extract_loop self value orders (S j) rest plan_rakes assigned_orders'
    end
  end.

(** [_extract_solution] *)
Definition _extract_solution (self : t) (value : cp_model.assignment)
    (orders : list Order.t) (stockyards : list Stockyard.t)
    (rakes : list Rake.t) : result PlanResult.t :=
  ' (plan_rakes, assigned_orders) ← extract_loop self value orders 0 rakes [] ∅;
  let total_freight := Py.sum (RakePlan.freight_cost <$> plan_rakes) in
  let utilization :=
    match plan_rakes with
    | [] => 0
    | _ => Py.sum (RakePlan.utilization_pct <$> plan_rakes)
           / inject_Z (Z.of_nat (length plan_rakes))
    end in
  Ok (PlanResult.mk plan_rakes total_freight total_freight 0 0 utilization
        (size assigned_orders) (length orders) "or-tools (CP-SAT)").

Section WithLibraries.
Context `{M : math.lib} `{CP : cp_model.CpSolver}.

(** [plan] *)
Definition plan (self : t) (orders : list Order.t)
    (stockyards : list Stockyard.t) (rakes : list Rake.t)
  : result PlanResult.t :=
  let available_rakes := GreedyPlanner.available rakes in
  if (50 <? length orders)%nat || (20 <? length available_rakes)%nat then
    result ← GreedyPlanner.plan (GreedyPlanner.init (config self))
               orders stockyards rakes;
    Ok (PlanResult.set_algorithm result
          "or-tools (greedy fallback for large instance)")
  else
    ' (status, value) ← cp_model.Solve (build_model orders available_rakes);
    if bool_decide (status = cp_model.OPTIMAL ∨ status = cp_model.FEASIBLE)
    then _extract_solution self value orders stockyards available_rakes
    else
      result ← GreedyPlanner.plan (GreedyPlanner.init (config self))
                 orders stockyards rakes;
      Ok (PlanResult.set_algorithm result
            "or-tools (no solution, greedy fallback)").

End WithLibraries.
End ORToolsPlanner.

(** ** [run_planner], the dispatcher *)

Section Dispatcher.
Context `{M : math.lib} `{CP : cp_model.CpSolver}.
Local Open Scope Q_scope.

Definition run_planner (mode : string) (config : Config.t)
    (orders : list Order.t) (stockyards : list Stockyard.t)
    (rakes : list Rake.t) : result PlanResult.t :=
  if bool_decide (mode = "greedy") then
    GreedyPlanner.plan (GreedyPlanner.init config) orders stockyards rakes
  else if bool_decide (mode = "or-tools") then
    ORToolsPlanner.plan (ORToolsPlanner.init config) orders stockyards rakes
  else if bool_decide (mode = "hybrid") then
    greedy_result ←
      GreedyPlanner.plan (GreedyPlanner.init config) orders stockyards rakes;
    try_except
      (ortools_result ←
         ORToolsPlanner.plan (ORToolsPlanner.init config) orders stockyards rakes;
       if Qlt_bool (PlanResult.total_cost ortools_result)
                   (PlanResult.total_cost greedy_result)
       then Ok (PlanResult.set_algorithm ortools_result "hybrid (or-tools better)")
       else Ok (PlanResult.set_algorithm greedy_result "hybrid (greedy better)"))
      (λ _, Ok (PlanResult.set_algorithm greedy_result "hybrid (greedy only)"))
  else
    Raise (ValueError ("Unknown planner mode: " +:+ mode)).

End Dispatcher.

(** ** The tables of [models.py] the job and commit handlers touch

    A table is the list of its rows; [query(...).filter(p).first()] is
    [List.find p], [.all()] is [List.filter p], and assigning to the
    attributes of the row [first()] returned, then committing, rewrites that
    row in place.  Timestamps are integers. *)

Module PlanningJob.
Record t : Type := mk {
  id : string;
  scenario_name : string;
  notes : option string;
  config : Config.t;
  status : string;
  progress : Q;
  logs : list (Z * string);
  started_at : option Z;
  completed_at : option Z
}.
End PlanningJob.

Module Plan.
Record t : Type := mk {
  id : string;
  job_id : string;
  name : string;
  plan_data : PlanResult.t;
  total_cost : Q;
  freight_cost : Q;
  demurrage_cost : Q;
  idle_cost : Q;
  utilization_pct : Q;
  orders_fulfilled : nat;
  total_orders : nat;
  committed : bool;
  committed_at : option Z
}.
End Plan.

Module PlanRake.
Record t : Type := mk {
  id : string;
  plan_id : string;
  rake_number : string;
  origin_stockyard_id : option string;
  destinations : list string;
  orders_assigned : list RakeOrder.t;
  total_weight : Q;
  utilization_pct : Q;
  freight_cost : Q
}.
End PlanRake.

Module DB.
Record t : Type := mk {
  planning_jobs : list PlanningJob.t;
  orders : list Order.t;
  stockyards : list Stockyard.t;
  rakes : list Rake.t;
  plans : list Plan.t;
  plan_rakes : list PlanRake.t
}.

(** Rewrite the row [first()] returns, if there is one. *)
Fixpoint update_first {A : Type} (p : A → bool) (f : A → A) (rows : list A)
  : list A :=
  match rows with
  | [] => []
  | row :: rest => if p row then f row :: rest else row :: update_first p f rest
  end.

Definition job_is (job_id : string) (j : PlanningJob.t) : bool :=
  bool_decide (PlanningJob.id j = job_id).

Definition get_job (job_id : string) (db : t) : option PlanningJob.t :=
  List.find (job_is job_id) (planning_jobs db).

Definition update_job (job_id : string) (f : PlanningJob.t → PlanningJob.t)
    (db : t) : t :=
  mk (update_first (job_is job_id) f (planning_jobs db))
     (orders db) (stockyards db) (rakes db) (plans db) (plan_rakes db).

Definition add_plan (plan : Plan.t) (db : t) : t :=
  mk (planning_jobs db) (orders db) (stockyards db) (rakes db)
     (plans db ++ [plan]) (plan_rakes db).

Definition add_plan_rakes (rows : list PlanRake.t) (db : t) : t :=
  mk (planning_jobs db) (orders db) (stockyards db) (rakes db)
     (plans db) (plan_rakes db ++ rows).

Definition add_job (job : PlanningJob.t) (db : t) : t :=
  mk (planning_jobs db ++ [job]) (orders db) (stockyards db) (rakes db)
     (plans db) (plan_rakes db).
End DB.

(** The bodies the two read handlers return.  [isoformat()] of a timestamp
    is the timestamp. *)
Module JobStatus.
Record t : Type := mk {
  job_id : string;
  scenario_name : string;
  status : string;
  progress : Q;
  logs : list (Z * string);
  started_at : option Z;
  completed_at : option Z;
  plan_id : option string
}.
End JobStatus.

(** An entry of ['rakes'] in the body of [get_plan]; the last two keys are
    set only when the origin stockyard is found. *)
Module RakeData.
Record t : Type := mk {
  id : string;
  rake_number : string;
  origin_stockyard_id : option string;
  destinations : list string;
  orders_assigned : list RakeOrder.t;
  total_weight : Q;
  utilization_pct : Q;
  freight_cost : Q;
  origin_stockyard_name : option string;
  origin_stockyard_code : option string
}.
End RakeData.

(** The body of [get_plan], but for ['created_at'], a column the tables
    above do not carry. *)
Module PlanDetails.
Record t : Type := mk {
  id : string;
  job_id : string;
  name : string;
  total_cost : Q;
  freight_cost : Q;
  demurrage_cost : Q;
  idle_cost : Q;
  utilization_pct : Q;
  orders_fulfilled : nat;
  total_orders : nat;
  committed : bool;
  committed_at : option Z;
  rakes : list RakeData.t;
  algorithm : string
}.
End PlanDetails.

(** ** [routers/planning.py] *)

Module planning.
Local Open Scope Q_scope.

(** What a request handler does: return a body or raise
    [HTTPException(status_code, detail)]. *)
Inductive response (A : Type) : Type :=
| Return (body : A)
| HTTPException (status_code : nat) (detail : string).
Arguments Return {A} body.
Arguments HTTPException {A} status_code detail.

(** The assignments to a job row between two commits. *)
Definition set_job (status : string) (progress : Q)
    (started_at completed_at : option Z) (line : Z * string)
    (j : PlanningJob.t) : PlanningJob.t :=
  PlanningJob.mk (PlanningJob.id j) (PlanningJob.scenario_name j)
    (PlanningJob.notes j) (PlanningJob.config j)
    status progress (PlanningJob.logs j ++ [line]) started_at completed_at.

(** [generate_plan]: the new job row; the background task is queued. *)
Definition generate_plan (new_id : string) (scenario_name : string)
    (config : Config.t) (notes : option string) (db : DB.t)
  : DB.t * response (string * string) :=
  (DB.add_job
     (PlanningJob.mk new_id scenario_name notes config "queued" 0 [] None None)
     db,
   Return (new_id, "queued")).

(** [cancel_job] *)
Definition cancel_job (now : Z) (job_id : string) (db : DB.t)
  : DB.t * response string :=
  match DB.get_job job_id db with
  | None => (db, HTTPException 404 "Job not found")
  | Some job =>
    if bool_decide (PlanningJob.status job ∈ ["completed"; "failed"; "cancelled"])
    then (db, HTTPException 400 "Cannot cancel job in current state")
    else
      (DB.update_job job_id
         (λ j, set_job "cancelled" (PlanningJob.progress j)
                 (PlanningJob.started_at j) (Some now)
                 (now, "Job cancelled by user") j)
         db,
       Return "Job cancelled successfully")
  end.

(** [commit_plan], lines 345-353: the status flips. *)
Definition assign_rake (rake_number : string) (rakes : list Rake.t)
  : list Rake.t :=
  DB.update_first
    (λ r, bool_decide (Rake.rake_number r = rake_number))
    (λ r, Rake.mk (Rake.id r) (Rake.rake_number r) (Rake.wagon_type_code r)
            (Rake.num_wagons r) (Rake.total_capacity_tonnes r) "assigned"
            (Rake.current_location r))
    rakes.

Definition assign_order (order_id : string) (orders : list Order.t)
  : list Order.t :=
  DB.update_first
    (λ o, bool_decide (Order.id o = order_id))
    (λ o, Order.mk (Order.id o) (Order.order_number o) (Order.product_code o)
            (Order.quantity_tonnes o) (Order.source_stockyard_id o)
            (Order.destination o) (Order.destination_latitude o)
            (Order.destination_longitude o) (Order.priority o)
            (Order.due_date o) (Order.sla_hours o) "assigned")
    orders.

Definition commit_rakes (plan_rakes : list PlanRake.t) (rakes : list Rake.t)
  : list Rake.t :=
  fold_left (λ rs pr, assign_rake (PlanRake.rake_number pr) rs) plan_rakes rakes.

Definition commit_orders (plan_rakes : list PlanRake.t) (orders : list Order.t)
  : list Order.t :=
  fold_left
    (λ os pr,
       fold_left (λ os' order_data, assign_order (RakeOrder.order_id order_data) os')
                 (PlanRake.orders_assigned pr) os)
    plan_rakes orders.

Definition plan_is (plan_id : string) (p : Plan.t) : bool :=
  bool_decide (Plan.id p = plan_id).

Definition set_committed (now : Z) (p : Plan.t) : Plan.t :=
  Plan.mk (Plan.id p) (Plan.job_id p) (Plan.name p) (Plan.plan_data p)
    (Plan.total_cost p) (Plan.freight_cost p) (Plan.demurrage_cost p)
    (Plan.idle_cost p) (Plan.utilization_pct p) (Plan.orders_fulfilled p)
    (Plan.total_orders p) true (Some now).

(** [commit_plan] *)
Definition commit_plan (now : Z) (plan_id : string) (db : DB.t)
  : DB.t * response (string * Z) :=
  match List.find (plan_is plan_id) (DB.plans db) with
  | None => (db, HTTPException 404 "Plan not found")
  | Some plan =>
    if Plan.committed plan
    then (db, HTTPException 400 "Plan already committed")
    else
      let plan_rakes :=
        List.filter (λ pr, bool_decide (PlanRake.plan_id pr = plan_id))
                    (DB.plan_rakes db) in
      (DB.mk (DB.planning_jobs db)
             (commit_orders plan_rakes (DB.orders db))
             (DB.stockyards db)
             (commit_rakes plan_rakes (DB.rakes db))
             (DB.update_first (plan_is plan_id) (set_committed now) (DB.plans db))
             (DB.plan_rakes db),
       Return (plan_id, now))
  end.

(** [get_job_status] *)
Definition get_job_status (job_id : string) (db : DB.t)
  : response JobStatus.t :=
  match DB.get_job job_id db with
  | None => HTTPException 404 "Job not found"
  | Some job =>
    let plan :=
      if bool_decide (PlanningJob.status job = "completed") then
        List.find (λ p, bool_decide (Plan.job_id p = job_id)) (DB.plans db)
      else None in
    Return (JobStatus.mk (PlanningJob.id job) (PlanningJob.scenario_name job)
              (PlanningJob.status job) (PlanningJob.progress job)
              (PlanningJob.logs job) (PlanningJob.started_at job)
              (PlanningJob.completed_at job) (Plan.id <$> plan))
  end.

(** [get_plan], lines 236-254: the entry for one rake row. *)
Definition rake_data (db : DB.t) (pr : PlanRake.t) : RakeData.t :=
  let origin :=
    if truthy_str (PlanRake.origin_stockyard_id pr) then
      List.find
        (λ sy, bool_decide (Some (Stockyard.id sy)
                            = PlanRake.origin_stockyard_id pr))
        (DB.stockyards db)
    else None in
  RakeData.mk (PlanRake.id pr) (PlanRake.rake_number pr)
    (PlanRake.origin_stockyard_id pr) (PlanRake.destinations pr)
    (PlanRake.orders_assigned pr) (PlanRake.total_weight pr)
    (PlanRake.utilization_pct pr) (PlanRake.freight_cost pr)
    (Stockyard.name <$> origin) (Stockyard.code <$> origin).

(** [get_plan]; [plan_data] always has the key ['algorithm'], both
    planners set it. *)
Definition get_plan (plan_id : string) (db : DB.t) : response PlanDetails.t :=
  match List.find (plan_is plan_id) (DB.plans db) with
  | None => HTTPException 404 "Plan not found"
  | Some plan =>
    let plan_rakes :=
      List.filter (λ pr, bool_decide (PlanRake.plan_id pr = plan_id))
                  (DB.plan_rakes db) in
    Return (PlanDetails.mk (Plan.id plan) (Plan.job_id plan) (Plan.name plan)
              (Plan.total_cost plan) (Plan.freight_cost plan)
              (Plan.demurrage_cost plan) (Plan.idle_cost plan)
              (Plan.utilization_pct plan) (Plan.orders_fulfilled plan)
              (Plan.total_orders plan) (Plan.committed plan)
              (Plan.committed_at plan)
              (rake_data db <$> plan_rakes)
              (PlanResult.algorithm (Plan.plan_data plan)))
  end.

(** *** [execute_planning_job]

    The background task commits seven times; between two commits it is at
    one of the positions below, holding the values its local variables
    have there. *)
Inductive runner : Type :=
| NotStarted
| Started
| Loaded (orders : list Order.t) (stockyards : list Stockyard.t)
         (rakes : list Rake.t)
| Prepared (orders_data : list Order.t) (stockyards_data : list Stockyard.t)
           (rakes_data : list Rake.t)
| Planned (plan_result : PlanResult.t)
| PlanStored (plan_result : PlanResult.t) (plan_id : string)
| RakesStored (plan_id : string)
| Returned.

(** The [except Exception as e] handler, lines 143-149. *)
Definition on_exception (now : Z) (job_id : string) (e : exn) (db : DB.t)
  : DB.t :=
  DB.update_job job_id
    (λ j, set_job "failed" (PlanningJob.progress j)
            (PlanningJob.started_at j) (Some now)
            (now, "ERROR: " +:+ Py.str e) j)
    db.

(** Lines 116-133: the rows for the rake plans; [ids k] is the key of the
    [k]-th row. *)
Definition plan_rake_row (db : DB.t) (plan_id : string) (row_id : string)
    (rake_plan : RakePlan.t) : PlanRake.t :=
  let origin_sy :=
    if truthy_str (RakePlan.origin_stockyard_code rake_plan) then
      List.find
        (λ sy, bool_decide (Some (Stockyard.code sy)
                            = RakePlan.origin_stockyard_code rake_plan))
        (DB.stockyards db)
    else None in
  PlanRake.mk row_id plan_id (RakePlan.rake_number rake_plan)
    (Stockyard.id <$> origin_sy)
    (RakePlan.destinations rake_plan)
    (RakePlan.orders rake_plan)
    (RakePlan.total_weight rake_plan)
    (RakePlan.utilization_pct rake_plan)
    (RakePlan.freight_cost rake_plan).

Section WithLibraries.
Context `{M : math.lib} `{CP : cp_model.CpSolver}.

(** From one commit of [execute_planning_job] to the next.  [ids] gives
    the keys of the rows created: [ids 0] for the plan, [ids (S k)] for
    its [k]-th rake. *)
Definition advance (now : Z) (ids : nat → string) (job_id : string)
    (config : Config.t) (db : DB.t) (pc : runner) : DB.t * runner :=
  match pc with
  | NotStarted =>
    match DB.get_job job_id db with
    | None => (db, Returned)
    | Some _ =>
      (DB.update_job job_id
         (λ j, set_job "running" (PlanningJob.progress j) (Some now)
                 (PlanningJob.completed_at j)
                 (now, "Starting planning job") j)
         db,
       Started)
    end
  | Started =>
    let orders :=
      List.filter (λ o, bool_decide (Order.status o = "pending")) (DB.orders db) in
    let stockyards := DB.stockyards db in
    let rakes :=
      List.filter (λ r, bool_decide (Rake.status r = "available")) (DB.rakes db) in
    (DB.update_job job_id
       (λ j, set_job (PlanningJob.status j) 20 (PlanningJob.started_at j)
               (PlanningJob.completed_at j)
               (now, "Loaded " +:+ pretty (length orders) +:+ " orders, "
                     +:+ pretty (length stockyards) +:+ " stockyards, "
                     +:+ pretty (length rakes) +:+ " rakes") j)
       db,
     Loaded orders stockyards rakes)
  | Loaded orders stockyards rakes =>
    (DB.update_job job_id
       (λ j, set_job (PlanningJob.status j) 40 (PlanningJob.started_at j)
               (PlanningJob.completed_at j)
               (now, "Running " +:+ default "greedy" (Config.mode config)
                     +:+ " planner") j)
       db,
     Prepared orders stockyards rakes)
  | Prepared orders_data stockyards_data rakes_data =>
    match run_planner (default "greedy" (Config.mode config)) config
                      orders_data stockyards_data rakes_data with
    | Raise e => (on_exception now job_id e db, Returned)
    | Ok plan_result =>
      (DB.update_job job_id
         (λ j, set_job (PlanningJob.status j) 80 (PlanningJob.started_at j)
                 (PlanningJob.completed_at j)
                 (now, "Planning completed. Generated "
                       +:+ pretty (length (PlanResult.rakes plan_result))
                       +:+ " rake assignments") j)
         db,
       Planned plan_result)
    end
  | Planned plan_result =>
    let name :=
      from_option PlanningJob.scenario_name "" (DB.get_job job_id db) in
    (DB.add_plan
       (Plan.mk (ids 0%nat) job_id name plan_result
          (PlanResult.total_cost plan_result)
          (PlanResult.freight_cost plan_result)
          (PlanResult.demurrage_cost plan_result)
          (PlanResult.idle_cost plan_result)
          (PlanResult.utilization_pct plan_result)
          (PlanResult.orders_fulfilled plan_result)
          (PlanResult.total_orders plan_result)
          false None)
       db,
     PlanStored plan_result (ids 0%nat))
  | PlanStored plan_result plan_id =>
    (DB.add_plan_rakes
       (imap (λ k rake_plan, plan_rake_row db plan_id (ids (S k)) rake_plan)
             (PlanResult.rakes plan_result))
       db,
     RakesStored plan_id)
  | RakesStored plan_id =>
    (DB.update_job job_id
       (λ j, set_job "completed" 100 (PlanningJob.started_at j) (Some now)
               (now, "Job completed successfully. Plan ID: " +:+ plan_id) j)
       db,
     Returned)
  | Returned => (db, Returned)
  end.

(** [execute_planning_job], when nothing but the planner raises: the
    seven transactions in a row. *)
Definition execute_planning_job (now : Z) (ids : nat → string)
    (job_id : string) (config : Config.t) (db : DB.t) : DB.t :=
  (Nat.iter 7 (λ s, advance now ids job_id config s.1 s.2) (db, NotStarted)).1.



End WithLibraries.
End planning.

(** ** Vocabulary of the statements *)

Section Vocabulary.
Local Open Scope Q_scope.





(** Tonnes of product [p] in a list of assigned-order records. *)
Definition reserved (records : list RakeOrder.t) (p : string) : Q :=
  Py.sum (RakeOrder.quantity
            <$> List.filter (λ ro, bool_decide (RakeOrder.product_code ro = p))
                            records).

(** Tonnes of product [p] a pack takes from the stockyard with code [c]:
    all its orders load at its origin. *)
Definition pack_reserved (pack : option RakePlan.t) (c p : string) : Q :=
  match pack with
  | Some rp =>
    if bool_decide (RakePlan.origin_stockyard_code rp = Some c)
    then reserved (RakePlan.orders rp) p
    else 0
  | None => 0
  end.

(** What holds of the local variables of [_pack_rake] all along its loop,
    [inventory0] being the ledger it was called with: the weight is the sum
    of the packed quantities and within the capacity, orders are packed
    only once an origin is adopted, and every entry of the ledger is what
    it was less the tonnage packed from it. *)
Definition pack_invariant (cap : Q) (inventory0 : ledger)
    (st : GreedyPlanner.pack_state) : Prop :=
  GreedyPlanner.current_weight st
  = Py.sum (RakeOrder.quantity <$> GreedyPlanner.rake_orders st)
  ∧ (GreedyPlanner.rake_orders st ≠ [] → GreedyPlanner.current_weight st <= cap)
  ∧ (GreedyPlanner.origin_stockyard st = None → GreedyPlanner.rake_orders st = [])
  ∧ ∀ c p,
      option_Forall2
        (λ after before,
           after == before
                    - (if bool_decide (Stockyard.code <$> GreedyPlanner.origin_stockyard st
                                       = Some c)
                       then reserved (GreedyPlanner.rake_orders st) p
                       else 0))
        (stock (GreedyPlanner.inventory st) c p)
        (stock inventory0 c p).

(** Every entry of the ledger [inventory'] exists in [inventory] and is at
    most what it is there, and conversely no entry is lost. *)
Definition ledger_le (inventory' inventory : ledger) : Prop :=
  ∀ c p, option_Forall2 Qle (stock inventory' c p) (stock inventory c p).

(** Every entry of [inventory'] is the entry of [inventory] less the
    tonnage the pack takes from it. *)
Definition ledger_less_pack (inventory' inventory : ledger)
    (pack : option RakePlan.t) : Prop :=
  ∀ c p,
    option_Forall2 (λ after before, after == before - pack_reserved pack c p)
      (stock inventory' c p) (stock inventory c p).

(** The three invariants of a rake of a plan: the weight is the sum of the
    assigned quantities, at most the capacity of the rake it names, and at
    least the minimum rake size. *)
Definition rake_invariants (min_rake_size : Q) (rakes : list Rake.t)
    (rp : RakePlan.t) : Prop :=
  RakePlan.total_weight rp = Py.sum (RakeOrder.quantity <$> RakePlan.orders rp)
  ∧ (∃ rake, rake ∈ rakes
             ∧ Rake.rake_number rake = RakePlan.rake_number rp
             ∧ RakePlan.total_weight rp <= Rake.total_capacity_tonnes rake)
  ∧ min_rake_size <= RakePlan.total_weight rp.

(** The order ids in the [orders] lists of the rakes of a plan, and how
    many different ones there are. *)
Definition assigned_ids (plan_rakes : list RakePlan.t) : list string :=
  concat ((λ rp, RakeOrder.order_id <$> RakePlan.orders rp) <$> plan_rakes).

Definition distinct_assigned (plan_rakes : list RakePlan.t) : nat :=
  size (list_to_set (assigned_ids plan_rakes) : gset string).

(** No entry of the ledger is negative. *)
Definition ledger_nonneg (inventory : ledger) : Prop :=
  ∀ c p a, stock inventory c p = Some a → 0 <= a.




End Vocabulary.

(** ** Vocabulary of the statements about plans *)

Section PlanVocabulary.
Local Open Scope Q_scope.

(** [ro] is the record of order [o] in the ['orders'] list of a rake
    plan. *)
Definition record_of (o : Order.t) (ro : RakeOrder.t) : Prop :=
  RakeOrder.order_id ro = Order.id o
  ∧ RakeOrder.order_number ro = Order.order_number o
  ∧ RakeOrder.product_code ro = Order.product_code o
  ∧ RakeOrder.quantity ro = Order.quantity_tonnes o
  ∧ RakeOrder.destination ro = Order.destination o.

(** What [_pack_rake] puts in a rake plan, [orders] being the orders it
    was offered: the records are those of a non-empty sub-list of the
    orders, in their order; the destinations are those of the records;
    the freight cost is the sum of the records' freight costs; the idle
    cost is [idle_rate] for two hours per order; demurrage of one day is
    charged under 75 percent utilization; the weight is the sum of the
    quantities and within the capacity, which is not zero; and the
    utilization is their ratio, in percent. *)
Definition pack_facts (self : GreedyPlanner.t) (orders : list Order.t)
    (rp : RakePlan.t) : Prop :=
  (∃ picked, picked ≠ []
             ∧ picked `sublist_of` orders
             ∧ Forall2 record_of picked (RakePlan.orders rp)
             ∧ RakePlan.destinations rp
               = elements (list_to_set (Order.destination <$> picked) : gset string))
  ∧ (GreedyPlanner.allow_multi_dest self = false →
     ∃ d, RakePlan.destinations rp = [d]
          ∧ Forall (λ ro, RakeOrder.destination ro = d) (RakePlan.orders rp))
  ∧ RakePlan.freight_cost rp
    = Py.sum (RakeOrder.freight_cost <$> RakePlan.orders rp)
  ∧ RakePlan.idle_cost rp
    = GreedyPlanner.idle_rate self
      * (inject_Z (Z.of_nat (length (RakePlan.orders rp))) * 2)
  ∧ RakePlan.demurrage_cost rp
    = (if Qlt_bool (RakePlan.utilization_pct rp) 75
       then GreedyPlanner.demurrage_rate self * 24 else 0)
  ∧ RakePlan.order_ids rp = RakeOrder.order_id <$> RakePlan.orders rp
  ∧ RakePlan.total_weight rp = Py.sum (RakeOrder.quantity <$> RakePlan.orders rp)
  ∧ RakePlan.total_weight rp <= RakePlan.capacity rp
  ∧ ¬ RakePlan.capacity rp == 0
  ∧ RakePlan.utilization_pct rp
    = RakePlan.total_weight rp / RakePlan.capacity rp * 100.

(** What every planner guarantees of a rake of its plan, [orders] being
    the orders it was given: the rake carries at least one order, its
    weight is the sum of the quantities of its records and at least the
    minimum rake size, its ids are those of its records, and every
    record is the record of one of the orders. *)
Definition rake_wellformed (min_rake_size : Q) (orders : list Order.t)
    (rp : RakePlan.t) : Prop :=
  RakePlan.orders rp ≠ []
  ∧ RakePlan.total_weight rp = Py.sum (RakeOrder.quantity <$> RakePlan.orders rp)
  ∧ min_rake_size <= RakePlan.total_weight rp
  ∧ RakePlan.order_ids rp = RakeOrder.order_id <$> RakePlan.orders rp
  ∧ Forall (λ ro, ∃ o, o ∈ orders ∧ record_of o ro) (RakePlan.orders rp).

(** What every planner guarantees of its plan: the rakes are well formed,
    they name available rakes, each at most once and in the order of the
    input, [total_orders] is the number of orders given and
    [orders_fulfilled] is at most that. *)
Definition plan_wellformed (min_rake_size : Q) (orders : list Order.t)
    (rakes : list Rake.t) (r : PlanResult.t) : Prop :=
  Forall (rake_wellformed min_rake_size orders) (PlanResult.rakes r)
  ∧ (RakePlan.rake_number <$> PlanResult.rakes r)
    `sublist_of` (Rake.rake_number <$> GreedyPlanner.available rakes)
  ∧ PlanResult.total_orders r = length orders
  ∧ (PlanResult.orders_fulfilled r <= PlanResult.total_orders r)%nat.

(** A whole number of tonnes. *)
Definition whole (q : Q) : Prop := q == inject_Z (Py.int q).

(** What holds of the local variables of [plan] all along its loop over
    the rakes, [orders] being the sorted orders: every pack kept is as
    [_pack_rake] made it, the set of assigned ids is the set of ids in the
    packs kept, no id is in two records when the orders have distinct
    ids, and the three totals are the sums over the packs kept. *)
Definition plan_facts (self : GreedyPlanner.t) (orders : list Order.t)
    (st : GreedyPlanner.plan_state) : Prop :=
  Forall (pack_facts self orders) (GreedyPlanner.plan_rakes st)
  ∧ GreedyPlanner.assigned_orders st
    = list_to_set (assigned_ids (GreedyPlanner.plan_rakes st))
  ∧ (NoDup (Order.id <$> orders) →
     NoDup (assigned_ids (GreedyPlanner.plan_rakes st)))
  ∧ GreedyPlanner.total_freight st
    = Py.sum (RakePlan.freight_cost <$> GreedyPlanner.plan_rakes st)
  ∧ GreedyPlanner.total_demurrage st
    = Py.sum (RakePlan.demurrage_cost <$> GreedyPlanner.plan_rakes st)
  ∧ GreedyPlanner.total_idle st
    = Py.sum (RakePlan.idle_cost <$> GreedyPlanner.plan_rakes st).

End PlanVocabulary.

(** ** Vocabulary of the statements about the task of a job *)

Section RunnerVocabulary.
Context `{M : math.lib} `{CP : cp_model.CpSolver}.

(** The planner call of the task of a job: the configured mode, on the
    pending orders, all stockyards and the available rakes of the tables. *)
Definition planner_call (config : Config.t) (db : DB.t) : result PlanResult.t :=
  run_planner (default "greedy" (Config.mode config)) config
    (List.filter (λ o, bool_decide (Order.status o = "pending")) (DB.orders db))
    (DB.stockyards db)
    (List.filter (λ r, bool_decide (Rake.status r = "available")) (DB.rakes db)).

(** The plan row the task stores for a plan result. *)
Definition plan_row (plan_id job_id name : string) (plan_result : PlanResult.t)
  : Plan.t :=
  Plan.mk plan_id job_id name plan_result
    (PlanResult.total_cost plan_result)
    (PlanResult.freight_cost plan_result)
    (PlanResult.demurrage_cost plan_result)
    (PlanResult.idle_cost plan_result)
    (PlanResult.utilization_pct plan_result)
    (PlanResult.orders_fulfilled plan_result)
    (PlanResult.total_orders plan_result)
    false None.

End RunnerVocabulary.

(** ** Sample data and implementations of the two interfaces

    The fixture of [tests/test_planner.py], a rational stand-in for [math]
    (truncated series, and Newton's iteration for the square root), and
    three solvers: one that proposes a fixed assignment and reports the
    given status when it satisfies the model, one that assigns nothing, and
    one whose [Solve] raises. *)

Module Examples.
Local Open Scope Q_scope.

Definition series_math : math.lib := {|
  math.radians x := Qred (x * (355 # 113) / 180);
  math.sin x := Qred (x - x ^ 3 / 6);
  math.cos x := Qred (1 - x ^ 2 / 2);
  math.asin x := Qred (x + x ^ 3 / 6);
  math.sqrt x :=
    if Qeq_bool x 0 then 0
    else Nat.iter 4 (λ y, Qred ((y + x / y) / 2)) 1
|}.

Definition proposing_solver (st : cp_model.status) (v : cp_model.assignment)
  : cp_model.CpSolver := {|
  cp_model.Solve m :=
    if cp_model.satisfies m v then Ok (st, v)
    else Ok (cp_model.INFEASIBLE, v)
|}.

Definition idle_solver : cp_model.CpSolver :=
  proposing_solver cp_model.OPTIMAL (λ _ _, false).


Definition sy1 : Stockyard.t :=
  Stockyard.mk "1" "SY001" "Test Stockyard 1" "Location 1" (Some 23) (Some 85)
    50000 (<["COAL" := 30000]> (<["IRON_ORE" := 20000]> ∅)).

Definition sy2 : Stockyard.t :=
  Stockyard.mk "2" "SY002" "Test Stockyard 2" "Location 2" (Some 22) (Some 84)
    40000 (<["COAL" := 25000]> ∅).

Definition o1 : Order.t :=
  Order.mk "o1" "ORD001" "COAL" 2500 None "Dest 1" (Some 19) (Some 72)
    (Some 1%Z) (Some 5%Z) 72 "pending".

Definition o2 : Order.t :=
  Order.mk "o2" "ORD002" "COAL" 2000 None "Dest 1" (Some 19) (Some 72)
    (Some 2%Z) (Some 6%Z) 96 "pending".

Definition o3 : Order.t :=
  Order.mk "o3" "ORD003" "IRON_ORE" 3000 None "Dest 2" (Some 17) (Some 83)
    (Some 1%Z) (Some 4%Z) 72 "pending".

Definition r1 : Rake.t :=
  Rake.mk "r1" "RK001" "BOXN" 58 3480 "available" (Some "Yard 1").

Definition r2 : Rake.t :=
  Rake.mk "r2" "RK002" "BOXN" 58 3480 "available" (Some "Yard 2").

(** A stockyard on the equator, and orders for a destination there: one
    with no pinned source, one pinned to the second stockyard of the
    fixture. *)
Definition sy_equator : Stockyard.t :=
  Stockyard.mk "3" "SY003" "Equator Stockyard" "Nanyuki" (Some 0) (Some 36)
    40000 (<["COAL" := 5000]> ∅).

Definition o_equator : Order.t :=
  Order.mk "o4" "ORD004" "COAL" 2500 None "Nanyuki" (Some 0) (Some 36)
    (Some 1%Z) (Some 5%Z) 72 "pending".


(** What the greedy planner returns on the fixture, with default
    configuration. *)
Definition greedy_on_fixture : PlanResult.t :=
  Eval vm_compute in
    match @GreedyPlanner.plan series_math (GreedyPlanner.init Config.empty)
            [o1; o2; o3] [sy1; sy2] [r1; r2] with
    | Ok r => r
    | Raise _ => PlanResult.mk [] 0 0 0 0 0 0 0 ""
    end.

(** A run in which a discarded pack starves the next rake.  The minimum
    rake size is 3000; the stockyard holds 5000 t of coal; the orders are
    for 2500 t and 2000 t.  The short rake, tried first, takes the first
    order only: 2500 t, below the minimum. *)
Definition cfg_min3000 : Config.t :=
  Config.mk None None (Some 3000) None None None None None None.

Definition sy_small : Stockyard.t :=
  Stockyard.mk "4" "SY004" "Small Stockyard" "Location 4" None None
    10000 (<["COAL" := 5000]> ∅).

Definition oa : Order.t :=
  Order.mk "oa" "ORD00A" "COAL" 2500 None "Dest 1" None None
    (Some 1%Z) (Some 5%Z) 72 "pending".

Definition ob : Order.t :=
  Order.mk "ob" "ORD00B" "COAL" 2000 None "Dest 1" None None
    (Some 2%Z) (Some 6%Z) 96 "pending".

Definition rk_short : Rake.t :=
  Rake.mk "r3" "RK003" "BOXN" 43 2600 "available" None.

Definition rk_long : Rake.t :=
  Rake.mk "r4" "RK004" "BOXN" 83 5000 "available" None.

Definition before_short : GreedyPlanner.plan_state :=
  GreedyPlanner.mk_plan [] ∅ 0 0 0 (GreedyPlanner.initial_inventory [sy_small]).

(** What [_pack_rake] returns for the short rake, and the state at the end
    of the loop over both rakes. *)
Definition short_pack : option RakePlan.t * ledger :=
  Eval vm_compute in
    match @GreedyPlanner._pack_rake series_math (GreedyPlanner.init cfg_min3000)
            rk_short [oa; ob] ∅ [sy_small]
            (GreedyPlanner.initial_inventory [sy_small]) with
    | Ok r => r
    | Raise _ => (None, ∅)
    end.

Definition after_both : GreedyPlanner.plan_state :=
  Eval vm_compute in
    match @GreedyPlanner.plan_loop series_math (GreedyPlanner.init cfg_min3000)
            [oa; ob] [sy_small] [rk_short; rk_long] before_short with
    | Ok st => st
    | Raise _ => before_short
    end.

(** Orders for the CP-SAT packer: one of 500 t, one of one kilogram, and
    two of 1740.5 t; and the assignments that put the first order, or the
    first two orders, on the first rake. *)
Definition o_half : Order.t :=
  Order.mk "oh" "ORD00H" "COAL" 500 None "Dest 1" (Some 19) (Some 72)
    (Some 1%Z) (Some 5%Z) 72 "pending".

Definition o_kilo : Order.t :=
  Order.mk "ok" "ORD00K" "COAL" 0.001 None "Dest 1" (Some 19) (Some 72)
    (Some 1%Z) (Some 5%Z) 72 "pending".



Definition first_on_first : cp_model.assignment :=
  λ i j, (i =? 0)%nat && (j =? 0)%nat.


(** A database with the two orders, the stockyard and the long rake of the
    starvation example, and jobs created on it by [generate_plan]. *)
Definition db_fixture : DB.t := DB.mk [] [oa; ob] [sy_small] [rk_long] [] [].

Definition cfg_mode (mode : string) : Config.t :=
  Config.mk (Some mode) None None None None None None None None.

Definition db_queued (config : Config.t) : DB.t :=
  (planning.generate_plan "job-1" "Scenario 1" config None db_fixture).1.

Definition row_ids (k : nat) : string := "row-" +:+ pretty k.

(** The job as created, as the task leaves it when the configured mode is
    ['optimal'], and as a cancel request leaves it before the task
    starts. *)
Definition queued_job : PlanningJob.t :=
  PlanningJob.mk "job-1" "Scenario 1" None (cfg_mode "optimal") "queued" 0 []
    None None.

Definition failed_job : PlanningJob.t :=
  Eval vm_compute in
    default queued_job
      (DB.get_job "job-1"
         (@planning.execute_planning_job series_math idle_solver 7%Z row_ids
            "job-1" (cfg_mode "optimal") (db_queued (cfg_mode "optimal")))).

Definition cancelled_job : PlanningJob.t :=
  Eval vm_compute in
    default queued_job
      (DB.get_job "job-1"
         (planning.cancel_job 7%Z "job-1" (db_queued (cfg_mode "optimal"))).1).



(** The database after the task of a greedy job has run on [db_fixture]:
    one plan, ["row-0"], with one rake carrying both orders. *)
Definition db_planned : DB.t :=
  Eval vm_compute in
    @planning.execute_planning_job series_math idle_solver 7%Z row_ids
      "job-1" (cfg_mode "greedy") (db_queued (cfg_mode "greedy")).

(** A second job, generated on the database the first one left, the keys
    of the rows its task creates, and the plan the greedy planner returns
    on the tables of [db_fixture]. *)
Definition db_second : DB.t :=
  Eval vm_compute in
    (planning.generate_plan "job-2" "Scenario 2" (cfg_mode "greedy") None
       db_planned).1.

Definition second_ids (k : nat) : string := "second-" +:+ pretty k.

Definition second_job : PlanningJob.t :=
  PlanningJob.mk "job-2" "Scenario 2" None (cfg_mode "greedy") "queued" 0 []
    None None.

Definition fixture_plan : PlanResult.t :=
  Eval vm_compute in
    match @planner_call series_math idle_solver (cfg_mode "greedy") db_second with
    | Ok r => r
    | Raise _ => PlanResult.mk [] 0 0 0 0 0 0 0 ""
    end.

(** The assignment that puts the first order of the test fixture on its
    first rake and the third on the second, and what the CP-SAT packer
    returns for it. *)
Definition one_each : cp_model.assignment :=
  λ i j, ((i =? 0)%nat && (j =? 0)%nat) || ((i =? 2)%nat && (j =? 1)%nat).

Definition cp_on_fixture : PlanResult.t :=
  Eval vm_compute in
    match @run_planner series_math (proposing_solver cp_model.FEASIBLE one_each)
            "or-tools" Config.empty [o1; o2; o3] [sy1; sy2] [r1; r2] with
    | Ok r => r
    | Raise _ => PlanResult.mk [] 0 0 0 0 0 0 0 ""
    end.

End Examples.

(** * Properties *)

(** ** The dispatcher *)

Section DispatcherProperties.
Context `{M : math.lib} `{CP : cp_model.CpSolver}.
Local Open Scope Q_scope.

Lemma Qlt_bool_true (x y : Q) : Qlt_bool x y = true ↔ x < y.
Proof.
  unfold Qlt_bool. rewrite negb_true_iff, <- not_true_iff_false, Qle_bool_iff.
  split; [apply Qnot_le_lt | apply Qlt_not_le].
Qed.

Lemma Qlt_bool_false (x y : Q) : Qlt_bool x y = false ↔ y <= x.
Proof.
  unfold Qlt_bool. rewrite negb_false_iff. apply Qle_bool_iff.
Qed.

(** C3, as the code has it: the CP-SAT packer runs under the mode name
    ['or-tools'], and every mode other than ['greedy'], ['or-tools'] and
    ['hybrid'] (so also ['optimal']) raises [ValueError]. *)
Theorem run_planner_mode_names (mode : string) (config : Config.t)
    (orders : list Order.t) (stockyards : list Stockyard.t)
    (rakes : list Rake.t) :
  run_planner "or-tools" config orders stockyards rakes
    = ORToolsPlanner.plan (ORToolsPlanner.init config) orders stockyards rakes
  ∧ (mode ∉ ["greedy"; "or-tools"; "hybrid"] →
     run_planner mode config orders stockyards rakes
       = Raise (ValueError ("Unknown planner mode: " +:+ mode))).
Proof.
  split; [reflexivity |].
  intros Hmode. unfold run_planner.
  repeat case_bool_decide; try reflexivity; subst; exfalso; apply Hmode;
    set_solver.
Qed.


End DispatcherProperties.

Lemma optimal_not_a_mode : "optimal" ∉ ["greedy"; "or-tools"; "hybrid"].
Proof.
  intros Hin. repeat (apply elem_of_cons in Hin as [Hin | Hin]; [discriminate |]).
  by apply elem_of_nil in Hin.
Qed.

(** C3, the claim as stated fails: mode ['optimal'] raises instead of
    running the CP-SAT packer, and mode ['or-tools'], which is outside
    greedy, optimal and hybrid, returns a plan. *)
Lemma run_planner_optimal_raises :
  let run mode :=
    @run_planner Examples.series_math Examples.idle_solver mode Config.empty
      [Examples.o1] [Examples.sy1] [Examples.r1] in
  (run "optimal" = Raise (ValueError "Unknown planner mode: optimal"))
  ∧ (run "optimal"
      ≠ @ORToolsPlanner.plan Examples.series_math Examples.idle_solver
          (ORToolsPlanner.init Config.empty)
          [Examples.o1] [Examples.sy1] [Examples.r1])
  ∧ ("or-tools" ∉ ["greedy"; "optimal"; "hybrid"])
  ∧ (∃ r, run "or-tools" = Ok r).
Proof.
  split; [reflexivity |]. split; [| split].
  - vm_compute. discriminate.
  - intros Hin.
    repeat (apply elem_of_cons in Hin as [Hin | Hin]; [discriminate |]).
    by apply elem_of_nil in Hin.
  - eexists. vm_compute. reflexivity.
Qed.

Lemma run_planner_mode_names_witness :
  ("optimal" ∉ ["greedy"; "or-tools"; "hybrid"])
  ∧ (@run_planner Examples.series_math Examples.idle_solver "optimal"
       Config.empty [Examples.o1] [Examples.sy1] [Examples.r1]
     = Raise (ValueError "Unknown planner mode: optimal")).
Proof.
  split; [exact optimal_not_a_mode |].
  exact (proj2 (@run_planner_mode_names Examples.series_math Examples.idle_solver
                  "optimal" Config.empty
                  [Examples.o1] [Examples.sy1] [Examples.r1])
               optimal_not_a_mode).
Defined.


(** ** Facts about [sorted] *)

Section SortFacts.
Context {A : Type} (lt : A → A → bool).
Local Open Scope Q_scope.

Lemma elem_of_insert_by (x y : A) (l : list A) :
  y ∈ insert_by lt x l ↔ y = x ∨ y ∈ l.
Proof.
  induction l as [| z l IH]; simpl.
  - rewrite list_elem_of_singleton, elem_of_nil. tauto.
  - destruct (lt z x); rewrite !elem_of_cons; [rewrite IH |]; tauto.
Qed.

Lemma elem_of_sorted (y : A) (l : list A) : y ∈ sorted lt l ↔ y ∈ l.
Proof.
  induction l as [| x l IH]; simpl; [done |].
  rewrite elem_of_insert_by, elem_of_cons, IH. tauto.
Qed.



End SortFacts.

(** ** The distance oracle and the source selector *)

Section SelectorProperties.
Context `{M : math.lib}.
Local Open Scope Q_scope.


Lemma truthy_true (x : option Q) :
  truthy x = true ↔ ∃ q, x = Some q ∧ ¬ q == 0.
Proof.
  destruct x as [q |]; simpl.
  - rewrite negb_true_iff, <- not_true_iff_false, Qeq_bool_iff.
    split; [intros Hq; by exists q | intros (q' & [= <-] & Hq); done].
  - split; [done | intros (q & [=] & _)].
Qed.


(** Four coordinates present and none of them zero: the haversine
    formula. *)
Lemma calculate_distance_haversine (lat_o lon_o lat_d lon_d : Q) :
  ¬ lat_o == 0 → ¬ lon_o == 0 → ¬ lat_d == 0 → ¬ lon_d == 0 →
  GreedyPlanner._calculate_distance
    (Some lat_o) (Some lon_o) (Some lat_d) (Some lon_d)
  = GreedyPlanner.haversine lat_o lon_o lat_d lon_d.
Proof.
  intros H1 H2 H3 H4. unfold GreedyPlanner._calculate_distance.
  assert (Ht : ∀ q, ¬ q == 0 → truthy (Some q) = true).
  { intros q Hq. apply truthy_true. by exists q. }
  by rewrite !Ht.
Qed.









End SelectorProperties.


(** C8, at a stockyard and a destination on the equator: both points have
both coordinates, the haversine formula gives 0 km for the two equal
points, and [_calculate_distance] returns the fallback 500, with every
implementation of [math]. *)
Theorem calculate_distance_on_equator :
(∀ M : math.lib,
   @GreedyPlanner._calculate_distance M
     (Some 0%Q) (Some 36%Q) (Some 0%Q) (Some 36%Q) = 500%Q
   ∧ @GreedyPlanner.distance_to M Examples.o_equator Examples.sy_equator
     = 500%Q)
∧ (@GreedyPlanner.haversine Examples.series_math 0 36 0 36 == 0)%Q
∧ ¬ (500 == 0)%Q.
Proof.
split; [| split].
- intros M. split; reflexivity.
- vm_compute. reflexivity.
- intros H. discriminate H.
Qed.





(** ** The greedy packer *)

Section LedgerFacts.
Local Open Scope Q_scope.

Lemma sum_snoc (l : list Q) (x : Q) : Py.sum (l ++ [x]) = Py.sum l + x.
Proof. unfold Py.sum. by rewrite fold_left_app. Qed.

Lemma fold_left_Qplus_shift (l : list Q) (a : Q) :
  fold_left Qplus l a == a + fold_left Qplus l 0.
Proof.
  revert a. induction l as [| x l IH]; intros a; simpl; [lra |].
  rewrite (IH (a + x)), (IH (0 + x)). lra.
Qed.

Lemma sum_cons (x : Q) (l : list Q) : Py.sum (x :: l) == x + Py.sum l.
Proof. unfold Py.sum. simpl. rewrite fold_left_Qplus_shift. lra. Qed.

Lemma sum_nonneg (l : list Q) : Forall (λ x, 0 <= x) l → 0 <= Py.sum l.
Proof.
  induction 1 as [| x l Hx _ IH]; [unfold Py.sum; simpl; lra |].
  rewrite sum_cons. lra.
Qed.

Lemma reserved_snoc (records : list RakeOrder.t) (ro : RakeOrder.t) (p : string) :
  reserved (records ++ [ro]) p
  == reserved records p
     + (if bool_decide (RakeOrder.product_code ro = p)
        then RakeOrder.quantity ro else 0).
Proof.
  unfold reserved. rewrite List.filter_app. simpl.
  destruct (bool_decide (RakeOrder.product_code ro = p)); simpl.
  - rewrite fmap_app. simpl. rewrite sum_snoc. lra.
  - rewrite app_nil_r. lra.
Qed.

Lemma reserved_nil (p : string) : reserved [] p == 0.
Proof. reflexivity. Qed.

(** Reading the ledger after [inventory[c][p] = v]. *)
Lemma stock_insert (inventory : ledger) (c p : string) (v : Q)
    (products : gmap string Q) (c' p' : string) :
  inventory !! c = Some products →
  stock (<[c := <[p := v]> products]> inventory) c' p'
  = if bool_decide (c = c' ∧ p = p') then Some v else stock inventory c' p'.
Proof.
  intros Hc. unfold stock.
  destruct (decide (c = c')) as [<- | Hne].
  - rewrite lookup_insert_eq, Hc.
    destruct (decide (p = p')) as [<- | Hnp].
    + rewrite lookup_insert_eq. by rewrite bool_decide_eq_true_2.
    + rewrite lookup_insert_ne by done.
      rewrite bool_decide_eq_false_2; [done | tauto].
  - rewrite lookup_insert_ne by done.
    rewrite bool_decide_eq_false_2; [done | tauto].
Qed.

#[global] Instance option_Forall2_Qle_trans : Transitive (option_Forall2 Qle).
Proof.
  intros x y z Hxy Hyz. destruct Hxy; inversion Hyz; subst; constructor.
  eapply Qle_trans; eassumption.
Qed.

Lemma option_Forall2_Qle_refl (x : option Q) : option_Forall2 Qle x x.
Proof. destruct x; constructor. apply Qle_refl. Qed.

End LedgerFacts.

Section PackProperties.
Context `{M : math.lib}.
Local Open Scope Q_scope.

(** What [reserve] does: nothing, or one reservation. *)
Lemma reserve_cases (self : GreedyPlanner.t) (st st' : GreedyPlanner.pack_state)
    (sy : Stockyard.t) (order : Order.t) :
  GreedyPlanner.reserve self st sy order = Ok st' →
  st' = st
  ∨ ∃ products available ro,
      GreedyPlanner.inventory st !! Stockyard.code sy = Some products
      ∧ products !! Order.product_code order = Some available
      ∧ Order.quantity_tonnes order <= available
      ∧ RakeOrder.quantity ro = Order.quantity_tonnes order
      ∧ RakeOrder.product_code ro = Order.product_code order
      ∧ RakeOrder.order_id ro = Order.id order
      ∧ GreedyPlanner.current_weight st'
        = GreedyPlanner.current_weight st + Order.quantity_tonnes order
      ∧ GreedyPlanner.rake_orders st' = GreedyPlanner.rake_orders st ++ [ro]
      ∧ GreedyPlanner.origin_stockyard st' = GreedyPlanner.origin_stockyard st
      ∧ GreedyPlanner.inventory st'
        = <[Stockyard.code sy :=
              <[Order.product_code order :=
                  available - Order.quantity_tonnes order]> products]>
            (GreedyPlanner.inventory st).
Proof.
  unfold GreedyPlanner.reserve.
  destruct (GreedyPlanner.inventory st !! Stockyard.code sy) as [products |]
    eqn:Hproducts; [| discriminate].
  destruct (products !! Order.product_code order) as [available |]
    eqn:Havailable; [| intros [= <-]; by left].
  destruct (Qle_bool (Order.quantity_tonnes order) available) eqn:Hle;
    [| intros [= <-]; by left].
  apply Qle_bool_iff in Hle. intros [= <-]. right.
  eexists products, available, (RakeOrder.mk _ _ _ _ _ _). simpl.
  split_and!; try reflexivity; done.
Qed.

(** What one turn of the loop of [_pack_rake] does: nothing, or adopt an
    origin, or reserve at the origin (adopted in this turn or before). *)
Lemma pack_order_cases (self : GreedyPlanner.t) (cap : Q) (assigned : gset string)
    (stockyards : list Stockyard.t) (st st' : GreedyPlanner.pack_state)
    (order : Order.t) :
  GreedyPlanner.pack_order self cap assigned stockyards st order = Ok st' →
  st' = st
  ∨ (∃ sy, GreedyPlanner.origin_stockyard st = None
           ∧ st' = GreedyPlanner.set_origin st sy)
  ∨ ∃ sy origin products available ro,
      (GreedyPlanner.origin_stockyard st = None
       ∨ GreedyPlanner.origin_stockyard st = Some origin)
      ∧ Stockyard.code sy = Stockyard.code origin
      ∧ (Order.id order ∉ assigned)
      ∧ GreedyPlanner.current_weight st + Order.quantity_tonnes order <= cap
      ∧ GreedyPlanner.inventory st !! Stockyard.code sy = Some products
      ∧ products !! Order.product_code order = Some available
      ∧ Order.quantity_tonnes order <= available
      ∧ RakeOrder.quantity ro = Order.quantity_tonnes order
      ∧ RakeOrder.product_code ro = Order.product_code order
      ∧ RakeOrder.order_id ro = Order.id order
      ∧ GreedyPlanner.current_weight st'
        = GreedyPlanner.current_weight st + Order.quantity_tonnes order
      ∧ GreedyPlanner.rake_orders st' = GreedyPlanner.rake_orders st ++ [ro]
      ∧ GreedyPlanner.origin_stockyard st' = Some origin
      ∧ GreedyPlanner.inventory st'
        = <[Stockyard.code sy :=
              <[Order.product_code order :=
                  available - Order.quantity_tonnes order]> products]>
            (GreedyPlanner.inventory st).
Proof.
  unfold GreedyPlanner.pack_order.
  case_bool_decide as Hassigned; [intros [= <-]; by left |].
  destruct (Qlt_bool cap _) eqn:Hcap; [intros [= <-]; by left |].
  apply Qlt_bool_false in Hcap.
  destruct (negb _ && negb _ && _); [intros [= <-]; by left |].
  destruct (GreedyPlanner._select_source_stockyard _ _ _) as [sy |];
    [| intros [= <-]; by left].
  destruct (GreedyPlanner.origin_stockyard st) as [origin |] eqn:Horigin.
  - case_bool_decide as Hcode; [intros [= <-]; by left |].
    intros Hres. apply reserve_cases in Hres as [-> | Hres]; [by left |].
    destruct Hres as (products & available & ro & ? & ? & ? & ? & ? & ? & ? & ? & Ho & ?).
    right. right. exists sy, origin, products, available, ro.
    rewrite Ho, Horigin. split_and!; try done. by right.
  - intros Hres. apply reserve_cases in Hres as [-> | Hres].
    + right. left. by exists sy.
    + destruct Hres as (products & available & ro & ? & ? & ? & ? & ? & ? & ? & ? & Ho & ?).
      right. right. exists sy, sy, products, available, ro.
      rewrite Ho. simpl in *. split_and!; try done. by left.
Qed.

Lemma entry_amount (a b : option Q) (x y : Q) :
  x == y →
  option_Forall2 (λ after before, after == before - x) a b →
  option_Forall2 (λ after before, after == before - y) a b.
Proof.
  intros Hxy H. destruct H as [after before H |]; constructor. lra.
Qed.

Lemma pack_init_invariant (cap : Q) (inventory0 : ledger) :
  pack_invariant cap inventory0 (GreedyPlanner.pack_init inventory0).
Proof.
  split_and!; simpl; try done.
  intros c p. destruct (stock inventory0 c p); constructor. lra.
Qed.

Lemma pack_order_invariant (self : GreedyPlanner.t) (cap : Q)
    (assigned : gset string) (stockyards : list Stockyard.t)
    (inventory0 : ledger) (st st' : GreedyPlanner.pack_state) (order : Order.t) :
  pack_invariant cap inventory0 st →
  GreedyPlanner.pack_order self cap assigned stockyards st order = Ok st' →
  pack_invariant cap inventory0 st'.
Proof.
  intros (Hsum & Hcap & Horigin & Hledger) Hturn.
  apply pack_order_cases in Hturn as [-> | [(sy & Hnone & ->) | Hturn]].
  - done.
  - specialize (Horigin Hnone). split_and!; simpl; try done.
    intros c p. specialize (Hledger c p). rewrite Hnone in Hledger.
    simpl in Hledger. rewrite Horigin.
    eapply entry_amount; [| exact Hledger].
    case_bool_decide; [symmetry; apply reserved_nil | reflexivity].
  - destruct Hturn as (sy & origin & products & available & ro & Hwas & Hcode
                       & _ & Hfits & Hproducts & Havailable & Hle & Hq & Hp & _
                       & Hw' & Hro' & Ho' & Hinv').
    split_and!.
    + rewrite Hw', Hro', fmap_app. simpl. by rewrite sum_snoc, Hsum, Hq.
    + intros _. by rewrite Hw'.
    + rewrite Ho'. discriminate.
    + intros c p. specialize (Hledger c p).
      rewrite Hinv', (stock_insert _ _ _ _ _ c p Hproducts), Ho', Hro'. simpl.
      assert (Hold : option_Forall2
                (λ after before,
                   after == before
                            - (if bool_decide (Stockyard.code origin = c)
                               then reserved (GreedyPlanner.rake_orders st) p
                               else 0))
                (stock (GreedyPlanner.inventory st) c p) (stock inventory0 c p)).
      { destruct Hwas as [Hnone | Hsome].
        - rewrite Hnone in Hledger. simpl in Hledger.
          rewrite (Horigin Hnone).
          eapply entry_amount; [| exact Hledger].
          case_bool_decide; [symmetry; apply reserved_nil | reflexivity].
        - rewrite Hsome in Hledger. simpl in Hledger.
          eapply entry_amount; [| exact Hledger].
          repeat case_bool_decide; try reflexivity; congruence. }
      clear Hledger.
      destruct (decide (Stockyard.code sy = c ∧ Order.product_code order = p))
        as [[<- <-] | Hentry].
      * rewrite (bool_decide_eq_true_2 (_ ∧ _)) by done.
        assert (Hstock : stock (GreedyPlanner.inventory st) (Stockyard.code sy)
                           (Order.product_code order) = Some available).
        { unfold stock. by rewrite Hproducts. }
        rewrite Hstock in Hold. inversion Hold as [? before Hbefore |]; subst.
        constructor.
        rewrite bool_decide_eq_true_2 by (by rewrite Hcode).
        rewrite bool_decide_eq_true_2 in Hbefore by (by rewrite Hcode).
        rewrite reserved_snoc, bool_decide_eq_true_2 by done.
        rewrite Hq. lra.
      * rewrite (bool_decide_eq_false_2 (_ ∧ _)) by done.
        eapply entry_amount; [| exact Hold].
        destruct (decide (Stockyard.code origin = c)) as [Hc | Hc].
        -- rewrite !bool_decide_eq_true_2 by congruence.
           rewrite reserved_snoc. rewrite bool_decide_eq_false_2; [lra |].
           intros Hp'. apply Hentry. split; congruence.
        -- rewrite !bool_decide_eq_false_2 by congruence. reflexivity.
Qed.

Lemma pack_orders_invariant (self : GreedyPlanner.t) (cap : Q)
    (assigned : gset string) (stockyards : list Stockyard.t)
    (inventory0 : ledger) (orders : list Order.t)
    (st st' : GreedyPlanner.pack_state) :
  pack_invariant cap inventory0 st →
  GreedyPlanner.pack_orders self cap assigned stockyards orders st = Ok st' →
  pack_invariant cap inventory0 st'.
Proof.
  revert st. induction orders as [| order rest IH]; intros st Hinv; simpl.
  - by intros [= <-].
  - destruct (GreedyPlanner.pack_order self cap assigned stockyards st order)
      as [st1 |] eqn:Hturn; simpl; [| discriminate].
    apply IH. by eapply pack_order_invariant.
Qed.

(** What [_pack_rake] returns: a pack within the capacity of the rake whose
    weight is the sum of its quantities, and a ledger in which every entry
    is what it was less the tonnage the pack takes from it. *)
Lemma pack_rake_spec (self : GreedyPlanner.t) (rake : Rake.t)
    (orders : list Order.t) (assigned : gset string)
    (stockyards : list Stockyard.t) (inventory0 inventory' : ledger)
    (pack : option RakePlan.t) :
  GreedyPlanner._pack_rake self rake orders assigned stockyards inventory0
  = Ok (pack, inventory') →
  (∀ rp, pack = Some rp →
     RakePlan.total_weight rp = Py.sum (RakeOrder.quantity <$> RakePlan.orders rp)
     ∧ RakePlan.total_weight rp <= Rake.total_capacity_tonnes rake
     ∧ RakePlan.rake_number rp = Rake.rake_number rake
     ∧ RakePlan.order_ids rp = RakeOrder.order_id <$> RakePlan.orders rp)
  ∧ ∀ c p,
      option_Forall2 (λ after before, after == before - pack_reserved pack c p)
        (stock inventory' c p) (stock inventory0 c p).
Proof.
  unfold GreedyPlanner._pack_rake.
  destruct (GreedyPlanner.pack_orders _ _ _ _ _ _) as [st |] eqn:Hloop; simpl;
    [| discriminate].
  apply (pack_orders_invariant _ _ _ _ inventory0) in Hloop
    as (Hsum & Hcap & Horigin & Hledger); [| apply pack_init_invariant].
  destruct (GreedyPlanner.rake_orders st) as [| ro ros] eqn:Hros.
  - intros [= <- <-]. split; [done |].
    intros c p. eapply entry_amount; [| exact (Hledger c p)].
    simpl. case_bool_decide; reflexivity.
  - destruct (Py.div _ _) as [ratio |]; simpl; [| discriminate].
    intros [= <- <-]. split.
    + intros rp [= <-]. simpl. split_and!; try done. by apply Hcap.
    + intros c p. simpl. exact (Hledger c p).
Qed.

Lemma pack_order_ledger_le (self : GreedyPlanner.t) (cap : Q)
    (assigned : gset string) (stockyards : list Stockyard.t)
    (st st' : GreedyPlanner.pack_state) (order : Order.t) (c p : string) :
  0 <= Order.quantity_tonnes order →
  GreedyPlanner.pack_order self cap assigned stockyards st order = Ok st' →
  option_Forall2 Qle (stock (GreedyPlanner.inventory st') c p)
                     (stock (GreedyPlanner.inventory st) c p).
Proof.
  intros Hq Hturn.
  apply pack_order_cases in Hturn as [-> | [(sy & Hnone & ->) | Hturn]];
    [apply option_Forall2_Qle_refl | apply option_Forall2_Qle_refl |].
  destruct Hturn as (sy & origin & products & available & ro & _ & _ & _ & _
                     & Hproducts & Havailable & _ & _ & _ & _ & _ & _ & _ & ->).
  rewrite (stock_insert _ _ _ _ _ c p Hproducts).
  case_bool_decide as Hentry; [| apply option_Forall2_Qle_refl].
  destruct Hentry as [<- <-]. unfold stock. rewrite Hproducts, Havailable.
  constructor. lra.
Qed.

Lemma pack_orders_ledger_le (self : GreedyPlanner.t) (cap : Q)
    (assigned : gset string) (stockyards : list Stockyard.t)
    (orders : list Order.t) (st st' : GreedyPlanner.pack_state) (c p : string) :
  (∀ o, o ∈ orders → 0 <= Order.quantity_tonnes o) →
  GreedyPlanner.pack_orders self cap assigned stockyards orders st = Ok st' →
  option_Forall2 Qle (stock (GreedyPlanner.inventory st') c p)
                     (stock (GreedyPlanner.inventory st) c p).
Proof.
  revert st. induction orders as [| order rest IH]; intros st Hq; simpl.
  - intros [= <-]. apply option_Forall2_Qle_refl.
  - destruct (GreedyPlanner.pack_order self cap assigned stockyards st order)
      as [st1 |] eqn:Hturn; simpl; [| discriminate].
    intros Hrest. etrans.
    + apply (IH st1); [| exact Hrest]. intros o Ho. apply Hq. by right.
    + eapply pack_order_ledger_le; [| exact Hturn]. apply Hq. by left.
Qed.

Lemma pack_rake_ledger_le (self : GreedyPlanner.t) (rake : Rake.t)
    (orders : list Order.t) (assigned : gset string)
    (stockyards : list Stockyard.t) (inventory0 inventory' : ledger)
    (pack : option RakePlan.t) (c p : string) :
  (∀ o, o ∈ orders → 0 <= Order.quantity_tonnes o) →
  GreedyPlanner._pack_rake self rake orders assigned stockyards inventory0
  = Ok (pack, inventory') →
  option_Forall2 Qle (stock inventory' c p) (stock inventory0 c p).
Proof.
  intros Hq. unfold GreedyPlanner._pack_rake.
  destruct (GreedyPlanner.pack_orders _ _ _ _ _ _) as [st |] eqn:Hloop; simpl;
    [| discriminate].
  apply (pack_orders_ledger_le _ _ _ _ _ _ _ c p Hq) in Hloop. simpl in Hloop.
  destruct (GreedyPlanner.rake_orders st); [by intros [= <- <-] |].
  destruct (Py.div _ _); simpl; [| discriminate]. by intros [= <- <-].
Qed.

Lemma fold_left_add_ids (ids : list string) (assigned : gset string) :
  fold_left (λ acc order_id, {[order_id]} ∪ acc) ids assigned
  = list_to_set ids ∪ assigned.
Proof.
  revert assigned. induction ids as [| x ids IH]; intros assigned; simpl.
  - set_solver.
  - rewrite IH. set_solver.
Qed.

Lemma assigned_ids_snoc (plan_rakes : list RakePlan.t) (rp : RakePlan.t) :
  assigned_ids (plan_rakes ++ [rp])
  = assigned_ids plan_rakes ++ (RakeOrder.order_id <$> RakePlan.orders rp).
Proof.
  unfold assigned_ids. rewrite fmap_app, concat_app. simpl.
  by rewrite app_nil_r.
Qed.

(** The loop of [plan] keeps: every rake kept satisfies the three
    invariants, and the set of assigned order ids is the set of ids in the
    rakes kept. *)
Lemma plan_loop_invariants (self : GreedyPlanner.t) (orders : list Order.t)
    (stockyards : list Stockyard.t) (rakes todo : list Rake.t)
    (st st' : GreedyPlanner.plan_state) :
  (∀ r, r ∈ todo → r ∈ rakes) →
  Forall (rake_invariants (GreedyPlanner.min_rake_size self) rakes)
         (GreedyPlanner.plan_rakes st) →
  GreedyPlanner.assigned_orders st
  = list_to_set (assigned_ids (GreedyPlanner.plan_rakes st)) →
  GreedyPlanner.plan_loop self orders stockyards todo st = Ok st' →
  Forall (rake_invariants (GreedyPlanner.min_rake_size self) rakes)
         (GreedyPlanner.plan_rakes st')
  ∧ GreedyPlanner.assigned_orders st'
    = list_to_set (assigned_ids (GreedyPlanner.plan_rakes st')).
Proof.
  revert st. induction todo as [| rake rest IH]; intros st Hin Hrakes Hassigned;
    simpl.
  - by intros [= <-].
  - destruct (_ <=? _)%nat; [by intros [= <-] |].
    destruct (GreedyPlanner._pack_rake _ _ _ _ _ _) as [[pack inventory'] |]
      eqn:Hpack; simpl; [| discriminate].
    apply pack_rake_spec in Hpack as [Hpack _].
    apply IH; [intros r Hr; apply Hin; by right | |].
    + unfold GreedyPlanner.record_pack.
      destruct pack as [rp |]; [| done].
      destruct (Qle_bool _ _) eqn:Hmin; [| done]. simpl.
      apply Qle_bool_iff in Hmin.
      destruct (Hpack rp eq_refl) as (Hsum & Hcap & Hnumber & _).
      apply Forall_app. split; [done |]. apply Forall_singleton.
      split_and!; [done | | done].
      exists rake. split_and!; [apply Hin; by left | done | done].
    + unfold GreedyPlanner.record_pack.
      destruct pack as [rp |]; [| done].
      destruct (Qle_bool _ _); [| done]. simpl.
      destruct (Hpack rp eq_refl) as (_ & _ & _ & Hids).
      rewrite fold_left_add_ids, assigned_ids_snoc, list_to_set_app_L, Hids,
        Hassigned.
      set_solver.
Qed.

Lemma ledger_le_refl (inventory : ledger) : ledger_le inventory inventory.
Proof. intros c p. apply option_Forall2_Qle_refl. Qed.

Lemma ledger_le_trans (i1 i2 i3 : ledger) :
  ledger_le i1 i2 → ledger_le i2 i3 → ledger_le i1 i3.
Proof. intros H12 H23 c p. etrans; [apply H12 | apply H23]. Qed.

Lemma record_pack_inventory (self : GreedyPlanner.t)
    (st : GreedyPlanner.plan_state) (pack : option RakePlan.t)
    (inventory' : ledger) :
  GreedyPlanner.stockyard_inventory (GreedyPlanner.record_pack self st pack inventory')
  = inventory'.
Proof.
  unfold GreedyPlanner.record_pack.
  destruct pack as [rp |]; [destruct (Qle_bool _ _) |]; reflexivity.
Qed.

(** Along the loop of [plan] no entry of the ledger grows. *)
Lemma plan_loop_ledger_le (self : GreedyPlanner.t) (orders : list Order.t)
    (stockyards : list Stockyard.t) (todo : list Rake.t)
    (st st' : GreedyPlanner.plan_state) :
  (∀ o, o ∈ orders → 0 <= Order.quantity_tonnes o) →
  GreedyPlanner.plan_loop self orders stockyards todo st = Ok st' →
  ledger_le (GreedyPlanner.stockyard_inventory st')
            (GreedyPlanner.stockyard_inventory st).
Proof.
  intros Hq. revert st. induction todo as [| rake rest IH]; intros st; simpl.
  - intros [= <-]. apply ledger_le_refl.
  - destruct (_ <=? _)%nat; [intros [= <-]; apply ledger_le_refl |].
    destruct (GreedyPlanner._pack_rake _ _ _ _ _ _) as [[pack inventory'] |]
      eqn:Hpack; simpl; [| discriminate].
    intros Hrest. apply IH in Hrest. rewrite record_pack_inventory in Hrest.
    eapply ledger_le_trans; [exact Hrest |].
    intros c p. by eapply pack_rake_ledger_le.
Qed.

(** The greedy planner, on every input: each rake of the plan satisfies the
    three invariants, and [orders_fulfilled] counts the different order ids
    in the rakes of the plan. *)
Lemma greedy_plan_invariants (self : GreedyPlanner.t) (orders : list Order.t)
    (stockyards : list Stockyard.t) (rakes : list Rake.t) (res : PlanResult.t) :
  GreedyPlanner.plan self orders stockyards rakes = Ok res →
  Forall (rake_invariants (GreedyPlanner.min_rake_size self) rakes)
         (PlanResult.rakes res)
  ∧ PlanResult.orders_fulfilled res = distinct_assigned (PlanResult.rakes res).
Proof.
  unfold GreedyPlanner.plan, GreedyPlanner.plan_run.
  destruct (GreedyPlanner.plan_loop _ _ _ _ _) as [st |] eqn:Hloop; simpl;
    [| discriminate].
  intros [= <-]. simpl.
  apply (plan_loop_invariants _ _ _ rakes) in Hloop as [Hrakes Hassigned].
  - split; [done |]. unfold distinct_assigned. by rewrite Hassigned.
  - intros r Hr. unfold GreedyPlanner.available in Hr.
    apply list_elem_of_In, filter_In in Hr as [Hr _]. by apply list_elem_of_In.
  - constructor.
  - reflexivity.
Qed.

(** C9: within a greedy run whose orders have non-negative tonnages, no
    entry of the ledger grows, from the snapshot to the end of the run; and
    for each rake tried, the ledger [_pack_rake] leaves is the one before
    less the tonnage of the pack, it is the ledger of the next turn whether
    the pack is kept or discarded for being under the minimum rake size,
    and nothing is given back to it by the end of the run. *)
Theorem ledger_never_released (self : GreedyPlanner.t) (orders : list Order.t)
    (stockyards : list Stockyard.t) :
  let sorted_orders := sorted GreedyPlanner.order_key_lt orders in
  (∀ o, o ∈ orders → 0 <= Order.quantity_tonnes o) →
  (∀ rakes final,
     GreedyPlanner.plan_run self orders stockyards rakes = Ok final →
     ledger_le (GreedyPlanner.stockyard_inventory final)
               (GreedyPlanner.initial_inventory stockyards))
  ∧ (∀ rake rest st pack inventory' final,
       (size (GreedyPlanner.assigned_orders st) < length sorted_orders)%nat →
       GreedyPlanner._pack_rake self rake sorted_orders
         (GreedyPlanner.assigned_orders st) stockyards
         (GreedyPlanner.stockyard_inventory st) = Ok (pack, inventory') →
       GreedyPlanner.plan_loop self sorted_orders stockyards (rake :: rest) st
       = Ok final →
       ledger_less_pack inventory' (GreedyPlanner.stockyard_inventory st) pack
       ∧ ledger_le inventory' (GreedyPlanner.stockyard_inventory st)
       ∧ GreedyPlanner.stockyard_inventory
           (GreedyPlanner.record_pack self st pack inventory') = inventory'
       ∧ (∀ rp, pack = Some rp →
                RakePlan.total_weight rp < GreedyPlanner.min_rake_size self →
                GreedyPlanner.plan_rakes
                  (GreedyPlanner.record_pack self st pack inventory')
                = GreedyPlanner.plan_rakes st)
       ∧ ledger_le (GreedyPlanner.stockyard_inventory final) inventory').
Proof.
  intros sorted_orders Hq.
  assert (Hsorted : ∀ o, o ∈ sorted_orders → 0 <= Order.quantity_tonnes o).
  { intros o Ho. apply Hq. by apply elem_of_sorted in Ho. }
  split.
  - intros rakes final Hrun. unfold GreedyPlanner.plan_run in Hrun.
    by apply plan_loop_ledger_le in Hrun.
  - intros rake rest st pack inventory' final Hmore Hpack Hloop.
    simpl in Hloop.
    rewrite (proj2 (Nat.leb_gt _ _) Hmore), Hpack in Hloop. simpl in Hloop.
    split_and!.
    + by apply pack_rake_spec in Hpack as [_ Hledger].
    + intros c p. by eapply pack_rake_ledger_le.
    + apply record_pack_inventory.
    + intros rp -> Hsmall. unfold GreedyPlanner.record_pack.
      destruct (Qle_bool _ _) eqn:Hmin; [| done].
      apply Qle_bool_iff in Hmin. lra.
    + apply plan_loop_ledger_le in Hloop; [| done].
      by rewrite record_pack_inventory in Hloop.
Qed.

End PackProperties.


Lemma starving_orders_nonneg :
  ∀ o, o ∈ [Examples.oa; Examples.ob] → (0 <= Order.quantity_tonnes o)%Q.
Proof.
  intros o Ho.
  repeat (apply elem_of_cons in Ho as [-> | Ho]; [by vm_compute |]).
  by apply elem_of_nil in Ho.
Qed.

(** The run of the example: the pack of the short rake is discarded, the
    2500 t it reserved stay reserved, and the long rake, which could have
    carried both orders, carries none. *)
Lemma ledger_never_released_witness :
  (∀ o, o ∈ [Examples.oa; Examples.ob] → (0 <= Order.quantity_tonnes o)%Q)
  ∧ (∃ rp, Examples.short_pack.1 = Some rp
           ∧ (RakePlan.total_weight rp < 3000)%Q
           ∧ GreedyPlanner.plan_rakes
               (GreedyPlanner.record_pack (GreedyPlanner.init Examples.cfg_min3000)
                  Examples.before_short Examples.short_pack.1
                  Examples.short_pack.2)
             = GreedyPlanner.plan_rakes Examples.before_short)
  ∧ stock (GreedyPlanner.initial_inventory [Examples.sy_small]) "SY004" "COAL"
    = Some 5000%Q
  ∧ stock Examples.short_pack.2 "SY004" "COAL" = Some 2500%Q
  ∧ ledger_le (GreedyPlanner.stockyard_inventory Examples.after_both)
              Examples.short_pack.2
  ∧ GreedyPlanner.plan_rakes Examples.after_both = [].
Proof.
  pose proof (proj2 (@ledger_never_released Examples.series_math
                       (GreedyPlanner.init Examples.cfg_min3000)
                       [Examples.oa; Examples.ob] [Examples.sy_small]
                       starving_orders_nonneg)
                Examples.rk_short [Examples.rk_long] Examples.before_short
                Examples.short_pack.1 Examples.short_pack.2 Examples.after_both)
    as H.
  assert (Hmore : (size (GreedyPlanner.assigned_orders Examples.before_short)
                   < length (sorted GreedyPlanner.order_key_lt
                               [Examples.oa; Examples.ob]))%nat)
    by (vm_compute; lia).
  specialize (H Hmore ltac:(vm_compute; reflexivity) ltac:(vm_compute; reflexivity)).
  destruct H as (_ & _ & _ & Hdiscard & Hfinal).
  split; [exact starving_orders_nonneg |]. split.
  - eexists. split; [reflexivity |]. split; [by vm_compute |].
    apply (Hdiscard _ eq_refl). by vm_compute.
  - split; [by vm_compute |]. split; [by vm_compute |].
    split; [exact Hfinal | reflexivity].
Defined.


(** ** The CP-SAT packer *)

(** C2, on the CP-SAT path.  One order of 500 t, one rake of 3480 t, default
    configuration; the solver returns the assignment of the order to the
    rake, which satisfies the model.  The pack is under the minimum rake
    size, so the plan has no rake, yet [orders_fulfilled] is 1.  The same
    happens with an order of one kilogram, for which that assignment is an
    optimal solution of the model. *)
Theorem cp_sat_counts_discarded_orders :
  cp_model.satisfies
    (ORToolsPlanner.build_model [Examples.o_half] [Examples.r1])
    Examples.first_on_first = true
  ∧ (∃ res,
       @ORToolsPlanner.plan Examples.series_math
         (Examples.proposing_solver cp_model.FEASIBLE Examples.first_on_first)
         (ORToolsPlanner.init Config.empty)
         [Examples.o_half] [Examples.sy1] [Examples.r1] = Ok res
       ∧ PlanResult.rakes res = []
       ∧ PlanResult.orders_fulfilled res = 1%nat
       ∧ distinct_assigned (PlanResult.rakes res) = 0%nat)
  ∧ cp_model.is_optimal
      (ORToolsPlanner.build_model [Examples.o_kilo] [Examples.r1])
      Examples.first_on_first
  ∧ (∃ res,
       @ORToolsPlanner.plan Examples.series_math
         (Examples.proposing_solver cp_model.OPTIMAL Examples.first_on_first)
         (ORToolsPlanner.init Config.empty)
         [Examples.o_kilo] [Examples.sy1] [Examples.r1] = Ok res
       ∧ PlanResult.rakes res = []
       ∧ PlanResult.orders_fulfilled res = 1%nat
       ∧ distinct_assigned (PlanResult.rakes res) = 0%nat).
Proof.
  split; [by vm_compute |]. split.
  - eexists. split; [by vm_compute |]. by vm_compute.
  - split.
    + split; [by vm_compute |].
      intros v' _. unfold cp_model.objective, cp_model.weighted. simpl.
      destruct (v' 0%nat 0%nat); by vm_compute.
    + eexists. split; [by vm_compute |]. by vm_compute.
Qed.



(** ** The job runner and the cancel handler *)

Section JobProperties.
Context `{M : math.lib} `{CP : cp_model.CpSolver}.
Local Open Scope Q_scope.

Lemma find_update_first {A : Type} (p : A → bool) (f : A → A) (rows : list A) :
  (∀ x, p (f x) = p x) →
  List.find p (DB.update_first p f rows) = f <$> List.find p rows.
Proof.
  intros Hp. induction rows as [| x rows IH]; simpl; [done |].
  destruct (p x) eqn:Hx; simpl.
  - by rewrite Hp, Hx.
  - by rewrite Hx.
Qed.

Lemma get_job_update_job (job_id : string) (f : PlanningJob.t → PlanningJob.t)
    (db : DB.t) :
  (∀ j, PlanningJob.id (f j) = PlanningJob.id j) →
  DB.get_job job_id (DB.update_job job_id f db) = f <$> DB.get_job job_id db.
Proof.
  intros Hid. unfold DB.get_job, DB.update_job. simpl.
  apply find_update_first. intros j. unfold DB.job_is. by rewrite Hid.
Qed.









End JobProperties.


(** C4, the claim as stated fails on the failure path and on the cancel
    path: the job whose configured mode is ['optimal'] ends failed with
    progress 40, and the job cancelled while queued ends cancelled with
    progress 0. *)
Lemma terminal_jobs_below_100 :
  DB.get_job "job-1"
    (@planning.execute_planning_job Examples.series_math Examples.idle_solver
       7%Z Examples.row_ids "job-1" (Examples.cfg_mode "optimal")
       (Examples.db_queued (Examples.cfg_mode "optimal")))
  = Some Examples.failed_job
  ∧ PlanningJob.status Examples.failed_job = "failed"
  ∧ (PlanningJob.progress Examples.failed_job == 40)%Q
  ∧ ¬ (PlanningJob.progress Examples.failed_job == 100)%Q
  ∧ planning.cancel_job 7%Z "job-1" (Examples.db_queued (Examples.cfg_mode "optimal"))
    = (DB.update_job "job-1" (λ _, Examples.cancelled_job)
         (Examples.db_queued (Examples.cfg_mode "optimal")),
       planning.Return "Job cancelled successfully")
  ∧ PlanningJob.status Examples.cancelled_job = "cancelled"
  ∧ (PlanningJob.progress Examples.cancelled_job == 0)%Q
  ∧ ¬ (PlanningJob.progress Examples.cancelled_job == 100)%Q.
Proof.
  split_and!; try by vm_compute.
Qed.



(** ** The commit handler *)

Section KeyedUpdates.
Context {A K : Type} `{EqDecision K} (key : A → K) (f : A → A).
Hypothesis key_kept : ∀ x, key (f x) = key x.

Lemma find_update_first_key (k1 k2 : K) (rows : list A) :
  List.find (λ x, bool_decide (key x = k2))
    (DB.update_first (λ x, bool_decide (key x = k1)) f rows)
  = if bool_decide (k1 = k2)
    then f <$> List.find (λ x, bool_decide (key x = k2)) rows
    else List.find (λ x, bool_decide (key x = k2)) rows.
Proof.
  induction rows as [| x rows IH]; simpl; [by case_bool_decide |].
  destruct (decide (key x = k1)) as [Hx1 | Hx1].
  - rewrite (bool_decide_eq_true_2 _ Hx1). simpl. rewrite key_kept.
    destruct (decide (k1 = k2)) as [<- | Hne].
    + rewrite !bool_decide_eq_true_2 by done. done.
    + rewrite (bool_decide_eq_false_2 (k1 = k2)) by done.
      rewrite !(bool_decide_eq_false_2 (key x = k2)) by congruence. done.
  - rewrite (bool_decide_eq_false_2 _ Hx1). simpl.
    destruct (decide (key x = k2)) as [Hx2 | Hx2].
    + rewrite !(bool_decide_eq_true_2 _ Hx2).
      rewrite (bool_decide_eq_false_2 (k1 = k2)) by congruence. done.
    + rewrite !(bool_decide_eq_false_2 _ Hx2). exact IH.
Qed.

Hypothesis f_idempotent : ∀ x, f (f x) = f x.

Lemma find_fold_update {B : Type} (g : B → K) (bs : list B) (k : K)
    (rows : list A) :
  List.find (λ x, bool_decide (key x = k))
    (fold_left (λ l b, DB.update_first (λ x, bool_decide (key x = g b)) f l)
               bs rows)
  = if bool_decide (k ∈ g <$> bs)
    then f <$> List.find (λ x, bool_decide (key x = k)) rows
    else List.find (λ x, bool_decide (key x = k)) rows.
Proof.
  revert rows. induction bs as [| b bs IH]; intros rows; cbn [fold_left fmap list_fmap].
  - rewrite bool_decide_eq_false_2; [done | apply not_elem_of_nil].
  - rewrite IH, find_update_first_key.
    destruct (decide (g b = k)) as [<- | Hne].
    + rewrite (bool_decide_eq_true_2 (g b = g b)) by done.
      rewrite (bool_decide_eq_true_2 (g b ∈ g b :: _)) by left.
      case_bool_decide; [| done].
      destruct (List.find _ rows); simpl; [by rewrite f_idempotent | done].
    + rewrite (bool_decide_eq_false_2 (g b = k)) by done.
      rewrite (bool_decide_ext (k ∈ g b :: (g <$> bs)) (k ∈ g <$> bs)); [done |].
      rewrite elem_of_cons. naive_solver.
Qed.

End KeyedUpdates.

Section CommitProperties.

Lemma commit_orders_flat (plan_rakes : list PlanRake.t) (orders : list Order.t) :
  planning.commit_orders plan_rakes orders
  = fold_left
      (λ os order_data, planning.assign_order (RakeOrder.order_id order_data) os)
      (concat (PlanRake.orders_assigned <$> plan_rakes)) orders.
Proof.
  unfold planning.commit_orders. revert orders.
  induction plan_rakes as [| pr prs IH]; intros orders; simpl; [done |].
  by rewrite fold_left_app, IH.
Qed.

(** What the first commit of a plan does, and what the second does not.
    When [commit_plan] returns, the plan row is committed with the time of
    the call; for every rake row of the plan, the rake the handler finds by
    its number is assigned; for every order record of these rows, the order
    the handler finds by its id is assigned; and a second call is refused
    with status 400 and leaves the tables as the first left them. *)
Theorem commit_plan_twice (t1 t2 : Z) (plan_id : string) (db db1 : DB.t)
    (body : string * Z) :
  planning.commit_plan t1 plan_id db = (db1, planning.Return body) →
  (∃ plan, List.find (planning.plan_is plan_id) (DB.plans db) = Some plan
           ∧ Plan.committed plan = false
           ∧ List.find (planning.plan_is plan_id) (DB.plans db1)
             = Some (planning.set_committed t1 plan))
  ∧ (∀ pr rake,
       pr ∈ DB.plan_rakes db → PlanRake.plan_id pr = plan_id →
       List.find (λ r, bool_decide (Rake.rake_number r = PlanRake.rake_number pr))
                 (DB.rakes db) = Some rake →
       ∃ rake',
         List.find (λ r, bool_decide (Rake.rake_number r = PlanRake.rake_number pr))
                   (DB.rakes db1) = Some rake'
         ∧ Rake.status rake' = "assigned" ∧ Rake.id rake' = Rake.id rake)
  ∧ (∀ pr order_data order,
       pr ∈ DB.plan_rakes db → PlanRake.plan_id pr = plan_id →
       order_data ∈ PlanRake.orders_assigned pr →
       List.find (λ o, bool_decide (Order.id o = RakeOrder.order_id order_data))
                 (DB.orders db) = Some order →
       ∃ order',
         List.find (λ o, bool_decide (Order.id o = RakeOrder.order_id order_data))
                   (DB.orders db1) = Some order'
         ∧ Order.status order' = "assigned"
         ∧ Order.quantity_tonnes order' = Order.quantity_tonnes order)
  ∧ planning.commit_plan t2 plan_id db1
    = (db1, planning.HTTPException 400 "Plan already committed").
Proof.
  unfold planning.commit_plan at 1.
  destruct (List.find (planning.plan_is plan_id) (DB.plans db)) as [plan |]
    eqn:Hplan; [| discriminate].
  destruct (Plan.committed plan) eqn:Hcommitted; [discriminate |].
  intros [= <- _].
  assert (Hfound : List.find (planning.plan_is plan_id)
                     (DB.update_first (planning.plan_is plan_id)
                        (planning.set_committed t1) (DB.plans db))
                   = Some (planning.set_committed t1 plan)).
  { rewrite find_update_first by done. by rewrite Hplan. }
  split_and!.
  - by exists plan.
  - intros pr rake Hpr Hid Hrake. simpl. unfold planning.commit_rakes.
    unfold planning.assign_rake.
    rewrite (find_fold_update Rake.rake_number
               (λ r, Rake.mk (Rake.id r) (Rake.rake_number r)
                       (Rake.wagon_type_code r) (Rake.num_wagons r)
                       (Rake.total_capacity_tonnes r) "assigned"
                       (Rake.current_location r))
               (λ _, eq_refl) (λ _, eq_refl) PlanRake.rake_number).
    rewrite bool_decide_eq_true_2.
    + rewrite Hrake. simpl. eexists. split; [reflexivity |]. by simpl.
    + apply list_elem_of_fmap. exists pr. split; [done |].
      apply list_elem_of_In, filter_In. split; [by apply list_elem_of_In |].
      by apply bool_decide_eq_true.
  - intros pr order_data order Hpr Hid Hod Horder. simpl.
    rewrite commit_orders_flat. unfold planning.assign_order.
    rewrite (find_fold_update Order.id
               (λ o, Order.mk (Order.id o) (Order.order_number o)
                       (Order.product_code o) (Order.quantity_tonnes o)
                       (Order.source_stockyard_id o) (Order.destination o)
                       (Order.destination_latitude o)
                       (Order.destination_longitude o) (Order.priority o)
                       (Order.due_date o) (Order.sla_hours o) "assigned")
               (λ _, eq_refl) (λ _, eq_refl) RakeOrder.order_id).
    rewrite bool_decide_eq_true_2.
    + rewrite Horder. simpl. eexists. split; [reflexivity |]. by simpl.
    + apply list_elem_of_fmap. exists order_data. split; [done |].
      apply list_elem_of_In, in_concat. exists (PlanRake.orders_assigned pr).
      split; [| by apply list_elem_of_In].
      apply list_elem_of_In, list_elem_of_fmap. exists pr. split; [done |].
      apply list_elem_of_In, filter_In. split; [by apply list_elem_of_In |].
      by apply bool_decide_eq_true.
  - unfold planning.commit_plan. simpl. by rewrite Hfound.
Qed.

End CommitProperties.

Lemma commit_plan_twice_witness :
  planning.commit_plan 9%Z "row-0" Examples.db_planned
  = ((planning.commit_plan 9%Z "row-0" Examples.db_planned).1,
     planning.Return ("row-0", 9%Z))
  ∧ planning.commit_plan 11%Z "row-0"
      (planning.commit_plan 9%Z "row-0" Examples.db_planned).1
    = ((planning.commit_plan 9%Z "row-0" Examples.db_planned).1,
       planning.HTTPException 400 "Plan already committed").
Proof.
  assert (H1 : planning.commit_plan 9%Z "row-0" Examples.db_planned
               = ((planning.commit_plan 9%Z "row-0" Examples.db_planned).1,
                  planning.Return ("row-0", 9%Z))) by reflexivity.
  split; [exact H1 |].
  exact (proj2 (proj2 (proj2 (commit_plan_twice 9%Z 11%Z "row-0"
                                Examples.db_planned _ _ H1)))).
Defined.


(** ** More on the greedy packer *)

Section GreedySafety.
Context `{M : math.lib}.
Local Open Scope Q_scope.

Lemma pack_order_nonneg (self : GreedyPlanner.t) (cap : Q)
    (assigned : gset string) (stockyards : list Stockyard.t)
    (st st' : GreedyPlanner.pack_state) (order : Order.t) :
  ledger_nonneg (GreedyPlanner.inventory st) →
  GreedyPlanner.pack_order self cap assigned stockyards st order = Ok st' →
  ledger_nonneg (GreedyPlanner.inventory st').
Proof.
  intros Hnn Hturn.
  apply pack_order_cases in Hturn as [-> | [(sy & Hnone & ->) | Hturn]];
    [done | done |].
  destruct Hturn as (sy & origin & products & available & ro & _ & _ & _ & _
                     & Hproducts & Havailable & Hle & _ & _ & _ & _ & _ & _ & ->).
  intros c p a. rewrite (stock_insert _ _ _ _ _ c p Hproducts).
  case_bool_decide; [| apply Hnn]. intros [= <-]. lra.
Qed.

Lemma pack_orders_nonneg (self : GreedyPlanner.t) (cap : Q)
    (assigned : gset string) (stockyards : list Stockyard.t)
    (orders : list Order.t) (st st' : GreedyPlanner.pack_state) :
  ledger_nonneg (GreedyPlanner.inventory st) →
  GreedyPlanner.pack_orders self cap assigned stockyards orders st = Ok st' →
  ledger_nonneg (GreedyPlanner.inventory st').
Proof.
  revert st. induction orders as [| order rest IH]; intros st Hnn; simpl.
  - by intros [= <-].
  - destruct (GreedyPlanner.pack_order self cap assigned stockyards st order)
      as [st1 |] eqn:Hturn; simpl; [| discriminate].
    apply IH. by eapply pack_order_nonneg.
Qed.

Lemma pack_rake_nonneg (self : GreedyPlanner.t) (rake : Rake.t)
    (orders : list Order.t) (assigned : gset string)
    (stockyards : list Stockyard.t) (inventory0 inventory' : ledger)
    (pack : option RakePlan.t) :
  ledger_nonneg inventory0 →
  GreedyPlanner._pack_rake self rake orders assigned stockyards inventory0
  = Ok (pack, inventory') →
  ledger_nonneg inventory'.
Proof.
  intros Hnn. unfold GreedyPlanner._pack_rake.
  destruct (GreedyPlanner.pack_orders _ _ _ _ _ _) as [st |] eqn:Hloop; simpl;
    [| discriminate].
  apply pack_orders_nonneg in Hloop; [| done].
  destruct (GreedyPlanner.rake_orders st); [by intros [= <- <-] |].
  destruct (Py.div _ _); simpl; [| discriminate]. by intros [= <- <-].
Qed.

Lemma plan_loop_nonneg (self : GreedyPlanner.t) (orders : list Order.t)
    (stockyards : list Stockyard.t) (todo : list Rake.t)
    (st st' : GreedyPlanner.plan_state) :
  ledger_nonneg (GreedyPlanner.stockyard_inventory st) →
  GreedyPlanner.plan_loop self orders stockyards todo st = Ok st' →
  ledger_nonneg (GreedyPlanner.stockyard_inventory st').
Proof.
  revert st. induction todo as [| rake rest IH]; intros st Hnn; simpl.
  - by intros [= <-].
  - destruct (_ <=? _)%nat; [by intros [= <-] |].
    destruct (GreedyPlanner._pack_rake _ _ _ _ _ _) as [[pack inventory'] |]
      eqn:Hpack; simpl; [| discriminate].
    apply IH. rewrite record_pack_inventory. by eapply pack_rake_nonneg.
Qed.

(** Where an entry of the initial ledger comes from. *)
Lemma initial_inventory_lookup (stockyards : list Stockyard.t) (c : string)
    (products : gmap string Q) :
  GreedyPlanner.initial_inventory stockyards !! c = Some products →
  ∃ sy, sy ∈ stockyards ∧ Stockyard.code sy = c
        ∧ Stockyard.current_inventory sy = products.
Proof.
  unfold GreedyPlanner.initial_inventory.
  assert (Hgen : ∀ inv0 : ledger,
            fold_left (λ inv sy, <[Stockyard.code sy := Stockyard.current_inventory sy]> inv)
                      stockyards inv0 !! c = Some products →
            inv0 !! c = Some products
            ∨ ∃ sy, sy ∈ stockyards ∧ Stockyard.code sy = c
                    ∧ Stockyard.current_inventory sy = products).
  { induction stockyards as [| sy sys IH]; intros inv0; simpl; [by left |].
    intros H. apply IH in H as [H | (sy' & ? & ? & ?)].
    - destruct (decide (Stockyard.code sy = c)) as [Hc | Hc].
      + rewrite <- Hc, lookup_insert_eq in H. injection H as H.
        right. exists sy. split_and!; [left | done | done].
      + rewrite lookup_insert_ne in H by done. by left.
    - right. exists sy'. split_and!; [by right | done | done]. }
  intros H. apply Hgen in H as [H | H]; [| done].
  by rewrite lookup_empty in H.
Qed.


(** The greedy planner never reserves more than a stockyard holds: when no
    stock of the snapshot is negative, no entry of the ledger is negative at
    the end of the run. *)
Theorem greedy_ledger_nonneg (self : GreedyPlanner.t) (orders : list Order.t)
    (stockyards : list Stockyard.t) (rakes : list Rake.t)
    (final : GreedyPlanner.plan_state) :
  (∀ sy p a, sy ∈ stockyards →
             Stockyard.current_inventory sy !! p = Some a → 0 <= a) →
  GreedyPlanner.plan_run self orders stockyards rakes = Ok final →
  ledger_nonneg (GreedyPlanner.stockyard_inventory final).
Proof.
  intros Hstock Hrun. unfold GreedyPlanner.plan_run in Hrun.
  eapply plan_loop_nonneg; [| exact Hrun]. simpl.
  intros c p a. unfold stock.
  destruct (GreedyPlanner.initial_inventory stockyards !! c) as [products |]
    eqn:Hc; [| done].
  apply initial_inventory_lookup in Hc as (sy & Hsy & _ & <-).
  by apply Hstock.
Qed.

End GreedySafety.

Section GreedyTotal.
Context `{M : math.lib}.
Local Open Scope Q_scope.





Lemma sum_pos (l : list Q) : l ≠ [] → Forall (λ x, 0 < x) l → 0 < Py.sum l.
Proof.
  destruct l as [| x l]; [done |]. intros _ Hall.
  apply Forall_cons in Hall as [Hx Hall]. rewrite sum_cons.
  assert (0 <= Py.sum l); [| lra].
  apply sum_nonneg. eapply Forall_impl; [exact Hall |]. simpl. intros; lra.
Qed.




End GreedyTotal.

Section GreedyExceptions.
Context `{M : math.lib}.
Local Open Scope Q_scope.






End GreedyExceptions.



Lemma greedy_ledger_nonneg_witness :
  (∀ sy p a, sy ∈ [Examples.sy_small] →
             Stockyard.current_inventory sy !! p = Some a → (0 <= a)%Q)
  ∧ ledger_nonneg (GreedyPlanner.stockyard_inventory Examples.after_both).
Proof.
  assert (Hstock : ∀ sy p a, sy ∈ [Examples.sy_small] →
                     Stockyard.current_inventory sy !! p = Some a → (0 <= a)%Q).
  { intros sy p a Hsy. apply list_elem_of_singleton in Hsy as ->. simpl.
    destruct (decide (p = "COAL")) as [-> | Hp].
    - rewrite lookup_insert_eq. intros [= <-]. by vm_compute.
    - rewrite lookup_insert_ne by done. by rewrite lookup_empty. }
  split; [exact Hstock |].
  apply (@greedy_ledger_nonneg Examples.series_math
           (GreedyPlanner.init Examples.cfg_min3000)
           [Examples.oa; Examples.ob] [Examples.sy_small]
           [Examples.rk_short; Examples.rk_long] _ Hstock).
  by vm_compute.
Defined.

Lemma greedy_plan_invariants_witness :
  @GreedyPlanner.plan Examples.series_math (GreedyPlanner.init Config.empty)
    [Examples.o1; Examples.o2; Examples.o3] [Examples.sy1; Examples.sy2]
    [Examples.r1; Examples.r2] = Ok Examples.greedy_on_fixture
  ∧ Forall (rake_invariants 1000 [Examples.r1; Examples.r2])
           (PlanResult.rakes Examples.greedy_on_fixture)
  ∧ PlanResult.orders_fulfilled Examples.greedy_on_fixture
    = distinct_assigned (PlanResult.rakes Examples.greedy_on_fixture).
Proof.
  assert (H : @GreedyPlanner.plan Examples.series_math
                (GreedyPlanner.init Config.empty)
                [Examples.o1; Examples.o2; Examples.o3]
                [Examples.sy1; Examples.sy2] [Examples.r1; Examples.r2]
              = Ok Examples.greedy_on_fixture) by (by vm_compute).
  split; [exact H |].
  exact (@greedy_plan_invariants Examples.series_math _ _ _ _ _ H).
Defined.

(** ** The task of a job, from start to end *)

Section RunnerProperties.
Context `{M : math.lib} `{CP : cp_model.CpSolver}.
Local Open Scope Q_scope.

Lemma prefix_refl (s : string) : String.prefix s s = true.
Proof.
  induction s as [| a s IH]; simpl; [done |].
  destruct (Ascii.ascii_dec a a); [exact IH | done].
Qed.

Lemma iter_7 {A : Type} (f : A → A) (x : A) :
  Nat.iter 7 f x = f (f (f (f (f (f (f x)))))).
Proof. reflexivity. Qed.

(** When the planner raises, the task ends with the job failed at progress
    40 and completed at the time of the failure, and no plan or rake row
    is added; the orders, stockyards and rakes are as they were. *)
Theorem execute_planning_job_fails (now : Z) (ids : nat → string)
    (job_id : string) (config : Config.t) (db : DB.t) (j0 : PlanningJob.t)
    (e : exn) :
  DB.get_job job_id db = Some j0 →
  planner_call config db = Raise e →
  let db' := planning.execute_planning_job now ids job_id config db in
  (∃ j, DB.get_job job_id db' = Some j
        ∧ PlanningJob.status j = "failed"
        ∧ PlanningJob.progress j == 40
        ∧ PlanningJob.started_at j = Some now
        ∧ PlanningJob.completed_at j = Some now
        ∧ ∃ line, last (PlanningJob.logs j) = Some (now, line)
                  ∧ String.prefix ("ERROR: " +:+ Py.str e) line = true)
  ∧ DB.plans db' = DB.plans db
  ∧ DB.plan_rakes db' = DB.plan_rakes db
  ∧ DB.orders db' = DB.orders db
  ∧ DB.stockyards db' = DB.stockyards db
  ∧ DB.rakes db' = DB.rakes db.
Proof.
  intros Hj0 Hplan db'. subst db'. unfold planner_call in Hplan.
  unfold planning.execute_planning_job.
  set (F := λ s : DB.t * planning.runner,
              planning.advance now ids job_id config s.1 s.2).
  rewrite iter_7.
  assert (E1 : ∀ db pc, F (db, pc)
                        = planning.advance now ids job_id config db pc) by done.
  rewrite (E1 db). cbn [planning.advance]. rewrite Hj0.
  do 3 (rewrite E1; cbn [planning.advance]).
  cbn [DB.orders DB.stockyards DB.rakes DB.update_job]. rewrite Hplan.
  do 3 (rewrite E1; cbn [planning.advance]). cbn [fst].
  split; [| done].
  unfold planning.on_exception. rewrite !get_job_update_job by done.
  rewrite Hj0. simpl. eexists. split; [reflexivity |]. simpl.
  split_and!; try done. eexists. rewrite last_snoc. split; [reflexivity |].
  apply prefix_refl.
Qed.

End RunnerProperties.

(** ** Reading back what the task stored *)

Section RoundTrip.
Context `{M : math.lib} `{CP : cp_model.CpSolver}.
Local Open Scope Q_scope.

Lemma find_app_fresh {A : Type} (p : A → bool) (l l' : list A) :
  Forall (λ x, p x = false) l → List.find p (l ++ l') = List.find p l'.
Proof.
  induction 1 as [| x l Hx _ IH]; simpl; [done |]. by rewrite Hx.
Qed.

Lemma filter_app_fresh {A : Type} (p : A → bool) (l l' : list A) :
  Forall (λ x, p x = false) l → Forall (λ x, p x = true) l' →
  List.filter p (l ++ l') = l'.
Proof.
  intros Hl Hl'. rewrite List.filter_app.
  replace (List.filter p l) with (@nil A).
  - simpl. induction Hl' as [| x l' Hx _ IH]; simpl; [done |].
    by rewrite Hx, IH.
  - induction Hl as [| x l Hx _ IH]; simpl; [done |]. by rewrite Hx.
Qed.

Lemma Forall_imap {A B : Type} (P : B → Prop) (f : nat → A → B) (l : list A) :
  (∀ k x, P (f k x)) → Forall P (imap f l).
Proof.
  revert f. induction l as [| x l IH]; intros f Hf; simpl; [done |].
  constructor; [apply Hf |]. apply IH. intros k y. apply Hf.
Qed.

Lemma Forall2_fmap_imap {A B C : Type} (P : C → A → Prop) (g : B → C)
    (f : nat → A → B) (l : list A) :
  (∀ k x, P (g (f k x)) x) → Forall2 P (g <$> imap f l) l.
Proof.
  revert f. induction l as [| x l IH]; intros f Hf; simpl; [done |].
  constructor; [apply Hf |]. apply IH. intros k y. apply Hf.
Qed.

Lemma get_job_add_plan (job_id : string) (plan : Plan.t) (db : DB.t) :
  DB.get_job job_id (DB.add_plan plan db) = DB.get_job job_id db.
Proof. done. Qed.

Lemma get_job_add_plan_rakes (job_id : string) (rows : list PlanRake.t)
    (db : DB.t) :
  DB.get_job job_id (DB.add_plan_rakes rows db) = DB.get_job job_id db.
Proof. done. Qed.

(** The tables the task leaves when the planner returns. *)
Lemma task_completes (now : Z) (ids : nat → string) (job_id : string)
    (config : Config.t) (db : DB.t) (j0 : PlanningJob.t) (r : PlanResult.t) :
  DB.get_job job_id db = Some j0 →
  planner_call config db = Ok r →
  let db' := planning.execute_planning_job now ids job_id config db in
  (∃ j, DB.get_job job_id db' = Some j
        ∧ PlanningJob.id j = PlanningJob.id j0
        ∧ PlanningJob.scenario_name j = PlanningJob.scenario_name j0
        ∧ PlanningJob.status j = "completed"
        ∧ PlanningJob.progress j = 100
        ∧ PlanningJob.started_at j = Some now
        ∧ PlanningJob.completed_at j = Some now)
  ∧ DB.plans db'
    = DB.plans db ++ [plan_row (ids 0%nat) job_id (PlanningJob.scenario_name j0) r]
  ∧ DB.plan_rakes db'
    = DB.plan_rakes db
      ++ imap (λ k rp, planning.plan_rake_row db (ids 0%nat) (ids (S k)) rp)
              (PlanResult.rakes r)
  ∧ DB.orders db' = DB.orders db
  ∧ DB.stockyards db' = DB.stockyards db
  ∧ DB.rakes db' = DB.rakes db.
Proof.
  intros Hj0 Hplan db'. subst db'. unfold planner_call in Hplan.
  unfold planning.execute_planning_job.
  set (F := λ s : DB.t * planning.runner,
              planning.advance now ids job_id config s.1 s.2).
  rewrite iter_7.
  assert (E1 : ∀ db pc, F (db, pc)
                        = planning.advance now ids job_id config db pc) by done.
  rewrite (E1 db). cbn [planning.advance]. rewrite Hj0.
  do 3 (rewrite E1; cbn [planning.advance]).
  cbn [DB.orders DB.stockyards DB.rakes DB.update_job]. rewrite Hplan.
  do 3 (rewrite E1; cbn [planning.advance]). cbn [fst].
  split; [| split; [| done]].
  - rewrite get_job_update_job by done.
    rewrite get_job_add_plan_rakes, get_job_add_plan.
    rewrite !get_job_update_job by done. rewrite Hj0. simpl.
    eexists. split; [reflexivity |]. done.
  - cbn [DB.plans DB.add_plan_rakes DB.add_plan DB.update_job].
    rewrite !get_job_update_job by done. rewrite Hj0. done.
Qed.

(** What the task stores can be read back: after a run in which the
    planner returned [r], the status handler reports the job completed at
    100 with the id of the new plan, and the plan handler returns the costs
    and counts of [r] and one entry per rake of [r], in order, with its
    number, orders, destinations and weight. *)
Theorem stored_plan_round_trip (now : Z) (ids : nat → string) (job_id : string)
    (config : Config.t) (db : DB.t) (j0 : PlanningJob.t) (r : PlanResult.t) :
  DB.get_job job_id db = Some j0 →
  planner_call config db = Ok r →
  Forall (λ p, Plan.id p ≠ ids 0%nat ∧ Plan.job_id p ≠ job_id) (DB.plans db) →
  Forall (λ pr, PlanRake.plan_id pr ≠ ids 0%nat) (DB.plan_rakes db) →
  let db' := planning.execute_planning_job now ids job_id config db in
  (∃ s, planning.get_job_status job_id db' = planning.Return s
        ∧ JobStatus.status s = "completed"
        ∧ JobStatus.progress s == 100
        ∧ JobStatus.completed_at s = Some now
        ∧ JobStatus.plan_id s = Some (ids 0%nat))
  ∧ (∃ d, planning.get_plan (ids 0%nat) db' = planning.Return d
          ∧ PlanDetails.id d = ids 0%nat
          ∧ PlanDetails.job_id d = job_id
          ∧ PlanDetails.name d = PlanningJob.scenario_name j0
          ∧ PlanDetails.total_cost d = PlanResult.total_cost r
          ∧ PlanDetails.freight_cost d = PlanResult.freight_cost r
          ∧ PlanDetails.demurrage_cost d = PlanResult.demurrage_cost r
          ∧ PlanDetails.idle_cost d = PlanResult.idle_cost r
          ∧ PlanDetails.utilization_pct d = PlanResult.utilization_pct r
          ∧ PlanDetails.orders_fulfilled d = PlanResult.orders_fulfilled r
          ∧ PlanDetails.total_orders d = PlanResult.total_orders r
          ∧ PlanDetails.algorithm d = PlanResult.algorithm r
          ∧ PlanDetails.committed d = false
          ∧ Forall2
              (λ rd rp,
                 RakeData.rake_number rd = RakePlan.rake_number rp
                 ∧ RakeData.orders_assigned rd = RakePlan.orders rp
                 ∧ RakeData.destinations rd = RakePlan.destinations rp
                 ∧ RakeData.total_weight rd = RakePlan.total_weight rp
                 ∧ RakeData.utilization_pct rd = RakePlan.utilization_pct rp
                 ∧ RakeData.freight_cost rd = RakePlan.freight_cost rp)
              (PlanDetails.rakes d) (PlanResult.rakes r)).
Proof.
  intros Hj0 Hplan Hplans Hrows db'.
  destruct (task_completes now ids job_id config db j0 r Hj0 Hplan)
    as [(j & Hj & _ & _ & Hstatus & Hprogress & _ & Hdone)
        (Hp & Hpr & _ & Hsy & _)].
  fold db' in Hj, Hp, Hpr, Hsy. split.
  - unfold planning.get_job_status. rewrite Hj, Hstatus, Hp. simpl.
    rewrite find_app_fresh.
    2:{ eapply Forall_impl; [exact Hplans |]. intros p [_ Hp'].
        simpl in Hp'. by apply bool_decide_eq_false_2. }
    simpl. rewrite bool_decide_eq_true_2 by done.
    eexists. split; [reflexivity |]. simpl. rewrite Hprogress. done.
  - unfold planning.get_plan. rewrite Hp, Hpr.
    rewrite find_app_fresh.
    2:{ eapply Forall_impl; [exact Hplans |]. intros p [Hp' _].
        simpl in Hp'. unfold planning.plan_is. by apply bool_decide_eq_false_2. }
    simpl. unfold planning.plan_is. simpl. rewrite bool_decide_eq_true_2 by done.
    eexists. split; [reflexivity |]. simpl. split_and!; try done.
    rewrite filter_app_fresh.
    + apply Forall2_fmap_imap. done.
    + eapply Forall_impl; [exact Hrows |]. intros pr Hpr'. simpl in Hpr'.
      by apply bool_decide_eq_false_2.
    + apply Forall_imap. intros k rp. by apply bool_decide_eq_true_2.
Qed.

Lemma find_unique_key {A K : Type} `{EqDecision K} (key : A → K)
    (l : list A) (x : A) :
  NoDup (key <$> l) → x ∈ l →
  List.find (λ y, bool_decide (key y = key x)) l = Some x.
Proof.
  induction l as [| y l IH]; simpl; intros Hnd Hx; [by apply elem_of_nil in Hx |].
  apply NoDup_cons in Hnd as [Hy Hnd].
  apply elem_of_cons in Hx as [-> | Hx]; [by rewrite bool_decide_eq_true_2 |].
  rewrite bool_decide_eq_false_2; [by apply IH |].
  intros Heq. apply Hy. rewrite Heq. apply list_elem_of_fmap. by exists x.
Qed.

Lemma find_Some_elem {A : Type} (p : A → bool) (l : list A) (x : A) :
  List.find p l = Some x → x ∈ l ∧ p x = true.
Proof.
  intros Hfind. apply find_some in Hfind as [Hin Hp].
  split; [by apply list_elem_of_In | done].
Qed.

Lemma find_is_Some {A : Type} (p : A → bool) (l : list A) (x : A) :
  x ∈ l → p x = true → is_Some (List.find p l).
Proof.
  intros Hin Hp. destruct (List.find p l) eqn:Hfind; [by eexists |].
  apply list_elem_of_In in Hin.
  pose proof (find_none _ _ Hfind x Hin) as Hx. congruence.
Qed.

(** From the origin code of a rake plan to the key stored in its row and
    back to the code [get_plan] reports. *)
Lemma rake_data_origin (db : DB.t) (plan_id row_id : string) (rp : RakePlan.t) :
  NoDup (Stockyard.id <$> DB.stockyards db) →
  Forall (λ sy, Stockyard.id sy ≠ "") (DB.stockyards db) →
  let rd := planning.rake_data db (planning.plan_rake_row db plan_id row_id rp) in
  (∀ c, RakeData.origin_stockyard_code rd = Some c →
        RakePlan.origin_stockyard_code rp = Some c)
  ∧ (∀ c, RakePlan.origin_stockyard_code rp = Some c → c ≠ "" →
          c ∈ Stockyard.code <$> DB.stockyards db →
          RakeData.origin_stockyard_code rd = Some c).
Proof.
  intros Hnd Hids rd. subst rd.
  unfold planning.rake_data, planning.plan_rake_row. cbn [PlanRake.origin_stockyard_id RakeData.origin_stockyard_code].
  destruct (RakePlan.origin_stockyard_code rp) as [c0 |] eqn:Hc0; simpl;
    [| split; intros c; discriminate].
  destruct (bool_decide (c0 = "")) eqn:Hempty; simpl;
    [split; intros c; [discriminate |];
     intros [= <-] Hc; by apply bool_decide_eq_true_1 in Hempty |].
  destruct (List.find _ (DB.stockyards db)) as [sy |] eqn:Hfind; simpl.
  - apply find_Some_elem in Hfind as [Hsy Hcode].
    apply bool_decide_eq_true_1 in Hcode. injection Hcode as Hcode.
    rewrite Forall_forall in Hids.
    rewrite bool_decide_eq_false_2 by (by apply Hids).
    simpl.
    rewrite (find_unique_key (λ y, Some (Stockyard.id y)) _ sy); [| | done].
    + simpl. rewrite Hcode. split; [done |]. by intros c [= <-].
    + change (λ y, Some (Stockyard.id y)) with (Some ∘ Stockyard.id).
      rewrite list_fmap_compose. by apply (NoDup_fmap_2 Some).
  - split; intros c; [discriminate |]. intros [= <-] _ Hc.
    apply list_elem_of_fmap in Hc as (sy & -> & Hsy).
    destruct (find_is_Some
                (λ sy0, bool_decide (Some (Stockyard.code sy0)
                                     = Some (Stockyard.code sy)))
                (DB.stockyards db) sy Hsy) as [sy' Hsy'];
      [by apply bool_decide_eq_true_2 |].
    congruence.
Qed.

(** The origin [get_plan] reports for a rake of a stored plan is the one
    the planner chose: with distinct, non-empty stockyard keys, a reported
    origin code is the rake plan's, and the rake plan's non-empty origin
    code is reported whenever a stockyard has it. *)
Theorem stored_plan_origin (now : Z) (ids : nat → string) (job_id : string)
    (config : Config.t) (db : DB.t) (j0 : PlanningJob.t) (r : PlanResult.t) :
  DB.get_job job_id db = Some j0 →
  planner_call config db = Ok r →
  Forall (λ p, Plan.id p ≠ ids 0%nat) (DB.plans db) →
  Forall (λ pr, PlanRake.plan_id pr ≠ ids 0%nat) (DB.plan_rakes db) →
  NoDup (Stockyard.id <$> DB.stockyards db) →
  Forall (λ sy, Stockyard.id sy ≠ "") (DB.stockyards db) →
  let db' := planning.execute_planning_job now ids job_id config db in
  ∃ d, planning.get_plan (ids 0%nat) db' = planning.Return d
       ∧ Forall2
           (λ rd rp,
              (∀ c, RakeData.origin_stockyard_code rd = Some c →
                    RakePlan.origin_stockyard_code rp = Some c)
              ∧ (∀ c, RakePlan.origin_stockyard_code rp = Some c → c ≠ "" →
                      c ∈ Stockyard.code <$> DB.stockyards db →
                      RakeData.origin_stockyard_code rd = Some c))
           (PlanDetails.rakes d) (PlanResult.rakes r).
Proof.
  intros Hj0 Hplan Hplans Hrows Hnd Hids db'.
  destruct (task_completes now ids job_id config db j0 r Hj0 Hplan)
    as [_ (Hp & Hpr & _ & Hsy & _)].
  fold db' in Hp, Hpr, Hsy.
  unfold planning.get_plan. rewrite Hp, Hpr.
  rewrite find_app_fresh.
  2:{ eapply Forall_impl; [exact Hplans |]. intros p Hp'.
      simpl in Hp'. unfold planning.plan_is. by apply bool_decide_eq_false_2. }
  simpl. unfold planning.plan_is. simpl. rewrite bool_decide_eq_true_2 by done.
  eexists. split; [reflexivity |]. simpl.
  rewrite filter_app_fresh.
  - apply Forall2_fmap_imap. intros k rp.
    replace (planning.rake_data db') with (planning.rake_data db)
      by (unfold planning.rake_data; by rewrite Hsy).
    by apply rake_data_origin.
  - eapply Forall_impl; [exact Hrows |]. intros pr Hpr'. simpl in Hpr'.
    by apply bool_decide_eq_false_2.
  - apply Forall_imap. intros k rp. by apply bool_decide_eq_true_2.
Qed.

End RoundTrip.

(** ** Cancelling a job *)

Section CancelProperties.
Context `{M : math.lib} `{CP : cp_model.CpSolver}.
Local Open Scope Q_scope.

(** What a served cancel request did. *)
Lemma cancel_job_served (t1 : Z) (job_id : string) (db db1 : DB.t)
    (msg : string) :
  planning.cancel_job t1 job_id db = (db1, planning.Return msg) →
  ∃ j0, DB.get_job job_id db = Some j0
        ∧ (PlanningJob.status j0 ∉ ["completed"; "failed"; "cancelled"])
        ∧ db1 = DB.update_job job_id
                  (λ j, planning.set_job "cancelled" (PlanningJob.progress j)
                          (PlanningJob.started_at j) (Some t1)
                          (t1, "Job cancelled by user") j)
                  db.
Proof.
  unfold planning.cancel_job.
  destruct (DB.get_job job_id db) as [j0 |] eqn:Hj0; [| discriminate].
  case_bool_decide as Hterminal; [discriminate |].
  intros [= <- _]. by exists j0.
Qed.

(** A served cancel request leaves the job cancelled, completed at the
    time of the request and at the progress it had; a second request for
    the job is refused and changes nothing; the status handler then
    reports the job cancelled, with no plan; and no other job, and no
    other table, is touched. *)
Theorem cancel_job_twice (t1 t2 : Z) (job_id : string) (db db1 : DB.t)
    (msg : string) :
  planning.cancel_job t1 job_id db = (db1, planning.Return msg) →
  (∃ j0 j, DB.get_job job_id db = Some j0
           ∧ DB.get_job job_id db1 = Some j
           ∧ PlanningJob.status j = "cancelled"
           ∧ PlanningJob.completed_at j = Some t1
           ∧ PlanningJob.progress j = PlanningJob.progress j0
           ∧ PlanningJob.started_at j = PlanningJob.started_at j0)
  ∧ planning.cancel_job t2 job_id db1
    = (db1, planning.HTTPException 400 "Cannot cancel job in current state")
  ∧ (∃ s, planning.get_job_status job_id db1 = planning.Return s
          ∧ JobStatus.status s = "cancelled"
          ∧ JobStatus.plan_id s = None)
  ∧ (∀ k, k ≠ job_id → DB.get_job k db1 = DB.get_job k db)
  ∧ DB.orders db1 = DB.orders db
  ∧ DB.stockyards db1 = DB.stockyards db
  ∧ DB.rakes db1 = DB.rakes db
  ∧ DB.plans db1 = DB.plans db
  ∧ DB.plan_rakes db1 = DB.plan_rakes db.
Proof.
  intros Hcancel.
  apply cancel_job_served in Hcancel as (j0 & Hj0 & Hstatus & ->).
  match goal with |- context [DB.update_job job_id ?f db] => set (cancel := f) end.
  assert (Hj : DB.get_job job_id (DB.update_job job_id cancel db)
               = Some (cancel j0))
    by (rewrite get_job_update_job, Hj0; done).
  split_and!; try done.
  - exists j0, (cancel j0). done.
  - unfold planning.cancel_job. rewrite Hj.
    rewrite bool_decide_eq_true_2; [done |]. simpl. set_solver.
  - unfold planning.get_job_status. rewrite Hj. simpl.
    eexists. split; [reflexivity |]. done.
  - intros k Hk. unfold DB.get_job, DB.update_job, DB.job_is. simpl.
    rewrite (find_update_first_key PlanningJob.id cancel) by done.
    by rewrite bool_decide_eq_false_2 by done.
Qed.

(** The task does not look at the status of its job: when a cancel
    request is served before the task starts, the task still runs the
    planner and stores its plan, and the job ends completed at 100. *)
Theorem cancelled_job_still_runs (t1 now : Z) (ids : nat → string)
    (job_id : string) (config : Config.t) (db db1 : DB.t) (msg : string)
    (r : PlanResult.t) :
  planning.cancel_job t1 job_id db = (db1, planning.Return msg) →
  planner_call config db = Ok r →
  let db' := planning.execute_planning_job now ids job_id config db1 in
  (∃ j, DB.get_job job_id db' = Some j
        ∧ PlanningJob.status j = "completed"
        ∧ PlanningJob.progress j == 100)
  ∧ (∃ plan, DB.plans db' = DB.plans db ++ [plan]
             ∧ Plan.job_id plan = job_id
             ∧ Plan.plan_data plan = r).
Proof.
  intros Hcancel Hplan db'.
  apply cancel_job_served in Hcancel as (j0 & Hj0 & Hstatus & ->).
  match goal with _ := context [DB.update_job job_id ?f db] |- _ => set (cancel := f) in * end.
  assert (Hj : DB.get_job job_id (DB.update_job job_id cancel db)
               = Some (cancel j0))
    by (rewrite get_job_update_job, Hj0; done).
  destruct (task_completes now ids job_id config _ _ r Hj Hplan)
    as [(j & Hj' & _ & _ & Hst & Hpr & _) (Hp & _)].
  fold db' in Hj', Hp. split.
  - exists j. rewrite Hpr. done.
  - eexists. split; [exact Hp |]. done.
Qed.

End CancelProperties.

(** ** The records of a greedy plan *)

Section GreedyRecords.
Context `{M : math.lib}.
Local Open Scope Q_scope.

(** One turn of the loop of [_pack_rake], seen from the records: nothing
    is recorded, or the record of the order is appended. *)
Lemma pack_order_records (self : GreedyPlanner.t) (cap : Q)
    (assigned : gset string) (stockyards : list Stockyard.t)
    (st st' : GreedyPlanner.pack_state) (order : Order.t) :
  GreedyPlanner.pack_order self cap assigned stockyards st order = Ok st' →
  (GreedyPlanner.rake_orders st' = GreedyPlanner.rake_orders st
   ∧ GreedyPlanner.destinations st' = GreedyPlanner.destinations st
   ∧ GreedyPlanner.freight_cost st' = GreedyPlanner.freight_cost st)
  ∨ ∃ ro, record_of order ro
          ∧ (Order.id order ∉ assigned)
          ∧ GreedyPlanner.rake_orders st' = GreedyPlanner.rake_orders st ++ [ro]
          ∧ GreedyPlanner.destinations st'
            = {[Order.destination order]} ∪ GreedyPlanner.destinations st
          ∧ GreedyPlanner.freight_cost st'
            = GreedyPlanner.freight_cost st + RakeOrder.freight_cost ro
          ∧ (GreedyPlanner.allow_multi_dest self = false →
             GreedyPlanner.destinations st ≠ ∅ →
             Order.destination order ∈ GreedyPlanner.destinations st).
Proof.
  assert (Hreserve : ∀ st0 sy,
    GreedyPlanner.rake_orders st0 = GreedyPlanner.rake_orders st →
    GreedyPlanner.destinations st0 = GreedyPlanner.destinations st →
    GreedyPlanner.freight_cost st0 = GreedyPlanner.freight_cost st →
    GreedyPlanner.reserve self st0 sy order = Ok st' →
    (GreedyPlanner.rake_orders st' = GreedyPlanner.rake_orders st
     ∧ GreedyPlanner.destinations st' = GreedyPlanner.destinations st
     ∧ GreedyPlanner.freight_cost st' = GreedyPlanner.freight_cost st)
    ∨ ∃ ro, record_of order ro
            ∧ GreedyPlanner.rake_orders st' = GreedyPlanner.rake_orders st ++ [ro]
            ∧ GreedyPlanner.destinations st'
              = {[Order.destination order]} ∪ GreedyPlanner.destinations st
            ∧ GreedyPlanner.freight_cost st'
              = GreedyPlanner.freight_cost st + RakeOrder.freight_cost ro).
  { intros st0 sy Hros Hds Hfc. unfold GreedyPlanner.reserve.
    destruct (GreedyPlanner.inventory st0 !! Stockyard.code sy) as [products |];
      [| discriminate].
    destruct (products !! Order.product_code order) as [available |];
      [| intros [= <-]; by left].
    destruct (Qle_bool _ _); [| intros [= <-]; by left].
    intros [= <-]. right. simpl. rewrite Hros, Hds, Hfc.
    eexists (RakeOrder.mk _ _ _ _ _ _). split_and!; try reflexivity.
    by unfold record_of. }
  unfold GreedyPlanner.pack_order.
  case_bool_decide as Hassigned; [intros [= <-]; by left |].
  destruct (Qlt_bool cap _); [intros [= <-]; by left |].
  destruct (negb (GreedyPlanner.allow_multi_dest self) && _ && _) eqn:Hdest;
    [intros [= <-]; by left |].
  assert (Hsingle : GreedyPlanner.allow_multi_dest self = false →
                    GreedyPlanner.destinations st ≠ ∅ →
                    Order.destination order ∈ GreedyPlanner.destinations st).
  { intros Hmulti Hne. rewrite Hmulti in Hdest. simpl in Hdest.
    rewrite (bool_decide_eq_false_2 _ Hne) in Hdest. simpl in Hdest.
    apply bool_decide_eq_false_1 in Hdest. by apply dec_stable. }
  clear Hdest.
  destruct (GreedyPlanner._select_source_stockyard _ _ _) as [sy |];
    [| intros [= <-]; by left].
  destruct (GreedyPlanner.origin_stockyard st) as [origin |].
  - case_bool_decide; [intros [= <-]; by left |].
    intros Hres. apply Hreserve in Hres as [? | (ro & ? & ? & ? & ?)]; try done;
      [by left |].
    right. by exists ro.
  - intros Hres. apply Hreserve in Hres as [? | (ro & ? & ? & ? & ?)]; try done;
      [by left |].
    right. by exists ro.
Qed.

(** The loop of [_pack_rake]: the records appended are those of a
    sub-list of the orders offered, none of them assigned before; the
    destinations and the freight cost follow the records. *)
Lemma pack_orders_records (self : GreedyPlanner.t) (cap : Q)
    (assigned : gset string) (stockyards : list Stockyard.t)
    (orders : list Order.t) (st st' : GreedyPlanner.pack_state) :
  GreedyPlanner.pack_orders self cap assigned stockyards orders st = Ok st' →
  ∃ picked new,
    picked `sublist_of` orders
    ∧ Forall (λ o, Order.id o ∉ assigned) picked
    ∧ Forall2 record_of picked new
    ∧ GreedyPlanner.rake_orders st' = GreedyPlanner.rake_orders st ++ new
    ∧ GreedyPlanner.destinations st'
      = list_to_set (Order.destination <$> picked) ∪ GreedyPlanner.destinations st
    ∧ GreedyPlanner.freight_cost st'
      = fold_left Qplus (RakeOrder.freight_cost <$> new)
                  (GreedyPlanner.freight_cost st)
    ∧ (GreedyPlanner.allow_multi_dest self = false →
       (∀ d d', d ∈ GreedyPlanner.destinations st →
                d' ∈ GreedyPlanner.destinations st → d = d') →
       ∀ d d', d ∈ GreedyPlanner.destinations st' →
               d' ∈ GreedyPlanner.destinations st' → d = d').
Proof.
  revert st. induction orders as [| order rest IH]; intros st; simpl.
  - intros [= <-]. exists [], []. split_and!; try done.
    + by rewrite app_nil_r.
    + set_solver.
  - destruct (GreedyPlanner.pack_order _ _ _ _ _ _) as [st1 |] eqn:Hone; simpl;
      [| discriminate].
    intros Hrest.
    apply IH in Hrest as (picked & new & Hsub & Hfresh & Hrec & Hros & Hds & Hfc & Hsingle).
    apply pack_order_records in Hone
      as [(Hros1 & Hds1 & Hfc1) | (ro & Hro & Hid & Hros1 & Hds1 & Hfc1 & Hdest)].
    + rewrite Hros1 in Hros. rewrite Hds1 in Hds, Hsingle. rewrite Hfc1 in Hfc.
      exists picked, new. split_and!; try done. by apply sublist_cons.
    + rewrite Hros1 in Hros. rewrite Hds1 in Hds, Hsingle. rewrite Hfc1 in Hfc.
      exists (order :: picked), (ro :: new). split_and!.
      * by apply sublist_skip.
      * by constructor.
      * by constructor.
      * by rewrite Hros, <- app_assoc.
      * rewrite Hds. set_solver.
      * done.
      * intros Hmulti Hst. apply Hsingle; [done |].
        intros d d' Hd Hd'.
        destruct (decide (GreedyPlanner.destinations st = ∅)) as [Hempty | Hne].
        -- rewrite Hempty in Hd, Hd'. set_solver.
        -- specialize (Hdest Hmulti Hne).
           assert (d ∈ GreedyPlanner.destinations st) by set_solver.
           assert (d' ∈ GreedyPlanner.destinations st) by set_solver.
           by apply Hst.
Qed.

Lemma Forall2_record_ids (picked : list Order.t) (new : list RakeOrder.t) :
  Forall2 record_of picked new →
  RakeOrder.order_id <$> new = Order.id <$> picked.
Proof.
  induction 1 as [| o ro picked new Hro _ IH]; [done |].
  rewrite !fmap_cons. destruct Hro as (-> & _). by rewrite IH.
Qed.

Lemma Forall2_record_elem (picked : list Order.t) (new : list RakeOrder.t)
    (ro : RakeOrder.t) :
  Forall2 record_of picked new → ro ∈ new →
  ∃ o, o ∈ picked ∧ record_of o ro.
Proof.
  induction 1 as [| o ro' picked new Hro _ IH]; intros Hin;
    [by apply elem_of_nil in Hin |].
  apply elem_of_cons in Hin as [-> | Hin].
  - exists o. split; [left | done].
  - destruct (IH Hin) as (o' & Ho' & Hrec). exists o'. split; [by right | done].
Qed.

(** [_pack_rake], seen from the records of the pack. *)
Lemma pack_rake_records (self : GreedyPlanner.t) (rake : Rake.t)
    (orders : list Order.t) (assigned : gset string)
    (stockyards : list Stockyard.t) (inventory0 inventory' : ledger)
    (rp : RakePlan.t) :
  GreedyPlanner._pack_rake self rake orders assigned stockyards inventory0
  = Ok (Some rp, inventory') →
  pack_facts self orders rp
  ∧ Forall (λ id, id ∉ assigned) (RakeOrder.order_id <$> RakePlan.orders rp)
  ∧ (NoDup (Order.id <$> orders) →
     NoDup (RakeOrder.order_id <$> RakePlan.orders rp))
  ∧ RakePlan.rake_number rp = Rake.rake_number rake.
Proof.
  intros Hpack. pose proof Hpack as Hspec.
  apply pack_rake_spec in Hspec as [Hspec _].
  destruct (Hspec rp eq_refl) as (Hsum & Hcap & _). clear Hspec.
  revert Hpack Hsum Hcap. unfold GreedyPlanner._pack_rake.
  destruct (GreedyPlanner.pack_orders _ _ _ _ _ _) as [st |] eqn:Hloop; simpl;
    [| discriminate].
  apply pack_orders_records in Hloop
    as (picked & new & Hsub & Hfresh & Hrec & Hros & Hds & Hfc & Hsingle).
  simpl in Hros, Hds, Hfc. rewrite union_empty_r_L in Hds.
  rewrite Hros.
  assert (Hne : new ≠ [] → picked ≠ []).
  { intros Hnew ->. apply Forall2_nil_inv_l in Hrec. by subst new. }
  destruct new as [| ro ros]; [discriminate |].
  specialize (Hne ltac:(done)).
  remember (ro :: ros) as new eqn:Hnew.
  unfold Py.div.
  destruct (Qeq_bool (Rake.total_capacity_tonnes rake) 0) eqn:Hzero; simpl;
    [discriminate |].
  apply Qeq_bool_neq in Hzero.
  intros [= <- <-]. simpl. rewrite Hds. intros Hsum Hcap.
  pose proof (Forall2_record_ids _ _ Hrec) as Hids.
  split_and!; try done.
  - unfold pack_facts. simpl. split_and!; try done.
    + exists picked. done.
    + intros Hmulti. destruct picked as [| o picked']; [done |].
      assert (Hone : ∀ d, d ∈ GreedyPlanner.destinations st →
                          d = Order.destination o).
      { intros d Hd. apply (Hsingle Hmulti); [set_solver | done |].
        rewrite Hds. set_solver. }
      exists (Order.destination o). split.
      * rewrite <- Hds.
        assert (GreedyPlanner.destinations st = {[Order.destination o]}) as ->.
        { apply set_eq. intros d. rewrite elem_of_singleton.
          split; [apply Hone |]. intros ->. rewrite Hds. set_solver. }
        apply elements_singleton.
      * rewrite Forall_forall. intros ro' Hro'.
        destruct (Forall2_record_elem _ _ _ Hrec Hro') as (o' & Ho' & Hrec').
        destruct Hrec' as (_ & _ & _ & _ & ->).
        apply Hone. rewrite Hds. apply elem_of_list_to_set, list_elem_of_fmap.
        by exists o'.
  - rewrite Hids. rewrite Forall_fmap. exact Hfresh.
  - intros Hnd. rewrite Hids. apply (sublist_NoDup _ (Order.id <$> orders)); [done |]. by apply fmap_sublist.
Qed.

Lemma plan_loop_records (self : GreedyPlanner.t) (orders : list Order.t)
    (stockyards : list Stockyard.t) (todo : list Rake.t)
    (st st' : GreedyPlanner.plan_state) :
  plan_facts self orders st →
  GreedyPlanner.plan_loop self orders stockyards todo st = Ok st' →
  plan_facts self orders st'
  ∧ ∃ used, RakePlan.rake_number <$> GreedyPlanner.plan_rakes st'
            = (RakePlan.rake_number <$> GreedyPlanner.plan_rakes st) ++ used
            ∧ used `sublist_of` (Rake.rake_number <$> todo).
Proof.
  revert st. induction todo as [| rake rest IH]; intros st Hst; simpl.
  - intros [= <-]. split; [done |]. exists []. by rewrite app_nil_r.
  - destruct (_ <=? _)%nat.
    { intros [= <-]. split; [done |]. exists []. rewrite app_nil_r.
      split; [done | apply sublist_nil_l]. }
    destruct (GreedyPlanner._pack_rake _ _ _ _ _ _) as [[pack inventory'] |]
      eqn:Hpack; simpl; [| discriminate].
    intros Hrest.
    assert (Hskip : ∀ st1,
      GreedyPlanner.plan_rakes st1 = GreedyPlanner.plan_rakes st →
      plan_facts self orders st1 →
      GreedyPlanner.plan_loop self orders stockyards rest st1 = Ok st' →
      plan_facts self orders st'
      ∧ ∃ used, RakePlan.rake_number <$> GreedyPlanner.plan_rakes st'
                = (RakePlan.rake_number <$> GreedyPlanner.plan_rakes st) ++ used
                ∧ used `sublist_of` Rake.rake_number rake
                                     :: (Rake.rake_number <$> rest)).
    { intros st1 Hrakes Hst1 Hloop.
      destruct (IH st1 Hst1 Hloop) as [Hfacts (used & Hused & Hsub)].
      split; [done |]. exists used. rewrite Hused, Hrakes.
      split; [done | by apply sublist_cons]. }
    unfold GreedyPlanner.record_pack in Hrest.
    destruct Hst as (Hpacks & Hassigned & Hnodup & Hfreight & Hdemurrage & Hidle).
    destruct pack as [rp |];
      [| eapply Hskip; [| | exact Hrest]; [reflexivity | by split_and!]].
    destruct (Qle_bool _ _);
      [| eapply Hskip; [| | exact Hrest]; [reflexivity | by split_and!]].
    pose proof Hpack as Hspec.
    apply pack_rake_spec in Hspec as [Hspec _].
    destruct (Hspec rp eq_refl) as (_ & _ & _ & Hids).
    apply pack_rake_records in Hpack as (Hfacts & Hfresh & Hnd & Hnumber).
    apply IH in Hrest as [Hfacts' (used & Hused & Hsub)].
    + split; [done |]. exists (Rake.rake_number rake :: used).
      rewrite Hused. simpl. rewrite fmap_app, <- app_assoc. simpl.
      rewrite Hnumber. split; [done | by apply sublist_skip].
    + unfold plan_facts.
      cbn [GreedyPlanner.plan_rakes GreedyPlanner.assigned_orders
           GreedyPlanner.total_freight GreedyPlanner.total_demurrage
           GreedyPlanner.total_idle].
      split_and!.
      * apply Forall_app. split; [done | by apply Forall_singleton].
      * rewrite fold_left_add_ids, assigned_ids_snoc, list_to_set_app_L, Hids,
          Hassigned.
        set_solver.
      * intros Hno. rewrite assigned_ids_snoc. apply NoDup_app.
        split_and!; [by apply Hnodup | | by apply Hnd].
        intros id Hid Hid'. rewrite Forall_forall in Hfresh.
        apply (Hfresh id Hid'). rewrite Hassigned.
        by apply elem_of_list_to_set.
      * by rewrite fmap_snoc, sum_snoc, Hfreight.
      * by rewrite fmap_snoc, sum_snoc, Hdemurrage.
      * by rewrite fmap_snoc, sum_snoc, Hidle.
Qed.

End GreedyRecords.

Section GreedyPlanFacts.
Context `{M : math.lib}.
Local Open Scope Q_scope.

Lemma insert_by_Permutation {A : Type} (lt : A → A → bool) (x : A) (l : list A) :
  insert_by lt x l ≡ₚ x :: l.
Proof.
  induction l as [| y l IH]; simpl; [done |].
  destruct (lt y x); [| done]. rewrite IH. apply Permutation_swap.
Qed.

Lemma sorted_Permutation {A : Type} (lt : A → A → bool) (l : list A) :
  sorted lt l ≡ₚ l.
Proof.
  induction l as [| x l IH]; simpl; [done |].
  by rewrite insert_by_Permutation, IH.
Qed.

(** The state [plan] ends its loop in, and the result it builds from
    it. *)
Lemma greedy_plan_facts (self : GreedyPlanner.t) (orders : list Order.t)
    (stockyards : list Stockyard.t) (rakes : list Rake.t) (r : PlanResult.t) :
  GreedyPlanner.plan self orders stockyards rakes = Ok r →
  ∃ st, (plan_facts self (sorted GreedyPlanner.order_key_lt orders) st
         ∧ Forall (rake_invariants (GreedyPlanner.min_rake_size self) rakes)
                  (GreedyPlanner.plan_rakes st))
        ∧ PlanResult.rakes r = GreedyPlanner.plan_rakes st
        ∧ PlanResult.orders_fulfilled r = size (GreedyPlanner.assigned_orders st)
        ∧ PlanResult.total_orders r = length orders
        ∧ PlanResult.utilization_pct r
          = GreedyPlanner._calculate_utilization (GreedyPlanner.plan_rakes st)
        ∧ PlanResult.freight_cost r = GreedyPlanner.total_freight st
        ∧ PlanResult.demurrage_cost r = GreedyPlanner.total_demurrage st
        ∧ PlanResult.idle_cost r = GreedyPlanner.total_idle st
        ∧ PlanResult.total_cost r
          = GreedyPlanner.freight_weight self * GreedyPlanner.total_freight st
            + GreedyPlanner.demurrage_weight self * GreedyPlanner.total_demurrage st
            + GreedyPlanner.idle_weight self * GreedyPlanner.total_idle st
        ∧ (RakePlan.rake_number <$> PlanResult.rakes r)
          `sublist_of` (Rake.rake_number <$> GreedyPlanner.available rakes).
Proof.
  unfold GreedyPlanner.plan, GreedyPlanner.plan_run.
  destruct (GreedyPlanner.plan_loop _ _ _ _ _) as [st |] eqn:Hloop; simpl;
    [| discriminate].
  intros [= <-]. simpl.
  pose proof Hloop as Hinv.
  apply (plan_loop_invariants _ _ _ rakes) in Hinv as [Hinv _];
    [| | constructor | reflexivity].
  2:{ intros rk Hrk. unfold GreedyPlanner.available in Hrk.
      apply list_elem_of_In, filter_In in Hrk as [Hrk _].
      by apply list_elem_of_In. }
  apply plan_loop_records in Hloop as [Hfacts (used & Hused & Hsub)].
  - exists st. split_and!; try done. by rewrite Hused.
  - unfold plan_facts. simpl. split_and!; try done; constructor.
Qed.

Lemma size_list_to_set_le (l : list string) :
  (size (list_to_set l : gset string) <= length l)%nat.
Proof.
  unfold size, set_size. simpl. apply submseteq_length, NoDup_submseteq.
  - apply NoDup_elements.
  - intros x Hx. by apply elem_of_elements, elem_of_list_to_set in Hx.
Qed.

Lemma size_ids_le (orders : list Order.t) (assigned : gset string) :
  assigned ⊆ list_to_set (Order.id <$> orders) →
  (size assigned <= length orders)%nat.
Proof.
  intros Hsub. etrans; [apply (subseteq_size _ _ Hsub) |].
  etrans; [apply size_list_to_set_le |]. by rewrite length_fmap.
Qed.

Lemma assigned_ids_elem (plan_rakes : list RakePlan.t) (id : string) :
  id ∈ assigned_ids plan_rakes
  ↔ ∃ rp ro, rp ∈ plan_rakes ∧ ro ∈ RakePlan.orders rp
             ∧ RakeOrder.order_id ro = id.
Proof.
  unfold assigned_ids. rewrite list_elem_of_In, in_concat. split.
  - intros (l & Hl & Hid). apply list_elem_of_In, list_elem_of_fmap in Hl
      as (rp & -> & Hrp).
    apply list_elem_of_In, list_elem_of_fmap in Hid as (ro & -> & Hro).
    by exists rp, ro.
  - intros (rp & ro & Hrp & Hro & <-).
    exists (RakeOrder.order_id <$> RakePlan.orders rp). split.
    + apply list_elem_of_In, list_elem_of_fmap. by exists rp.
    + apply list_elem_of_In, list_elem_of_fmap. by exists ro.
Qed.

(** The greedy planner returns well-formed plans. *)
Lemma greedy_plan_wellformed (self : GreedyPlanner.t) (orders : list Order.t)
    (stockyards : list Stockyard.t) (rakes : list Rake.t) (r : PlanResult.t) :
  GreedyPlanner.plan self orders stockyards rakes = Ok r →
  plan_wellformed (GreedyPlanner.min_rake_size self) orders rakes r.
Proof.
  intros Hplan.
  apply greedy_plan_facts in Hplan
    as (st & ((Hpacks & Hassigned & _) & Hinv) & Hrakes & Hfulfilled & Htotal
        & _ & _ & _ & _ & _ & Hsub).
  assert (Hwf : Forall (rake_wellformed (GreedyPlanner.min_rake_size self) orders)
                       (GreedyPlanner.plan_rakes st)).
  { rewrite Forall_forall in Hpacks, Hinv. apply Forall_forall. intros rp Hrp.
    destruct (Hinv rp Hrp) as (Hsum & _ & Hmin).
    destruct (Hpacks rp Hrp) as ((picked & Hne & Hpicked & Hrec & _) & _ & _ & _ & _ & Hids & _).
    split_and!; try done.
    - intros Hnil. rewrite Hnil in Hrec. apply Forall2_nil_inv_r in Hrec. done.
    - apply Forall_forall. intros ro Hro.
      destruct (Forall2_record_elem _ _ _ Hrec Hro) as (o & Ho & Hrecord).
      exists o. split; [| done].
      eapply elem_of_sorted, elem_of_sublist; [exact Ho | exact Hpicked]. }
  unfold plan_wellformed. rewrite Hrakes, Hfulfilled, Htotal.
  split_and!; try done.
  - by rewrite <- Hrakes.
  - apply size_ids_le. rewrite Hassigned. intros id Hid.
    apply elem_of_list_to_set, assigned_ids_elem in Hid
      as (rp & ro & Hrp & Hro & <-).
    rewrite Forall_forall in Hwf. destruct (Hwf rp Hrp) as (_ & _ & _ & _ & Hrecs).
    rewrite Forall_forall in Hrecs. destruct (Hrecs ro Hro) as (o & Ho & (-> & _)).
    apply elem_of_list_to_set, list_elem_of_fmap. by exists o.
Qed.

(** With distinct order ids, the greedy planner puts no order in two
    records of a plan, so [orders_fulfilled] is the number of records; and
    every rake lists its orders in the order of the sort by priority and
    due date. *)
Theorem greedy_orders_once (self : GreedyPlanner.t) (orders : list Order.t)
    (stockyards : list Stockyard.t) (rakes : list Rake.t) (r : PlanResult.t) :
  NoDup (Order.id <$> orders) →
  GreedyPlanner.plan self orders stockyards rakes = Ok r →
  NoDup (assigned_ids (PlanResult.rakes r))
  ∧ PlanResult.orders_fulfilled r = length (assigned_ids (PlanResult.rakes r))
  ∧ Forall (λ rp, (RakeOrder.order_id <$> RakePlan.orders rp)
                  `sublist_of`
                  (Order.id <$> sorted GreedyPlanner.order_key_lt orders))
           (PlanResult.rakes r).
Proof.
  intros Hnd Hplan.
  apply greedy_plan_facts in Hplan
    as (st & ((Hpacks & Hassigned & Hnodup & _) & _) & -> & -> & _).
  assert (Hnd' : NoDup (Order.id <$> sorted GreedyPlanner.order_key_lt orders))
    by (by rewrite sorted_Permutation).
  specialize (Hnodup Hnd'). split_and!.
  - done.
  - rewrite Hassigned. by apply size_list_to_set.
  - eapply Forall_impl; [exact Hpacks |]. intros rp [(picked & _ & Hsub & Hrec & _) _].
    rewrite (Forall2_record_ids _ _ Hrec). by apply fmap_sublist.
Qed.

(** The destinations of a rake of a greedy plan are those of its orders,
    each listed once; unless the configuration allows several
    destinations, there is exactly one and every order of the rake goes
    there. *)
Theorem greedy_destinations (self : GreedyPlanner.t) (orders : list Order.t)
    (stockyards : list Stockyard.t) (rakes : list Rake.t) (r : PlanResult.t) :
  GreedyPlanner.plan self orders stockyards rakes = Ok r →
  Forall (λ rp,
            NoDup (RakePlan.destinations rp)
            ∧ (∀ d, d ∈ RakePlan.destinations rp
                    ↔ ∃ ro, ro ∈ RakePlan.orders rp
                            ∧ RakeOrder.destination ro = d)
            ∧ (GreedyPlanner.allow_multi_dest self = false →
               ∃ d, RakePlan.destinations rp = [d]
                    ∧ Forall (λ ro, RakeOrder.destination ro = d)
                             (RakePlan.orders rp)))
         (PlanResult.rakes r).
Proof.
  intros Hplan.
  apply greedy_plan_facts in Hplan as (st & ((Hpacks & _) & _) & -> & _).
  eapply Forall_impl; [exact Hpacks |].
  intros rp [(picked & _ & _ & Hrec & ->) (Hsingle & _)].
  split_and!; [apply NoDup_elements | | done].
  intros d. rewrite elem_of_elements, elem_of_list_to_set, list_elem_of_fmap.
  split.
  - intros (o & -> & Ho). revert Ho. clear -Hrec.
    induction Hrec as [| o' ro picked new Hro _ IH]; intros Ho;
      [by apply elem_of_nil in Ho |].
    apply elem_of_cons in Ho as [-> | Ho].
    + exists ro. split; [left | by destruct Hro as (_ & _ & _ & _ & ->)].
    + destruct (IH Ho) as (ro' & Hro' & Hd). exists ro'. split; [by right | done].
  - intros (ro & Hro & <-).
    destruct (Forall2_record_elem _ _ _ Hrec Hro) as (o & Ho & (_ & _ & _ & _ & ->)).
    by exists o.
Qed.

(** The cost breakdown of a greedy plan adds up: each of the three costs
    of the plan is the sum of that cost over its rakes, the total is their
    weighted sum, and for each rake the freight cost is the sum over its
    orders, the idle cost is the idle rate for two hours per order, and
    demurrage of a day is charged exactly under 75 percent utilization. *)
Theorem greedy_cost_breakdown (self : GreedyPlanner.t) (orders : list Order.t)
    (stockyards : list Stockyard.t) (rakes : list Rake.t) (r : PlanResult.t) :
  GreedyPlanner.plan self orders stockyards rakes = Ok r →
  PlanResult.freight_cost r = Py.sum (RakePlan.freight_cost <$> PlanResult.rakes r)
  ∧ PlanResult.demurrage_cost r
    = Py.sum (RakePlan.demurrage_cost <$> PlanResult.rakes r)
  ∧ PlanResult.idle_cost r = Py.sum (RakePlan.idle_cost <$> PlanResult.rakes r)
  ∧ PlanResult.total_cost r
    = GreedyPlanner.freight_weight self * PlanResult.freight_cost r
      + GreedyPlanner.demurrage_weight self * PlanResult.demurrage_cost r
      + GreedyPlanner.idle_weight self * PlanResult.idle_cost r
  ∧ Forall (λ rp,
              RakePlan.freight_cost rp
              = Py.sum (RakeOrder.freight_cost <$> RakePlan.orders rp)
              ∧ RakePlan.idle_cost rp
                = GreedyPlanner.idle_rate self
                  * (inject_Z (Z.of_nat (length (RakePlan.orders rp))) * 2)
              ∧ RakePlan.demurrage_cost rp
                = (if Qlt_bool (RakePlan.utilization_pct rp) 75
                   then GreedyPlanner.demurrage_rate self * 24 else 0))
           (PlanResult.rakes r).
Proof.
  intros Hplan.
  apply greedy_plan_facts in Hplan
    as (st & ((Hpacks & _ & _ & Hf & Hd & Hi) & _) & -> & _ & _ & _ & -> & -> & -> & -> & _).
  split_and!; try done.
  eapply Forall_impl; [exact Hpacks |]. by intros rp (_ & _ & ? & ? & ? & _).
Qed.

End GreedyPlanFacts.

(** ** The plans of the CP-SAT packer *)

Section ExtractProperties.
Local Open Scope Q_scope.

Lemma fold_left_Qplus_app (l : list Q) (a : Q) :
  fold_left Qplus l a == a + Py.sum l.
Proof.
  unfold Py.sum. revert a. induction l as [| x l IH]; intros a; simpl; [lra |].
  rewrite IH, (IH (0 + x)). lra.
Qed.

(** The loop of [_extract_solution] over the orders, for rake [j]: the
    orders appended are those the assignment puts on the rake, in input
    order; their quantities are added to the weight and their ids to the
    set.  With whole tonnages the weight added is the left-hand side of
    the capacity constraint of rake [j]. *)
Lemma collect_spec (value : cp_model.assignment) (j i : nat)
    (orders rake_orders rake_orders' : list Order.t) (total_weight total_weight' : Q)
    (assigned assigned' : gset string) :
  ORToolsPlanner.collect value j i orders rake_orders total_weight assigned
  = (rake_orders', total_weight', assigned') →
  ∃ picked,
    picked `sublist_of` orders
    ∧ rake_orders' = rake_orders ++ picked
    ∧ total_weight' = fold_left Qplus (Order.quantity_tonnes <$> picked) total_weight
    ∧ assigned' = list_to_set (Order.id <$> picked) ∪ assigned
    ∧ (Forall (λ o, whole (Order.quantity_tonnes o)) orders →
       total_weight'
       == total_weight
          + inject_Z (cp_model.Zsum
                        (imap (λ k c, if value (i + k)%nat j then c else 0%Z)
                              ((λ o, Py.int (Order.quantity_tonnes o)) <$> orders)))).
Proof.
  revert i rake_orders total_weight assigned.
  induction orders as [| order rest IH]; intros i ros tw a;
    cbn [ORToolsPlanner.collect].
  - intros [= <- <- <-]. exists []. split_and!; try done.
    + by rewrite app_nil_r.
    + set_solver.
    + intros _. change (tw == tw + 0). lra.
  - assert (Hsum : ∀ l : list Z,
      cp_model.Zsum (imap (λ k c, if value (i + k)%nat j then c else 0%Z)
                          (Py.int (Order.quantity_tonnes order) :: l))
      = ((if value i j then Py.int (Order.quantity_tonnes order) else 0)
         + cp_model.Zsum (imap (λ k c, if value (S i + k)%nat j then c else 0%Z) l))%Z).
    { intros l. rewrite imap_cons. unfold cp_model.Zsum. cbn [foldr].
      replace (i + 0)%nat with i by lia. f_equal. f_equal.
      apply imap_ext. intros k c _. simpl.
      by replace (i + S k)%nat with (S (i + k)) by lia. }
    destruct (value i j) eqn:Hv; intros Hrest;
      apply IH in Hrest as (picked & Hsub & -> & -> & -> & Hwhole).
    + exists (order :: picked). split_and!.
      * by apply sublist_skip.
      * by rewrite <- app_assoc.
      * done.
      * set_solver.
      * intros Hall. apply Forall_cons in Hall as [Ho Hall].
        rewrite (Hwhole Hall), fmap_cons, Hsum, inject_Z_plus.
        unfold whole in Ho. rewrite <- Ho. lra.
    + exists picked. split_and!; try done.
      * by apply sublist_cons.
      * intros Hall. apply Forall_cons in Hall as [_ Hall].
        rewrite (Hwhole Hall), fmap_cons, Hsum, Z.add_0_l. reflexivity.
Qed.

Lemma int_le (q : Q) : 0 <= q → inject_Z (Py.int q) <= q.
Proof.
  intros Hq. unfold Py.int. destruct q as [n d]. simpl.
  rewrite Z.quot_div_nonneg; [| | lia].
  - apply (Qfloor_le (n # d)).
  - unfold Qle in Hq. simpl in Hq. lia.
Qed.

Lemma records_quantity (picked : list Order.t) :
  RakeOrder.quantity <$> (ORToolsPlanner.order_record <$> picked)
  = Order.quantity_tonnes <$> picked.
Proof. rewrite <- list_fmap_compose. by apply list_fmap_ext. Qed.

Lemma records_ids (picked : list Order.t) :
  RakeOrder.order_id <$> (ORToolsPlanner.order_record <$> picked)
  = Order.id <$> picked.
Proof. rewrite <- list_fmap_compose. by apply list_fmap_ext. Qed.

(** The loop of [_extract_solution] over the rakes: the rake plans
    appended are well formed and name rakes of the list, in its order;
    only ids of the orders are added to the set; and where the assignment
    keeps the capacity constraint of a rake and tonnages are whole, the
    weight of its rake plan is within its capacity. *)
Lemma extract_loop_facts (self : ORToolsPlanner.t)
    (value : cp_model.assignment) (orders : list Order.t)
    (rakes_all : list Rake.t) (j : nat) (rakes : list Rake.t)
    (plan_rakes plan_rakes' : list RakePlan.t)
    (assigned assigned' : gset string) :
  ORToolsPlanner.extract_loop self value orders j rakes plan_rakes assigned
  = Ok (plan_rakes', assigned') →
  ∃ new,
    plan_rakes' = plan_rakes ++ new
    ∧ Forall (rake_wellformed (ORToolsPlanner.min_rake_size self) orders) new
    ∧ (RakePlan.rake_number <$> new) `sublist_of` (Rake.rake_number <$> rakes)
    ∧ assigned' ⊆ assigned ∪ list_to_set (Order.id <$> orders)
    ∧ (Forall (λ o, whole (Order.quantity_tonnes o)) orders →
       (∀ k rake, rakes !! k = Some rake →
          rake ∈ rakes_all
          ∧ 0 <= Rake.total_capacity_tonnes rake
          ∧ (cp_model.weighted value
               ((λ o, Py.int (Order.quantity_tonnes o)) <$> orders) (j + k)
             <= Py.int (Rake.total_capacity_tonnes rake))%Z) →
       Forall (rake_invariants (ORToolsPlanner.min_rake_size self) rakes_all) new).
Proof.
  revert j plan_rakes assigned.
  induction rakes as [| rake rest IH]; intros j prs a;
    cbn [ORToolsPlanner.extract_loop].
  - intros [= <- <-]. exists []. split_and!; try done.
    + by rewrite app_nil_r.
    + set_solver.
  - destruct (ORToolsPlanner.collect value j 0 orders [] 0 a)
      as [[ros tw] a1] eqn:Hcollect.
    apply collect_spec in Hcollect as (picked & Hsub & Hros & Htw & Ha1 & Hcap).
    simpl in Hros. subst ros.
    assert (Hids : a1 ⊆ a ∪ list_to_set (Order.id <$> orders)).
    { rewrite Ha1. intros id Hid. apply elem_of_union in Hid as [Hid | Hid];
        [| set_solver].
      apply elem_of_union_r. apply elem_of_list_to_set in Hid.
      apply elem_of_list_to_set. eapply elem_of_sublist; [exact Hid |].
      by apply fmap_sublist. }
    assert (Hskip :
      ORToolsPlanner.extract_loop self value orders (S j) rest prs a1
      = Ok (plan_rakes', assigned') →
      ∃ new,
        plan_rakes' = prs ++ new
        ∧ Forall (rake_wellformed (ORToolsPlanner.min_rake_size self) orders) new
        ∧ (RakePlan.rake_number <$> new)
          `sublist_of` (Rake.rake_number <$> rake :: rest)
        ∧ assigned' ⊆ a ∪ list_to_set (Order.id <$> orders)
        ∧ (Forall (λ o, whole (Order.quantity_tonnes o)) orders →
           (∀ k rake0, (rake :: rest) !! k = Some rake0 →
              rake0 ∈ rakes_all
              ∧ 0 <= Rake.total_capacity_tonnes rake0
              ∧ (cp_model.weighted value
                   ((λ o, Py.int (Order.quantity_tonnes o)) <$> orders) (j + k)
                 <= Py.int (Rake.total_capacity_tonnes rake0))%Z) →
           Forall (rake_invariants (ORToolsPlanner.min_rake_size self) rakes_all)
                  new)).
    { intros Hrest.
      apply IH in Hrest as (new & -> & Hwf & Hnum & Ha'' & Hinv).
      exists new. split_and!; try done.
      - rewrite fmap_cons. by apply sublist_cons.
      - set_solver.
      - intros Hwhole Hsat. apply Hinv; [done |]. intros k rake0 Hk.
        replace (S j + k)%nat with (j + S k)%nat by lia. by apply Hsat. }
    destruct picked as [| o picked']; [intros Hrest; by apply Hskip |].
    destruct (Qle_bool _ _) eqn:Hmin; [| intros Hrest; by apply Hskip].
    apply Qle_bool_iff in Hmin.
    destruct (Py.div _ _) as [ratio |]; simpl; [| discriminate].
    intros Hrest.
    apply IH in Hrest as (new & -> & Hwf & Hnum & Ha'' & Hinv).
    eexists (_ :: new). split_and!.
    + by rewrite <- app_assoc.
    + constructor; [| done].
      unfold rake_wellformed. simpl. split_and!; [done | | done | |].
      * rewrite Htw.
        change (fold_left Qplus (Order.quantity_tonnes <$> o :: picked') 0)
          with (Py.sum (Order.quantity_tonnes <$> o :: picked')).
        by rewrite <- records_quantity.
      * symmetry. apply (records_ids (o :: picked')).
      * apply Forall_forall. intros ro Hro.
        change (ro ∈ ORToolsPlanner.order_record <$> o :: picked') in Hro.
        apply list_elem_of_fmap in Hro as (o' & -> & Ho').
        exists o'. split; [by eapply elem_of_sublist | done].
    + rewrite !fmap_cons. simpl. by apply sublist_skip.
    + set_solver.
    + intros Hwhole Hsat. constructor.
      * destruct (Hsat 0%nat rake eq_refl) as (Hin & Hpos & Hle).
        replace (j + 0)%nat with j in Hle by lia.
        unfold rake_invariants. simpl. split_and!; [| | done].
        -- rewrite Htw.
           change (fold_left Qplus (Order.quantity_tonnes <$> o :: picked') 0)
             with (Py.sum (Order.quantity_tonnes <$> o :: picked')).
           by rewrite <- records_quantity.
        -- exists rake. split_and!; [done | done |].
           rewrite (Hcap Hwhole).
           change (cp_model.Zsum _) with
             (cp_model.weighted value
                ((λ o, Py.int (Order.quantity_tonnes o)) <$> orders) j).
           apply int_le in Hpos.
           assert (inject_Z (cp_model.weighted value
                               ((λ o, Py.int (Order.quantity_tonnes o)) <$> orders) j)
                   <= inject_Z (Py.int (Rake.total_capacity_tonnes rake)))
             by (by rewrite <- Zle_Qle).
           lra.
      * apply Hinv; [done |]. intros k rake0 Hk.
        replace (S j + k)%nat with (j + S k)%nat by lia. by apply Hsat.
Qed.

End ExtractProperties.

(** ** Every mode of the dispatcher *)

Section PlannerProperties.
Context `{M : math.lib} `{CP : cp_model.CpSolver}.
Local Open Scope Q_scope.

(** A satisfying assignment keeps the capacity constraint of every
    rake. *)
Lemma satisfies_capacity (m : cp_model.CpModel) (v : cp_model.assignment)
    (k : nat) (c : Z) :
  cp_model.satisfies m v = true →
  cp_model.capacities m !! k = Some c →
  (cp_model.weighted v (cp_model.weights m) k <= c)%Z.
Proof.
  unfold cp_model.satisfies. intros Hsat Hk.
  apply andb_true_iff in Hsat as [_ Hcap].
  rewrite forallb_forall in Hcap.
  specialize (Hcap (k, c)). simpl in Hcap. apply Z.leb_le, Hcap.
  apply list_elem_of_In, elem_of_lookup_imap. by exists k, c.
Qed.

(** [_extract_solution] returns a well-formed plan, for every
    assignment. *)
Lemma extract_solution_wellformed (self : ORToolsPlanner.t)
    (value : cp_model.assignment) (orders : list Order.t)
    (stockyards : list Stockyard.t) (rakes : list Rake.t) (r : PlanResult.t) :
  ORToolsPlanner._extract_solution self value orders stockyards rakes = Ok r →
  Forall (rake_wellformed (ORToolsPlanner.min_rake_size self) orders)
         (PlanResult.rakes r)
  ∧ (RakePlan.rake_number <$> PlanResult.rakes r)
    `sublist_of` (Rake.rake_number <$> rakes)
  ∧ PlanResult.total_orders r = length orders
  ∧ (PlanResult.orders_fulfilled r <= PlanResult.total_orders r)%nat
  ∧ (Forall (λ o, whole (Order.quantity_tonnes o)) orders →
     Forall (λ rake, 0 <= Rake.total_capacity_tonnes rake) rakes →
     cp_model.satisfies (ORToolsPlanner.build_model orders rakes) value = true →
     Forall (rake_invariants (ORToolsPlanner.min_rake_size self) rakes)
            (PlanResult.rakes r)).
Proof.
  unfold ORToolsPlanner._extract_solution.
  destruct (ORToolsPlanner.extract_loop _ _ _ _ _ _ _) as [[prs a] |] eqn:Hloop;
    simpl; [| discriminate].
  intros [= <-]. simpl.
  apply (extract_loop_facts _ _ _ rakes) in Hloop
    as (new & -> & Hwf & Hnum & Ha & Hinv).
  simpl. split_and!; try done.
  - apply size_ids_le. set_solver.
  - intros Hwhole Hpos Hsat. apply Hinv; [done |].
    intros k rake Hk. simpl. rewrite Forall_forall in Hpos.
    assert (Hin : rake ∈ rakes) by (by eapply list_elem_of_lookup_2).
    split_and!; [done | by apply Hpos |].
    apply (satisfies_capacity (ORToolsPlanner.build_model orders rakes));
      [done |].
    simpl. by rewrite list_lookup_fmap, Hk.
Qed.

(** The CP-SAT packer returns a well-formed plan, whatever the solver
    answers. *)
Lemma ortools_plan_wellformed (config : Config.t) (orders : list Order.t)
    (stockyards : list Stockyard.t) (rakes : list Rake.t) (r : PlanResult.t) :
  ORToolsPlanner.plan (ORToolsPlanner.init config) orders stockyards rakes = Ok r →
  plan_wellformed (default 1000 (Config.min_rake_size config)) orders rakes r.
Proof.
  assert (Hfallback : ∀ tag,
    (g ← GreedyPlanner.plan (GreedyPlanner.init config) orders stockyards rakes;
     Ok (PlanResult.set_algorithm g tag)) = Ok r →
    plan_wellformed (default 1000 (Config.min_rake_size config)) orders rakes r).
  { intros tag.
    destruct (GreedyPlanner.plan _ _ _ _) as [g |] eqn:Hg; simpl; [| discriminate].
    intros [= <-]. by apply greedy_plan_wellformed in Hg. }
  unfold ORToolsPlanner.plan. cbn [ORToolsPlanner.config ORToolsPlanner.init].
  destruct (_ || _); [apply Hfallback |].
  destruct (cp_model.Solve _) as [[status value] |]; simpl; [| discriminate].
  case_bool_decide; [| apply Hfallback].
  intros Hextract. apply extract_solution_wellformed in Hextract
    as (Hwf & Hnum & Htotal & Hle & _).
  by split_and!.
Qed.

(** Whatever the mode and whatever the solver answers, a plan returned by
    [run_planner] is well formed: every rake carries at least one order,
    weighs the sum of its records and at least the minimum rake size, and
    every record is that of an order given; the rakes named are available
    rakes, each named at most once, in input order; [total_orders] is the
    number of orders given and [orders_fulfilled] does not exceed it. *)
Theorem run_planner_wellformed (mode : string) (config : Config.t)
    (orders : list Order.t) (stockyards : list Stockyard.t)
    (rakes : list Rake.t) (r : PlanResult.t) :
  run_planner mode config orders stockyards rakes = Ok r →
  plan_wellformed (default 1000 (Config.min_rake_size config)) orders rakes r.
Proof.
  unfold run_planner.
  case_bool_decide; [by apply greedy_plan_wellformed |].
  case_bool_decide; [by apply ortools_plan_wellformed |].
  case_bool_decide; [| discriminate].
  destruct (GreedyPlanner.plan _ _ _ _) as [g |] eqn:Hg; simpl; [| discriminate].
  apply greedy_plan_wellformed in Hg.
  destruct (ORToolsPlanner.plan _ _ _ _) as [o |] eqn:Ho; simpl.
  - apply ortools_plan_wellformed in Ho.
    destruct (Qlt_bool _ _); by intros [= <-].
  - by intros [= <-].
Qed.

Lemma rake_invariants_available (min_rake_size : Q) (rakes : list Rake.t)
    (rp : RakePlan.t) :
  rake_invariants min_rake_size (GreedyPlanner.available rakes) rp →
  rake_invariants min_rake_size rakes rp.
Proof.
  intros (Hsum & (rake & Hin & Hnumber & Hcap) & Hmin).
  split_and!; [done | | done]. exists rake. split_and!; [| done | done].
  unfold GreedyPlanner.available in Hin.
  apply list_elem_of_In, filter_In in Hin as [Hin _]. by apply list_elem_of_In.
Qed.

Lemma greedy_plan_capacity (self : GreedyPlanner.t) (orders : list Order.t)
    (stockyards : list Stockyard.t) (rakes : list Rake.t) (r : PlanResult.t) :
  GreedyPlanner.plan self orders stockyards rakes = Ok r →
  Forall (rake_invariants (GreedyPlanner.min_rake_size self) rakes)
         (PlanResult.rakes r).
Proof.
  intros Hplan. by apply greedy_plan_facts in Hplan as (st & (_ & Hinv) & -> & _).
Qed.

Lemma ortools_plan_capacity (config : Config.t) (orders : list Order.t)
    (stockyards : list Stockyard.t) (rakes : list Rake.t) (r : PlanResult.t) :
  cp_model.sound CP →
  Forall (λ o, whole (Order.quantity_tonnes o)) orders →
  Forall (λ rake, 0 <= Rake.total_capacity_tonnes rake) rakes →
  ORToolsPlanner.plan (ORToolsPlanner.init config) orders stockyards rakes = Ok r →
  Forall (rake_invariants (default 1000 (Config.min_rake_size config)) rakes)
         (PlanResult.rakes r).
Proof.
  intros Hsound Hwhole Hpos.
  assert (Hfallback : ∀ tag,
    (g ← GreedyPlanner.plan (GreedyPlanner.init config) orders stockyards rakes;
     Ok (PlanResult.set_algorithm g tag)) = Ok r →
    Forall (rake_invariants (default 1000 (Config.min_rake_size config)) rakes)
           (PlanResult.rakes r)).
  { intros tag.
    destruct (GreedyPlanner.plan _ _ _ _) as [g |] eqn:Hg; simpl; [| discriminate].
    intros [= <-]. by apply greedy_plan_capacity in Hg. }
  unfold ORToolsPlanner.plan. cbn [ORToolsPlanner.config ORToolsPlanner.init].
  destruct (_ || _); [apply Hfallback |].
  destruct (cp_model.Solve _) as [[status value] |] eqn:Hsolve; simpl;
    [| discriminate].
  case_bool_decide as Hstatus; [| apply Hfallback].
  intros Hextract. apply extract_solution_wellformed in Hextract
    as (_ & _ & _ & _ & Hinv).
  eapply Forall_impl; [| intros rp; apply rake_invariants_available].
  apply Hinv; [done | | by eapply Hsound].
  rewrite Forall_forall in Hpos. apply Forall_forall. intros rake Hrake.
  apply Hpos. unfold GreedyPlanner.available in Hrake.
  apply list_elem_of_In, filter_In in Hrake as [Hin _]. by apply list_elem_of_In.
Qed.

(** With a solver that keeps its promise (an assignment reported optimal
    or feasible satisfies the constraints), whole tonnages and
    non-negative capacities, no rake of a plan is loaded beyond the
    capacity of the rake it names, in every mode. *)
Theorem run_planner_capacity (mode : string) (config : Config.t)
    (orders : list Order.t) (stockyards : list Stockyard.t)
    (rakes : list Rake.t) (r : PlanResult.t) :
  cp_model.sound CP →
  Forall (λ o, whole (Order.quantity_tonnes o)) orders →
  Forall (λ rake, 0 <= Rake.total_capacity_tonnes rake) rakes →
  run_planner mode config orders stockyards rakes = Ok r →
  Forall (rake_invariants (default 1000 (Config.min_rake_size config)) rakes)
         (PlanResult.rakes r).
Proof.
  intros Hsound Hwhole Hpos. unfold run_planner.
  case_bool_decide; [by apply greedy_plan_capacity |].
  case_bool_decide; [by apply ortools_plan_capacity |].
  case_bool_decide; [| discriminate].
  destruct (GreedyPlanner.plan _ _ _ _) as [g |] eqn:Hg; simpl; [| discriminate].
  apply greedy_plan_capacity in Hg.
  destruct (ORToolsPlanner.plan _ _ _ _) as [o |] eqn:Ho; simpl.
  - apply ortools_plan_capacity in Ho; try done.
    destruct (Qlt_bool _ _); by intros [= <-].
  - by intros [= <-].
Qed.

(** On a large instance (more than 50 orders or more than 20 available
    rakes) the solver is not consulted: mode ['or-tools'] returns the
    greedy plan under a fallback tag, and mode ['hybrid'], comparing the
    greedy plan with itself, returns it tagged as the better one; both
    raise what the greedy planner raises. *)
Theorem run_planner_large_instance (config : Config.t) (orders : list Order.t)
    (stockyards : list Stockyard.t) (rakes : list Rake.t) :
  (50 < length orders ∨ 20 < length (GreedyPlanner.available rakes))%nat →
  run_planner "or-tools" config orders stockyards rakes
  = (g ← GreedyPlanner.plan (GreedyPlanner.init config) orders stockyards rakes;
     Ok (PlanResult.set_algorithm g
           "or-tools (greedy fallback for large instance)"))
  ∧ run_planner "hybrid" config orders stockyards rakes
    = (g ← GreedyPlanner.plan (GreedyPlanner.init config) orders stockyards rakes;
       Ok (PlanResult.set_algorithm g "hybrid (greedy better)")).
Proof.
  intros Hlarge.
  assert (Hor : ORToolsPlanner.plan (ORToolsPlanner.init config)
                  orders stockyards rakes
                = (g ← GreedyPlanner.plan (GreedyPlanner.init config)
                         orders stockyards rakes;
                   Ok (PlanResult.set_algorithm g
                         "or-tools (greedy fallback for large instance)"))).
  { unfold ORToolsPlanner.plan. cbn [ORToolsPlanner.config ORToolsPlanner.init].
    replace ((50 <? length orders)%nat
             || (20 <? length (GreedyPlanner.available rakes))%nat) with true;
      [done |].
    symmetry. apply orb_true_iff.
    destruct Hlarge; [left | right]; by apply Nat.ltb_lt. }
  unfold run_planner. simpl. split; [done |]. rewrite Hor.
  destruct (GreedyPlanner.plan _ _ _ _) as [g |]; simpl; [| done].
  replace (Qlt_bool (PlanResult.total_cost g) (PlanResult.total_cost g))
    with false; [done |].
  symmetry. apply Qlt_bool_false, Qle_refl.
Qed.

End PlannerProperties.

(** ** Utilization, empty inputs, new jobs *)

Section UtilizationProperties.
Context `{M : math.lib}.
Local Open Scope Q_scope.

Lemma sum_le_bound (l : list Q) (b : Q) :
  Forall (λ x, x <= b) l → Py.sum l <= b * inject_Z (Z.of_nat (length l)).
Proof.
  induction 1 as [| x l Hx _ IH].
  - change (0 <= b * 0). lra.
  - rewrite sum_cons. cbn [length]. rewrite Nat2Z.inj_succ, <- Z.add_1_r.
    rewrite inject_Z_plus. change (inject_Z 1) with 1. lra.
Qed.

(** With positive tonnages, the utilization of every rake of a greedy
    plan is a percentage above 0 and at most 100, and so is the
    utilization of a plan that has a rake; a plan without rakes reports
    0. *)
Theorem greedy_utilization_bounds (self : GreedyPlanner.t)
    (orders : list Order.t) (stockyards : list Stockyard.t)
    (rakes : list Rake.t) (r : PlanResult.t) :
  Forall (λ o, 0 < Order.quantity_tonnes o) orders →
  GreedyPlanner.plan self orders stockyards rakes = Ok r →
  Forall (λ rp, 0 < RakePlan.utilization_pct rp
                ∧ RakePlan.utilization_pct rp <= 100)
         (PlanResult.rakes r)
  ∧ (PlanResult.rakes r = [] → PlanResult.utilization_pct r = 0)
  ∧ (PlanResult.rakes r ≠ [] →
     0 < PlanResult.utilization_pct r ∧ PlanResult.utilization_pct r <= 100).
Proof.
  intros Hpos Hplan.
  apply greedy_plan_facts in Hplan
    as (st & ((Hpacks & _) & _) & -> & _ & _ & -> & _).
  assert (Hall : Forall (λ rp, 0 < RakePlan.utilization_pct rp
                               ∧ RakePlan.utilization_pct rp <= 100)
                        (GreedyPlanner.plan_rakes st)).
  { eapply Forall_impl; [exact Hpacks |].
    intros rp ((picked & Hne & Hsub & Hrec & _) & _ & _ & _ & _ & _
               & Hsum & Hcap & Hzero & ->).
    assert (Hweight : 0 < RakePlan.total_weight rp).
    { rewrite Hsum. apply sum_pos.
      - intros Hnil. apply fmap_nil_inv in Hnil. rewrite Hnil in Hrec.
        by apply Forall2_nil_inv_r in Hrec.
      - apply Forall_fmap, Forall_forall. intros ro Hro. simpl.
        destruct (Forall2_record_elem _ _ _ Hrec Hro)
          as (o & Ho & (_ & _ & _ & -> & _)).
        rewrite Forall_forall in Hpos. apply Hpos.
        eapply elem_of_sorted, elem_of_sublist; [exact Ho | exact Hsub]. }
    assert (Hcapacity : 0 < RakePlan.capacity rp) by lra.
    assert (Hratio : 0 < RakePlan.total_weight rp / RakePlan.capacity rp)
      by (by apply Qlt_shift_div_l; [| lra]).
    assert (Hratio' : RakePlan.total_weight rp / RakePlan.capacity rp <= 1)
      by (by apply Qle_shift_div_r; [| lra]).
    split; nra. }
  split_and!; [done | |].
  - intros Hnil. unfold GreedyPlanner._calculate_utilization. by rewrite Hnil.
  - intros Hne. unfold GreedyPlanner._calculate_utilization.
    destruct (GreedyPlanner.plan_rakes st) as [| rp prs] eqn:Hprs; [done |].
    rewrite <- Hprs in *. clear Hprs.
    assert (Hn : 0 < inject_Z (Z.of_nat (length (GreedyPlanner.plan_rakes st)))).
    { destruct (GreedyPlanner.plan_rakes st); [done |].
      cbn [length]. rewrite Nat2Z.inj_succ, <- Z.add_1_r, inject_Z_plus.
      assert (0 <= inject_Z (Z.of_nat (length l)))
        by (change 0 with (inject_Z 0); rewrite <- Zle_Qle; lia).
      change (inject_Z 1) with 1. lra. }
    split.
    + apply Qlt_shift_div_l; [done |]. rewrite Qmult_0_l. apply sum_pos.
      * intros Hnil. apply fmap_nil_inv in Hnil. done.
      * apply Forall_fmap. eapply Forall_impl; [exact Hall |]. by intros ? [? _].
    + apply Qle_shift_div_r; [done |].
      rewrite <- (length_fmap RakePlan.utilization_pct (GreedyPlanner.plan_rakes st)).
      apply sum_le_bound.
      apply Forall_fmap. eapply Forall_impl; [exact Hall |]. by intros ? [_ ?].
Qed.

(** With no order, or no available rake, the greedy planner returns the
    empty plan: no rake, no cost, utilization 0 and no order fulfilled. *)
Theorem greedy_plan_nothing_to_do (self : GreedyPlanner.t)
    (orders : list Order.t) (stockyards : list Stockyard.t)
    (rakes : list Rake.t) :
  orders = [] ∨ GreedyPlanner.available rakes = [] →
  ∃ r, GreedyPlanner.plan self orders stockyards rakes = Ok r
       ∧ PlanResult.rakes r = []
       ∧ PlanResult.total_cost r == 0
       ∧ PlanResult.freight_cost r = 0
       ∧ PlanResult.demurrage_cost r = 0
       ∧ PlanResult.idle_cost r = 0
       ∧ PlanResult.utilization_pct r = 0
       ∧ PlanResult.orders_fulfilled r = 0%nat
       ∧ PlanResult.total_orders r = length orders.
Proof.
  intros Hnothing. unfold GreedyPlanner.plan, GreedyPlanner.plan_run.
  assert (GreedyPlanner.plan_loop self (sorted GreedyPlanner.order_key_lt orders)
            stockyards (GreedyPlanner.available rakes)
            (GreedyPlanner.mk_plan [] ∅ 0 0 0
               (GreedyPlanner.initial_inventory stockyards))
          = Ok (GreedyPlanner.mk_plan [] ∅ 0 0 0
                  (GreedyPlanner.initial_inventory stockyards))) as ->.
  { destruct Hnothing as [-> | ->]; [| done].
    destruct (GreedyPlanner.available rakes); done. }
  simpl. eexists. split; [reflexivity |]. simpl. split_and!; try done. lra.
Qed.

End UtilizationProperties.

Section GenerateProperties.
Local Open Scope Q_scope.

(** A job just generated, under a key no other job has, is reported
    queued at progress 0, with empty logs, no dates and no plan; the
    other jobs are found as before. *)
Theorem generate_plan_then_status (new_id scenario_name : string)
    (config : Config.t) (notes : option string) (db : DB.t) :
  Forall (λ j, PlanningJob.id j ≠ new_id) (DB.planning_jobs db) →
  let db1 := (planning.generate_plan new_id scenario_name config notes db).1 in
  planning.get_job_status new_id db1
  = planning.Return
      (JobStatus.mk new_id scenario_name "queued" 0 [] None None None)
  ∧ (∀ k, k ≠ new_id → DB.get_job k db1 = DB.get_job k db)
  ∧ ∀ k, k ≠ new_id →
         planning.get_job_status k db1 = planning.get_job_status k db.
Proof.
  intros Hfresh db1. subst db1. unfold planning.generate_plan. cbn [fst].
  assert (Hother : ∀ k, k ≠ new_id →
            DB.get_job k (DB.add_job
                            (PlanningJob.mk new_id scenario_name notes config
                               "queued" 0 [] None None) db)
            = DB.get_job k db).
  { clear Hfresh. intros k Hk. unfold DB.get_job, DB.add_job.
    cbn [DB.planning_jobs].
    induction (DB.planning_jobs db) as [| j js IH]; simpl.
    - unfold DB.job_is. simpl. by rewrite bool_decide_eq_false_2.
    - destruct (DB.job_is k j); [done | exact IH]. }
  split_and!; [| done |].
  - unfold planning.get_job_status, DB.get_job, DB.add_job. cbn [DB.planning_jobs].
    rewrite find_app_fresh.
    + simpl. unfold DB.job_is. simpl. by rewrite bool_decide_eq_true_2.
    + eapply Forall_impl; [exact Hfresh |]. intros j Hj. simpl in Hj.
      unfold DB.job_is. by apply bool_decide_eq_false_2.
  - intros k Hk. unfold planning.get_job_status. by rewrite Hother.
Qed.

End GenerateProperties.

(** ** What an optimal assignment looks like *)

Section OptimumProperties.
Context `{M : math.lib} `{CP : cp_model.CpSolver}.
Local Open Scope Q_scope.

Lemma Zsum_nonneg (l : list Z) : Forall (λ z, (0 <= z)%Z) l → (0 <= cp_model.Zsum l)%Z.
Proof.
  unfold cp_model.Zsum. induction 1 as [| z l Hz _ IH]; simpl; lia.
Qed.

Lemma Zsum_zero (l : list Z) :
  Forall (λ z, (0 <= z)%Z) l → cp_model.Zsum l = 0%Z → Forall (λ z, z = 0%Z) l.
Proof.
  unfold cp_model.Zsum. induction 1 as [| z l Hz Hl IH]; simpl; [done |].
  intros Hsum. pose proof (Zsum_nonneg l Hl) as Hnn. unfold cp_model.Zsum in Hnn.
  constructor; [lia |]. apply IH. lia.
Qed.

Lemma weighted_nonneg (v : cp_model.assignment) (coeffs : list Z) (j : nat) :
  Forall (λ c, (0 <= c)%Z) coeffs → (0 <= cp_model.weighted v coeffs j)%Z.
Proof.
  intros Hc. apply Zsum_nonneg, Forall_forall. intros z Hz.
  apply elem_of_lookup_imap in Hz as (i & c & -> & Hi).
  rewrite Forall_forall in Hc. destruct (v i j); [| lia].
  apply Hc. by eapply list_elem_of_lookup_2.
Qed.

Lemma Zsum_imap_zero (f : nat → Z → Z) (l : list Z) :
  (∀ i c, f i c = 0%Z) → cp_model.Zsum (imap f l) = 0%Z.
Proof.
  unfold cp_model.Zsum. revert f.
  induction l as [| c l IH]; intros f Hf; [done |].
  rewrite imap_cons. cbn [foldr]. rewrite Hf, IH; [done |].
  intros i c'. apply Hf.
Qed.

Lemma weighted_none (coeffs : list Z) (j : nat) :
  cp_model.weighted (λ _ _, false) coeffs j = 0%Z.
Proof. unfold cp_model.weighted. by apply Zsum_imap_zero. Qed.

(** The assignment that puts no order on any rake satisfies a model whose
    capacities are not negative, at objective 0. *)
Lemma no_assignment_satisfies (m : cp_model.CpModel) :
  Forall (λ c, (0 <= c)%Z) (cp_model.capacities m) →
  cp_model.satisfies m (λ _ _, false) = true
  ∧ cp_model.objective m (λ _ _, false) = 0%Z.
Proof.
  intros Hcap. split.
  - unfold cp_model.satisfies. apply andb_true_iff. split.
    + apply forallb_forall. intros i _. apply Z.leb_le.
      unfold cp_model.times_assigned, cp_model.Zsum.
      induction (seq 0 (length (cp_model.capacities m))) as [| k l IH];
        simpl; [done |].
      change (foldr Z.add 0%Z (list_fmap nat Z (λ _, 0%Z) l) <= 1)%Z in IH |- *.
      exact IH.
    + apply forallb_forall. intros [k c] Hkc. simpl. apply Z.leb_le.
      rewrite weighted_none.
      apply list_elem_of_In, elem_of_lookup_imap in Hkc as (i & c' & [= -> ->] & Hi).
      rewrite Forall_forall in Hcap. apply Hcap.
      by eapply list_elem_of_lookup_2.
  - unfold cp_model.objective, cp_model.Zsum.
    induction (seq 0 (length (cp_model.capacities m))) as [| k l IH]; [done |].
    rewrite fmap_cons. cbn [foldr]. by rewrite weighted_none, IH.
Qed.

Lemma int_nonneg (q : Q) : 0 <= q → (0 <= Py.int q)%Z.
Proof.
  intros Hq. unfold Py.int. apply Z.quot_pos; [| lia].
  destruct q as [n d]. unfold Qle in Hq. simpl in *. lia.
Qed.

Lemma int_pos (q : Q) : 1 <= q → (1 <= Py.int q)%Z.
Proof.
  intros Hq. unfold Py.int. destruct q as [n d]. unfold Qle in Hq. simpl in *.
  apply Z.quot_le_lower_bound; lia.
Qed.

(** An optimal assignment of a model whose objective coefficients are
    positive and whose capacities are not negative puts no order on any
    rake. *)
Lemma optimum_assigns_nothing (m : cp_model.CpModel) (v : cp_model.assignment) :
  length (cp_model.costs m) = length (cp_model.weights m) →
  Forall (λ c, (1 <= c)%Z) (cp_model.costs m) →
  Forall (λ c, (0 <= c)%Z) (cp_model.capacities m) →
  cp_model.is_optimal m v →
  ∀ i j, (i < length (cp_model.weights m))%nat →
         (j < length (cp_model.capacities m))%nat → v i j = false.
Proof.
  intros Hlen Hcost Hcap [_ Hbest] i j Hi Hj.
  destruct (no_assignment_satisfies m Hcap) as [Hsat Hzero].
  specialize (Hbest _ Hsat). rewrite Hzero in Hbest.
  assert (Hcost0 : Forall (λ c, (0 <= c)%Z) (cp_model.costs m))
    by (eapply Forall_impl; [exact Hcost |]; simpl; intros; lia).
  assert (Hall : Forall (λ z, z = 0%Z)
                   ((λ j, cp_model.weighted v (cp_model.costs m) j)
                      <$> seq 0 (length (cp_model.capacities m)))).
  { apply Zsum_zero.
    - apply Forall_fmap, Forall_forall. intros k _. simpl.
      by apply weighted_nonneg.
    - pose proof (Zsum_nonneg
                    ((λ j, cp_model.weighted v (cp_model.costs m) j)
                       <$> seq 0 (length (cp_model.capacities m)))) as Hnn.
      unfold cp_model.objective in Hbest.
      assert (0 <= cp_model.Zsum
                     ((λ j, cp_model.weighted v (cp_model.costs m) j)
                        <$> seq 0 (length (cp_model.capacities m))))%Z; [| lia].
      apply Hnn, Forall_fmap, Forall_forall. intros k _. simpl.
      by apply weighted_nonneg. }
  rewrite Forall_fmap, Forall_forall in Hall.
  assert (Hj0 : cp_model.weighted v (cp_model.costs m) j = 0%Z).
  { apply (Hall j). apply elem_of_seq. lia. }
  unfold cp_model.weighted in Hj0. apply Zsum_zero in Hj0.
  - rewrite <- Hlen in Hi. apply lookup_lt_is_Some_2 in Hi as [c Hc].
    rewrite Forall_forall in Hj0.
    specialize (Hj0 _ (elem_of_lookup_imap_2 _ _ _ _ Hc)). simpl in Hj0.
    destruct (v i j); [| done].
    rewrite Forall_forall in Hcost.
    specialize (Hcost c (list_elem_of_lookup_2 _ _ _ Hc)). simpl in Hcost. lia.
  - apply Forall_forall. intros z Hz.
    apply elem_of_lookup_imap in Hz as (i' & c & -> & Hi').
    rewrite Forall_forall in Hcost0. destruct (v i' j); [| lia].
    apply Hcost0. by eapply list_elem_of_lookup_2.
Qed.

Lemma collect_nothing (value : cp_model.assignment) (j i : nat)
    (orders rake_orders : list Order.t) (total_weight : Q)
    (assigned : gset string) :
  (∀ k, (k < length orders)%nat → value (i + k)%nat j = false) →
  ORToolsPlanner.collect value j i orders rake_orders total_weight assigned
  = (rake_orders, total_weight, assigned).
Proof.
  revert i. induction orders as [| order rest IH]; intros i Hnone;
    cbn [ORToolsPlanner.collect]; [done |].
  pose proof (Hnone 0%nat ltac:(simpl; lia)) as H0.
  replace (i + 0)%nat with i in H0 by lia. rewrite H0.
  apply IH. intros k Hk. replace (S i + k)%nat with (i + S k)%nat by lia.
  apply Hnone. simpl. lia.
Qed.

Lemma extract_nothing (self : ORToolsPlanner.t) (value : cp_model.assignment)
    (orders : list Order.t) (j : nat) (rakes : list Rake.t)
    (plan_rakes : list RakePlan.t) (assigned : gset string) :
  (∀ i k, (i < length orders)%nat → (k < length rakes)%nat →
          value i (j + k)%nat = false) →
  ORToolsPlanner.extract_loop self value orders j rakes plan_rakes assigned
  = Ok (plan_rakes, assigned).
Proof.
  revert j. induction rakes as [| rake rest IH]; intros j Hnone;
    cbn [ORToolsPlanner.extract_loop]; [done |].
  rewrite collect_nothing.
  - apply IH. intros i k Hi Hk. replace (S j + k)%nat with (j + S k)%nat by lia.
    apply Hnone; [done | simpl; lia].
  - intros k Hk. simpl. replace j with (j + 0)%nat by lia.
    apply Hnone; [done | simpl; lia].
Qed.

(** The model rewards leaving orders behind: it minimises a cost that
    grows with every assignment and has no constraint that asks for one.
    On an instance small enough for the solver, with orders of at least
    2 kg and capacities that are not negative, an optimal assignment
    ships nothing: the CP-SAT packer returns the plan without rakes, at
    cost 0; and in hybrid mode that plan replaces every greedy plan that
    costs anything. *)
Theorem cp_sat_optimum_ships_nothing (config : Config.t) (orders : list Order.t)
    (stockyards : list Stockyard.t) (rakes : list Rake.t)
    (value : cp_model.assignment) :
  (length orders <= 50)%nat →
  (length (GreedyPlanner.available rakes) <= 20)%nat →
  Forall (λ o, 1 <= Order.quantity_tonnes o * 500) orders →
  Forall (λ rake, 0 <= Rake.total_capacity_tonnes rake) rakes →
  cp_model.Solve (ORToolsPlanner.build_model orders (GreedyPlanner.available rakes))
  = Ok (cp_model.OPTIMAL, value) →
  cp_model.is_optimal
    (ORToolsPlanner.build_model orders (GreedyPlanner.available rakes)) value →
  let nothing :=
    PlanResult.mk [] 0 0 0 0 0 0 (length orders) "or-tools (CP-SAT)" in
  run_planner "or-tools" config orders stockyards rakes = Ok nothing
  ∧ ∀ g, GreedyPlanner.plan (GreedyPlanner.init config) orders stockyards rakes
         = Ok g →
         0 < PlanResult.total_cost g →
         run_planner "hybrid" config orders stockyards rakes
         = Ok (PlanResult.set_algorithm nothing "hybrid (or-tools better)").
Proof.
  intros Horders Hrakes Hq Hcap Hsolve Hopt nothing.
  assert (Hplan : ORToolsPlanner.plan (ORToolsPlanner.init config)
                    orders stockyards rakes = Ok nothing).
  { unfold ORToolsPlanner.plan.
    replace ((50 <? length orders)%nat
             || (20 <? length (GreedyPlanner.available rakes))%nat) with false.
    2:{ symmetry. apply orb_false_iff. split; apply Nat.ltb_ge; lia. }
    rewrite Hsolve. simpl.
    unfold ORToolsPlanner._extract_solution. rewrite extract_nothing; [done |].
    intros i k Hi Hk. simpl.
    apply (optimum_assigns_nothing _ _) with (4 := Hopt); simpl.
    - by rewrite !length_fmap.
    - apply Forall_fmap. eapply Forall_impl; [exact Hq |]. simpl.
      intros o Ho. by apply int_pos.
    - apply Forall_fmap, Forall_forall. intros rake Hrake. simpl.
      apply int_nonneg. rewrite Forall_forall in Hcap. apply Hcap.
      unfold GreedyPlanner.available in Hrake.
      apply list_elem_of_In, filter_In in Hrake as [Hin _].
      by apply list_elem_of_In.
    - by rewrite length_fmap.
    - by rewrite length_fmap. }
  split.
  - unfold run_planner. simpl. exact Hplan.
  - intros g Hg Hcost. unfold run_planner. simpl. rewrite Hg. simpl.
    rewrite Hplan. simpl.
    replace (Qlt_bool 0 (PlanResult.total_cost g)) with true; [done |].
    symmetry. by apply Qlt_bool_true.
Qed.

End OptimumProperties.
